(** * tailscale-cni daemon: pod manager, hostname derivation, auth-key minting

    A shallow embedding of [pkg/daemon/pods.go], [pkg/daemon/oauth.go] and the
    flag handling of [cmd/daemon/main.go], with the properties stated about
    them.

    Go strings are byte strings; they are modelled as [string] (a list of
    [ascii], one per byte).  The regular expressions of [pods.go] only test
    ASCII bytes and [-], so on every byte string they see the same dashes the
    Go matcher sees.  [strings.ToLower] works on runes: it is modelled with
    every rune whose lower case is an ASCII letter (see [gostrings.ToLower]). *)

From Stdlib Require Import Ascii String List Lia ZArith Bool DecimalString.
From stdpp Require Import gmap strings list fin_maps.

Open Scope string_scope.
Open Scope list_scope.

(** ** Regular expressions of the shape used by [pods.go]

    Every pattern in the file is a sequence of character classes, each with a
    greedy counted repetition, possibly inside a capture group, between
    optional [^] and [$] anchors.  The matcher below is a backtracking matcher
    with Go's leftmost-first preference: a repetition first tries to take one
    more byte and gives bytes back only when the rest of the pattern fails. *)
Module Regexp.

Definition cclass := ascii -> bool.

Record item := Item {
  cls  : cclass;        (* the character class *)
  rmin : nat;           (* minimal number of repetitions *)
  rmax : option nat;    (* maximal number, [None] for unbounded *)
  cap  : bool           (* inside a capture group *)
}.

Record regexp := Regexp {
  bol   : bool;         (* pattern starts with ^ *)
  items : list item;
  eol   : bool          (* pattern ends with $ *)
}.

(** Character classes. *)
Definition in_range (lo hi c : ascii) : bool :=
  (N_of_ascii lo <=? N_of_ascii c)%N && (N_of_ascii c <=? N_of_ascii hi)%N.
Definition lit (a : ascii) : cclass := fun c => Ascii.eqb c a.
(* [.] without the s flag: any character but line feed *)
Definition dot : cclass := fun c => negb (Ascii.eqb c "010"%char).
(* [\d] is ASCII-only in RE2 syntax *)
Definition digit : cclass := in_range "0" "9".
(* [a-z0-9] *)
Definition lower_alnum : cclass := fun c => in_range "a" "z" c || in_range "0" "9" c.
(* [^a-z0-9-] *)
Definition not_hostname_char : cclass :=
  fun c => negb (in_range "a" "z" c || in_range "0" "9" c || Ascii.eqb c "-").

(** Pattern pieces. *)
Definition one (c : cclass) : item := Item c 1 (Some 1) false.
Definition plus (c : cclass) : item := Item c 1 None false.
Definition count (c : cclass) (lo hi : nat) : item := Item c lo (Some hi) false.
Definition group (i : item) : item := Item (cls i) (rmin i) (rmax i) true.

Definition hi_pos (hi : option nat) : bool :=
  match hi with Some O => false | _ => true end.
Definition hi_pred (hi : option nat) : option nat :=
  match hi with Some n => Some (pred n) | None => None end.

(** Greedy repetition of a class, continuing with [k matched rest]. *)
Fixpoint rep {A} (c : cclass) (lo : nat) (hi : option nat) (s : list ascii)
    (k : list ascii -> list ascii -> option A) : option A :=
  let stop := match lo with O => k [] s | S _ => None end in
  match s with
  | ch :: s' =>
      if c ch && hi_pos hi then
        match rep c (pred lo) (hi_pred hi) s' (fun m rest => k (ch :: m) rest) with
        | Some r => Some r
        | None => stop
        end
      else stop
  | [] => stop
  end.

(** Match the items at the start of [s]; the result is the captured groups
    (appended to [caps]) and the unmatched rest of [s]. *)
Fixpoint match_items (its : list item) (at_eol : bool) (s : list ascii)
    (caps : list (list ascii)) : option (list (list ascii) * list ascii) :=
  match its with
  | [] =>
      if at_eol then match s with [] => Some (caps, []) | _ :: _ => None end
      else Some (caps, s)
  | it :: its' =>
      rep (cls it) (rmin it) (rmax it) s
        (fun m rest => match_items its' at_eol rest (if cap it then caps ++ [m] else caps))
  end.

Definition match_here (r : regexp) (s : list ascii) :=
  match_items (items r) (eol r) s [].

(** Leftmost match: the first start position at which the pattern matches.
    The result is the whole match followed by the groups. *)
Fixpoint search (r : regexp) (s : list ascii) : option (list (list ascii)) :=
  match match_here r s with
  | Some (caps, rest) => Some (take (length s - length rest) s :: caps)
  | None =>
      match s with
      | [] => None
      | _ :: s' => search r s'
      end
  end.

Definition find (r : regexp) (s : list ascii) : option (list (list ascii)) :=
  if bol r then
    match match_here r s with
    | Some (caps, rest) => Some (take (length s - length rest) s :: caps)
    | None => None
    end
  else search r s.

(** Go's [Regexp.MatchString] *)
Definition MatchString (r : regexp) (s : string) : bool :=
  match find r (list_ascii_of_string s) with Some _ => true | None => false end.

(** Go's [Regexp.FindStringSubmatch]: the whole match and the groups, or the
    nil slice when there is no match. *)
Definition FindStringSubmatch (r : regexp) (s : string) : list string :=
  match find r (list_ascii_of_string s) with
  | Some ms => map string_of_list_ascii ms
  | None => []
  end.

(** Replacement of all non-overlapping leftmost matches by [repl] (the
    patterns it is used with are unanchored and never match the empty
    string; [repl] holds no [$] expansions).  [skip] counts the bytes of the
    current match that are still to be dropped. *)
Fixpoint replace_all (r : regexp) (repl : list ascii) (skip : nat)
    (s : list ascii) : list ascii :=
  match s with
  | [] => []
  | ch :: s' =>
      match skip with
      | S n => replace_all r repl n s'
      | O =>
          match match_here r s with
          | Some (_, rest) =>
              match length s - length rest with
              | S n => repl ++ replace_all r repl n s'
              | O => ch :: replace_all r repl 0 s'
              end
          | None => ch :: replace_all r repl 0 s'
          end
      end
  end.

(** Go's [Regexp.ReplaceAllString] *)
Definition ReplaceAllString (r : regexp) (s repl : string) : string :=
  string_of_list_ascii
    (replace_all r (list_ascii_of_string repl) 0 (list_ascii_of_string s)).

End Regexp.

(** ** [strings] package functions used by [pods.go] *)
Module gostrings.

Definition to_lower_byte (c : ascii) : ascii :=
  if Regexp.in_range "A" "Z" c then ascii_of_N (N_of_ascii c + 32) else c.

Definition is_ascii (c : ascii) : bool := (N_of_ascii c <? 128)%N.
Definition is_upper_byte (c : ascii) : bool := Regexp.in_range "A" "Z" c.

(** [strings.Map(unicode.ToLower, s)], rune by rune.  The runes whose lower
    case is an ASCII letter are the capital letters [A] to [Z], U+0130 (the
    bytes C4 B0, lower case [i]) and U+212A (the bytes E2 84 AA, lower case
    [k]); C4 and E2 are lead bytes, so wherever these byte sequences occur
    they are those runes.  Every other rune above U+007F has its lower case
    above U+007F, and a byte that is not part of a rune is written as U+FFFD:
    where Go writes such a rune the bytes read are kept here.  Neither has a
    byte below 0x80, and [sanitizeHostname], the one caller, replaces every
    byte from 0x80 on by a dash and collapses the dashes. *)
Fixpoint Map_ToLower (l : list ascii) : list ascii :=
  match l with
  | [] => []
  | c1 :: l1 =>
      match l1 with
      | [] => [to_lower_byte c1]
      | c2 :: l2 =>
          if Ascii.eqb c1 "196" && Ascii.eqb c2 "176" then "i"%char :: Map_ToLower l2
          else
            match l2 with
            | [] => to_lower_byte c1 :: Map_ToLower l1
            | c3 :: l3 =>
                if Ascii.eqb c1 "226" && Ascii.eqb c2 "132" && Ascii.eqb c3 "170"
                then "k"%char :: Map_ToLower l3
                else to_lower_byte c1 :: Map_ToLower l1
            end
      end
  end.

(** [strings.ToLower]: a string of ASCII bytes is returned as it is when it
    has no capital letter and lower-cased byte by byte when it has one; any
    other string goes through [Map]. *)
Definition ToLower (s : string) : string :=
  let bs := list_ascii_of_string s in
  if forallb is_ascii bs then
    if negb (existsb is_upper_byte bs) then s
    else string_of_list_ascii (map to_lower_byte bs)
  else string_of_list_ascii (Map_ToLower bs).

Definition in_cutset (cutset : string) (c : ascii) : bool :=
  existsb (Ascii.eqb c) (list_ascii_of_string cutset).

Fixpoint trim_left (f : ascii -> bool) (s : list ascii) : list ascii :=
  match s with
  | c :: s' => if f c then trim_left f s' else s
  | [] => []
  end.

Definition trim_right (f : ascii -> bool) (s : list ascii) : list ascii :=
  rev (trim_left f (rev s)).

(** [strings.Trim]: drop the leading and trailing bytes that are in [cutset]. *)
Definition Trim (s cutset : string) : string :=
  string_of_list_ascii
    (trim_right (in_cutset cutset) (trim_left (in_cutset cutset) (list_ascii_of_string s))).

(** [strings.HasPrefix] *)
Definition HasPrefix (s pre : string) : bool := String.prefix pre s.

End gostrings.

(** ** Patterns of [pods.go] *)

(* ^(.+)-[a-z0-9]{8,10}-[a-z0-9]{5}$ *)
Definition replicaSetPattern : Regexp.regexp :=
  Regexp.Regexp true
    [Regexp.group (Regexp.plus Regexp.dot); Regexp.one (Regexp.lit "-");
     Regexp.count Regexp.lower_alnum 8 10; Regexp.one (Regexp.lit "-");
     Regexp.count Regexp.lower_alnum 5 5]
    true.

(* ^(.+)-[a-z0-9]{8,10}$ *)
Definition deploymentPattern : Regexp.regexp :=
  Regexp.Regexp true
    [Regexp.group (Regexp.plus Regexp.dot); Regexp.one (Regexp.lit "-");
     Regexp.count Regexp.lower_alnum 8 10]
    true.

(* -\d{1,3}$ *)
Definition statefulSetOrdinalPattern : Regexp.regexp :=
  Regexp.Regexp false
    [Regexp.one (Regexp.lit "-"); Regexp.count Regexp.digit 1 3]
    true.

(* [^a-z0-9-] *)
Definition hostnameInvalidCharsPattern : Regexp.regexp :=
  Regexp.Regexp false [Regexp.one Regexp.not_hostname_char] false.

(* -+ *)
Definition hostnameMultipleDashPattern : Regexp.regexp :=
  Regexp.Regexp false [Regexp.plus (Regexp.lit "-")] false.

Definition defaultVethMTU : Z := 1420.

(** ** Hostname derivation *)

(** [stripKubernetesSuffixes]: [len(matches) > 1] holds exactly when the
    pattern matched, and [matches[1]] is the first group. *)
Definition stripKubernetesSuffixes (podName : string) : string :=
  if Regexp.MatchString statefulSetOrdinalPattern podName then podName
  else
    match Regexp.FindStringSubmatch replicaSetPattern podName with
    | _ :: m1 :: _ => m1
    | _ =>
        match Regexp.FindStringSubmatch deploymentPattern podName with
        | _ :: m1 :: _ => m1
        | _ => podName
        end
    end.

(** [s[:n]] on a Go string. *)
Definition slice_to (n : nat) (s : string) : string :=
  string_of_list_ascii (take n (list_ascii_of_string s)).

(** [sanitizeHostname] *)
Definition sanitizeHostname (s : string) : string :=
  let s := gostrings.ToLower s in
  let s := Regexp.ReplaceAllString hostnameInvalidCharsPattern s "-" in
  let s := Regexp.ReplaceAllString hostnameMultipleDashPattern s "-" in
  let s := gostrings.Trim s "-" in
  if (63 <? String.length s)%nat then slice_to 63 s else s.

(** [tunNameForContainer] *)
Definition tunNameForContainer (containerID : string) : string :=
  let suffix := containerID in
  let suffix := if (8 <? String.length suffix)%nat then slice_to 8 suffix else suffix in
  "ts-" +:+ suffix.

(** ** A declarative reading of the patterns *)
Module RegexpSpec.
Import Regexp.

Definition le_hi (n : nat) (hi : option nat) : Prop :=
  match hi with Some h => n <= h | None => True end.

Definition all_in (c : cclass) (l : list ascii) : Prop :=
  Forall (fun ch => c ch = true) l.

(** [splits its at_eol s caps rest]: [s] is the concatenation of one block
    per item, each block made of bytes of the item's class and of an allowed
    length, followed by [rest] (empty when the pattern ends with [$]);
    [caps] are the blocks of the capturing items. *)
Fixpoint splits (its : list item) (at_eol : bool) (s : list ascii)
    (caps : list (list ascii)) (rest : list ascii) : Prop :=
  match its with
  | [] => caps = [] /\ rest = s /\ (at_eol = true -> s = [])
  | it :: its' =>
      exists m s' caps',
        s = m ++ s' /\ all_in (cls it) m /\ rmin it <= length m /\
        le_hi (length m) (rmax it) /\
        splits its' at_eol s' caps' rest /\
        caps = if cap it then m :: caps' else caps'
  end.

End RegexpSpec.


(** ** Name shapes of the suffix-stripping rules *)

Definition all_chars (c : Regexp.cclass) (s : string) : Prop :=
  RegexpSpec.all_in c (list_ascii_of_string s).

(** only [0-9] *)
Definition digits (s : string) : Prop := all_chars Regexp.digit s.
(** only [a-z0-9] *)
Definition lowercase_alnum (s : string) : Prop := all_chars Regexp.lower_alnum s.

(** the name ends with [-] followed by 1 to 3 digits *)
Definition ends_with_ordinal (name : string) : Prop :=
  exists pre d, name = pre +:+ "-" +:+ d /\ 1 <= String.length d <= 3 /\ digits d.

(** the name is [prefix-h-r], [h] of 8 to 10 and [r] of exactly 5 lowercase
    alphanumerics *)
Definition has_replicaset_suffix (name prefix : string) : Prop :=
  exists h r, name = prefix +:+ "-" +:+ h +:+ "-" +:+ r /\
              8 <= String.length h <= 10 /\ lowercase_alnum h /\
              String.length r = 5 /\ lowercase_alnum r.

(** the name is [prefix-h], [h] of 8 to 10 lowercase alphanumerics *)
Definition has_hash_suffix (name prefix : string) : Prop :=
  exists h, name = prefix +:+ "-" +:+ h /\
            8 <= String.length h <= 10 /\ lowercase_alnum h.

(** what the group [(.+)] accepts: at least one byte, no line feed *)
Definition line_prefix (p : string) : Prop :=
  p <> "" /\ all_chars Regexp.dot p.

(** A workload name is the name of a Kubernetes pod: it holds no line feed
    and does not start with a dash. *)
Definition workload_name (name : string) : Prop :=
  all_chars Regexp.dot name /\ gostrings.HasPrefix name "-" = false.

(** The names Kubernetes accepts for a pod are DNS subdomains (RFC 1123):
    lowercase alphanumerics, [-] and [.], the first one alphanumeric. *)
Definition dns_char : Regexp.cclass :=
  fun c => Regexp.lower_alnum c || Ascii.eqb c "-" || Ascii.eqb c ".".
Definition dns_subdomain (name : string) : Prop :=
  all_chars dns_char name /\
  exists c rest, name = String c rest /\ Regexp.lower_alnum c = true.

(** A name with a line feed in front of a hash suffix. *)
Definition two_line_name : string := String "a" (String "010" "b-abcdefgh").
Definition two_line_prefix : string := String "a" (String "010" "b").

(** The same shapes on the bytes of the name. *)
Module NameShapes.
Import Regexp RegexpSpec.

Definition ordinal_l (n : list ascii) : Prop :=
  exists pre d, n = pre ++ "-"%char :: d /\ 1 <= length d <= 3 /\ all_in digit d.
Definition replicaset_l (n p : list ascii) : Prop :=
  exists h r, n = p ++ "-"%char :: h ++ "-"%char :: r /\
              8 <= length h <= 10 /\ all_in lower_alnum h /\
              length r = 5 /\ all_in lower_alnum r.
Definition hash_l (n p : list ascii) : Prop :=
  exists h, n = p ++ "-"%char :: h /\ 8 <= length h <= 10 /\ all_in lower_alnum h.
Definition prefix_l (p : list ascii) : Prop := p <> [] /\ all_in dot p.

End NameShapes.

(** ** Hostname sanitization as a pipeline of plain list functions *)
Module HostnameSpec.

Definition is_upper (c : ascii) : bool := (65 <=? N_of_ascii c)%N && (N_of_ascii c <=? 90)%N.
Definition is_lower (c : ascii) : bool := (97 <=? N_of_ascii c)%N && (N_of_ascii c <=? 122)%N.
Definition is_digit (c : ascii) : bool := (48 <=? N_of_ascii c)%N && (N_of_ascii c <=? 57)%N.
Definition is_dash (c : ascii) : bool := Ascii.eqb c "-".

(** step 1: lowercase.  A capital letter becomes its small letter; so do
    the two characters beyond ASCII whose lower case is an ASCII letter,
    U+0130 (bytes 196 176, lower case i) and U+212A (bytes 226 132 170, lower
    case k).  A character has no other way into [a-z]: the characters left
    beyond ASCII are all replaced in step 2, whatever their case. *)
Definition lower_letter (c : ascii) : ascii :=
  if is_upper c then ascii_of_N (N_of_ascii c + 32) else c.

Fixpoint lowercase (l : list ascii) : list ascii :=
  match l with
  | "196"%char :: "176"%char :: l' => "i"%char :: lowercase l'
  | "226"%char :: "132"%char :: "170"%char :: l' => "k"%char :: lowercase l'
  | c :: l' => lower_letter c :: lowercase l'
  | [] => []
  end.

(** step 2: every character outside [a-z0-9-] becomes a dash *)
Definition replace_invalid (l : list ascii) : list ascii :=
  map (fun c => if is_lower c || is_digit c || is_dash c then c else "-"%char) l.

(** step 3: a dash that follows a dash is dropped *)
Fixpoint collapse_from (after_dash : bool) (l : list ascii) : list ascii :=
  match l with
  | [] => []
  | c :: l' =>
      if is_dash c then
        if after_dash then collapse_from true l' else c :: collapse_from true l'
      else c :: collapse_from false l'
  end.
Definition collapse_dashes (l : list ascii) : list ascii := collapse_from false l.

(** step 4: leading and trailing dashes are dropped *)
Fixpoint drop_dashes (l : list ascii) : list ascii :=
  match l with
  | c :: l' => if is_dash c then drop_dashes l' else l
  | [] => []
  end.
Definition trim_dashes (l : list ascii) : list ascii :=
  rev (drop_dashes (rev (drop_dashes l))).

(** step 5: at most the first 63 characters are kept *)
Definition truncate63 (l : list ascii) : list ascii := take 63 l.

Definition sanitize (s : string) : string :=
  string_of_list_ascii
    (truncate63 (trim_dashes (collapse_dashes (replace_invalid
      (lowercase (list_ascii_of_string s)))))).

(** number of leading bytes of a class *)
Fixpoint leading (c : ascii -> bool) (l : list ascii) : nat :=
  match l with
  | x :: l' => if c x then S (leading c l') else 0
  | [] => 0
  end.

End HostnameSpec.

(** 78 times the letter a, and 63 times. *)
Definition a78 : string := string_of_list_ascii (repeat "a"%char 78).
Definition a63 : string := string_of_list_ascii (repeat "a"%char 63).

(* ================================================================= *)
(** * The daemon

    The kernel, the file system, the control API and the embedded engine are
    outside the daemon.  A call that changes one of them is recorded, in
    order, in the [trace] of the world; what such a call (or a read-only one)
    returns is taken from an environment record that is an argument of the
    operation, so every theorem about an operation holds for every behaviour
    of the outside. *)

Definition error := string.

Inductive result (A : Type) : Type :=
| Ok (a : A)
| Err (e : error).
Arguments Ok {A} a.
Arguments Err {A} e.

Definition is_ok {A} (r : result A) : bool :=
  match r with Ok _ => true | Err _ => false end.

(** [fmt.Errorf("msg: %w", err)] *)
Definition wrap (msg : string) (e : error) : error := msg +:+ ": " +:+ e.

(** [filepath.Join] on clean path elements *)
Definition filepath_Join (elems : list string) : string :=
  match elems with
  | [] => ""
  | e :: es => fold_left (fun acc x => acc +:+ "/" +:+ x) es e
  end.

(** [netip.Addr]: the zero value is the invalid address; a valid address is
    kept as its textual form. *)
Inductive netip_Addr : Type :=
| AddrZero
| Addr4 (text : string)
| Addr6 (text : string).

#[global] Instance netip_Addr_eq_dec : EqDecision netip_Addr.
Proof. solve_decision. Defined.

Definition Is4 (a : netip_Addr) : bool := match a with Addr4 _ => true | _ => false end.
Definition Is6 (a : netip_Addr) : bool := match a with Addr6 _ => true | _ => false end.
Definition IsValid (a : netip_Addr) : bool := match a with AddrZero => false | _ => true end.
Definition Addr_String (a : netip_Addr) : string :=
  match a with AddrZero => "invalid IP" | Addr4 s | Addr6 s => s end.

(** Go's [time.Time] and [time.Duration], in nanoseconds. *)
Definition Time := Z.
Definition Duration := Z.
Definition Millisecond : Duration := 1000000%Z.
Definition Second : Duration := (1000 * Millisecond)%Z.
Definition Minute : Duration := (60 * Second)%Z.

(** A [Duration] is an [int64]: the value a result of Go's arithmetic has
    after wrapping around in two's complement. *)
Definition int64 (z : Z) : Z := ((z + 2 ^ 63) mod 2 ^ 64 - 2 ^ 63)%Z.

(** ** [oauth.go]: requests to the control API *)

Record authKeyCreate := {
  Reusable : bool;
  Ephemeral : bool;
  Preauthorized : bool;
  Tags : list string
}.

(** [authKeyRequest], with the [capabilities.devices.create] object inlined *)
Record authKeyRequest := {
  Create : authKeyCreate;
  ExpirySeconds : Z;
  Description : string
}.

Record tokenResponse := {
  AccessToken : string;
  TokenType : string;
  ExpiresIn : Z
}.

Record authKeyResponse := {
  ID : string;
  Key : string
}.

(** An HTTP response: the status code, the body as read by [io.ReadAll], and
    what [json.Decode] makes of the body. *)
Record Response (A : Type) := {
  StatusCode : Z;
  Body : string;
  Decoded : result A
}.
Arguments StatusCode {A} r.
Arguments Body {A} r.
Arguments Decoded {A} r.

Definition StatusOK : Z := 200%Z.

Definition maxConcurrentAuthKeys : nat := 5.
Definition authKeyMinInterval : Duration := (100 * Millisecond)%Z.

Record OAuthManager := {
  clientID : string;
  clientSecret : string;
  baseURL : string;
  tags : list string;
  accessToken : string;
  tokenExpiry : Time;
  lastAuthKey : Time
}.

(** [NewOAuthManager] *)
Definition NewOAuthManager (clientID clientSecret : string) (tags : list string)
  : OAuthManager :=
  {| clientID := clientID; clientSecret := clientSecret;
     baseURL := "https://api.tailscale.com"; tags := tags;
     accessToken := ""; tokenExpiry := 0%Z; lastAuthKey := 0%Z |}.

(** ** [pods.go]: data *)

Record ManagedServer := {
  Backend : nat;
  Engine : nat;
  Sys : nat;
  NetMon : option nat;
  ContainerID : string;
  PodName : string;
  Namespace : string;
  Hostname : string;
  ClusterIP : string;
  HostVethName : string;
  TailscaleIPv4 : netip_Addr;
  TailscaleIPv6 : netip_Addr;
  CreatedAt : Time
}.

Record PodMetadata := {
  m_ContainerID : string;
  m_PodName : string;
  m_Namespace : string;
  m_Hostname : string;
  m_TailscaleIPv4 : string;
  m_TailscaleIPv6 : string;
  m_CreatedAt : Time;
  m_NetnsPath : string;
  m_HostVethName : string;
  m_ClusterIP : string
}.

(** [ipnstate.Status], the two fields that are read *)
Record Status := {
  BackendState : string;
  TailscaleIPs : list netip_Addr
}.

(** ** Calls that change the outside

    [ns] is the network namespace a netlink call runs in: [None] for the
    host's, [Some path] for the namespace entered with [podNS.Do].  A number
    is the handle of the object the call is made on. *)
Inductive Call : Type :=
| http_token (url clientID clientSecret : string)
| http_keys (url bearer : string) (req : authKeyRequest)
| os_MkdirAll (path : string)
| os_RemoveAll (path : string)
| os_WriteFile (path data : string)
| write_metadata (path : string) (meta : PodMetadata)
| tstun_New (name : string)
| tun_Close (h : nat)
| tun_Start (h : nat)
| netmon_New (h : nat)
| netmon_Close (h : nat)
| wgengine_New (h : nat)
| eng_Close (h : nat)
| netstack_Create (h : nat)
| netstack_Start (h : nat)
| netstack_Close (h : nat)
| store_NewFileStore (path : string)
| ipnlocal_NewLocalBackend (h : nat)
| lb_SetVarRoot (h : nat) (path : string)
| lb_Start (h : nat) (hostname : string) (authKey : option string)
| lb_StartLoginInteractive (h : nat)
| lb_Shutdown (h : nat)
| netlink_LinkAdd_veth (ns : option string) (name peer : string) (mtu : Z)
| netlink_LinkSetNsFd (ns : option string) (name : string)
| netlink_LinkSetUp (ns : option string) (name : string)
| netlink_LinkDel (ns : option string) (name : string)
| netlink_AddrAdd (ns : option string) (link : string) (ip : netip_Addr)
| netlink_AddrDel (ns : option string) (link : string) (ip : netip_Addr)
| netlink_RouteAdd (ns : option string) (link dst : string)
| netlink_RouteReplace (ns : option string) (link dst : string)
| netlink_RouteDel (ns : option string) (link dst : string).

(** ** The world: the pod manager and what it has done *)
Record World := {
  stateDir : string;                       (* pm.stateDir *)
  clusterName : string;                    (* pm.clusterName *)
  oauthMgr : OAuthManager;                 (* pm.oauthMgr *)
  servers : gmap string ManagedServer;     (* pm.servers *)
  live : gmap nat string;   (* backends built and not shut down, each with the
                               container id it was built for *)
  next : nat;               (* the next fresh handle *)
  trace : list Call         (* the calls made so far, oldest first *)
}.

Definition set_oauthMgr (m : OAuthManager) (w : World) : World :=
  {| stateDir := stateDir w; clusterName := clusterName w; oauthMgr := m;
     servers := servers w; live := live w; next := next w; trace := trace w |}.
Definition set_servers (s : gmap string ManagedServer) (w : World) : World :=
  {| stateDir := stateDir w; clusterName := clusterName w; oauthMgr := oauthMgr w;
     servers := s; live := live w; next := next w; trace := trace w |}.
Definition set_live (l : gmap nat string) (w : World) : World :=
  {| stateDir := stateDir w; clusterName := clusterName w; oauthMgr := oauthMgr w;
     servers := servers w; live := l; next := next w; trace := trace w |}.
Definition set_next (n : nat) (w : World) : World :=
  {| stateDir := stateDir w; clusterName := clusterName w; oauthMgr := oauthMgr w;
     servers := servers w; live := live w; next := n; trace := trace w |}.
Definition set_trace (t : list Call) (w : World) : World :=
  {| stateDir := stateDir w; clusterName := clusterName w; oauthMgr := oauthMgr w;
     servers := servers w; live := live w; next := next w; trace := t |}.

(** [NewPodManager] *)
Definition NewPodManager (stateDir clusterName : string) (oauthMgr : OAuthManager)
  : World :=
  {| stateDir := stateDir; clusterName := clusterName; oauthMgr := oauthMgr;
     servers := ∅; live := ∅; next := 0; trace := [] |}.

(** ** A state monad over the world *)
Definition M (A : Type) : Type := World -> A * World.

Definition ret {A} (a : A) : M A := fun w => (a, w).
Definition bind {A B} (m : M A) (k : A -> M B) : M B :=
  fun w => let (a, w') := m w in k a w'.

Notation "'letM' x := m 'in' k" := (bind m (fun x => k))
  (at level 10, x name, m at level 100, k at level 200).
Notation "m ;;; k" := (bind m (fun _ => k))
  (at level 100, k at level 200, right associativity).

(** make a call that changes the outside *)
Definition call (c : Call) : M unit :=
  fun w => (tt, set_trace (trace w ++ [c]) w).

Fixpoint calls (cs : list Call) : M unit :=
  match cs with
  | [] => ret tt
  | c :: cs' => call c ;;; calls cs'
  end.

(** make a call that may fail: [out] is what it returns *)
Definition attempt (c : Call) (out : option error) : M (result unit) :=
  call c ;;; ret (match out with None => Ok tt | Some e => Err e end).

(** a read-only call: [out] is what it returns *)
Definition query {A} (out : result A) : M (result A) := ret out.
Definition check (out : option error) : M (result unit) :=
  ret (match out with None => Ok tt | Some e => Err e end).

(** [lb.Shutdown()]: the backend is no longer live *)
Definition shutdown (h : nat) : M unit :=
  call (lb_Shutdown h) ;;; fun w => (tt, set_live (delete h (live w)) w).

(** [x, err := m; if err != nil { cleanup; return nil, fmt.Errorf(msg+": %w", err) }] *)
Definition try {A B} (m : M (result A)) (cleanup : M unit) (msg : string)
    (k : A -> M (result B)) : M (result B) :=
  letM r := m in
  match r with
  | Ok a => k a
  | Err e => cleanup ;;; ret (Err (wrap msg e))
  end.

(** the same, the error returned as it is *)
Definition try_raw {A B} (m : M (result A)) (k : A -> M (result B)) : M (result B) :=
  letM r := m in
  match r with
  | Ok a => k a
  | Err e => ret (Err e)
  end.

(** [if err := m; err != nil { log.Printf(...) }]: the error is only logged *)
Definition warn_only (m : M (result unit)) : M unit :=
  m ;;; ret tt.

(** ** [oauth.go]: [getAccessToken] and [CreateAuthKey] *)

(** [%d] *)
Definition Z_to_string (x : Z) : string := NilEmpty.string_of_int (Z.to_int x).

(** What the outside returns during one [CreateAuthKey]. *)
Record KeyEnv := {
  k_sem : option error;            (* [ctx.Err()] when the context ends before a slot is free *)
  k_now : Time;                    (* the clock read by [time.Since(m.lastAuthKey)] *)
  k_sleep : option error;          (* [ctx.Err()] when the context ends during the wait *)
  k_stamp : Time;                  (* [time.Now()] stored in [lastAuthKey] *)
  k_tokenNow : Time;               (* [time.Now()] of the cache test *)
  k_tokenNewRequest : option error;
  k_tokenDo : result (Response tokenResponse);
  k_tokenStamp : Time;             (* [time.Now()] when the expiry is computed *)
  k_marshal : option error;
  k_keyNewRequest : option error;
  k_keyDo : result (Response authKeyResponse)
}.

Definition with_token (tok : string) (exp : Time) (m : OAuthManager) : OAuthManager :=
  {| clientID := clientID m; clientSecret := clientSecret m; baseURL := baseURL m;
     tags := tags m; accessToken := tok; tokenExpiry := exp;
     lastAuthKey := lastAuthKey m |}.
Definition with_lastAuthKey (t : Time) (m : OAuthManager) : OAuthManager :=
  {| clientID := clientID m; clientSecret := clientSecret m; baseURL := baseURL m;
     tags := tags m; accessToken := accessToken m; tokenExpiry := tokenExpiry m;
     lastAuthKey := t |}.

Definition get_oauthMgr : M OAuthManager := fun w => (oauthMgr w, w).
Definition update_oauthMgr (f : OAuthManager -> OAuthManager) : M unit :=
  fun w => (tt, set_oauthMgr (f (oauthMgr w)) w).

(** [getAccessToken].  The expiry is [time.Now().Add(d)] for
    [d = time.Duration(tokenResp.ExpiresIn) * time.Second], a product of two
    [int64] that wraps around. *)
Definition getAccessToken (env : KeyEnv) : M (result string) :=
  letM m := get_oauthMgr in
  if negb (String.eqb (accessToken m) "")
     && (k_tokenNow env + 5 * Minute <? tokenExpiry m)%Z
  then ret (Ok (accessToken m))
  else
    try (check (k_tokenNewRequest env)) (ret tt) "creating token request" (fun _ =>
    try (call (http_token (baseURL m +:+ "/api/v2/oauth/token") (clientID m) (clientSecret m))
           ;;; query (k_tokenDo env))
        (ret tt) "requesting token" (fun resp =>
    if negb (StatusCode resp =? StatusOK)%Z then
      ret (Err ("token request failed with status " +:+ Z_to_string (StatusCode resp)
                +:+ ": " +:+ Body resp))
    else
      try (query (Decoded resp)) (ret tt) "decoding token response" (fun tokenResp =>
      update_oauthMgr (with_token (AccessToken tokenResp)
                         (k_tokenStamp env + int64 (ExpiresIn tokenResp * Second))%Z) ;;;
      ret (Ok (AccessToken tokenResp))))).

(** The request [CreateAuthKey] builds. *)
Definition keyRequest (m : OAuthManager) (podName namespace : string) : authKeyRequest :=
  {| Create := {| Reusable := false;
                  Ephemeral := false;
                  Preauthorized := true;
                  Tags := tags m |};
     ExpirySeconds := 300;
     Description := "tailscale-cni " +:+ namespace +:+ " " +:+ podName |}.

(** [CreateAuthKey] *)
Definition CreateAuthKey (env : KeyEnv) (podName namespace : string) : M (result string) :=
  try_raw (check (k_sem env)) (fun _ =>
  letM m := get_oauthMgr in
  let elapsed := (k_now env - lastAuthKey m)%Z in
  try_raw (if (elapsed <? authKeyMinInterval)%Z then check (k_sleep env) else ret (Ok tt))
    (fun _ =>
  update_oauthMgr (with_lastAuthKey (k_stamp env)) ;;;
  try (getAccessToken env) (ret tt) "getting access token" (fun token =>
  letM m := get_oauthMgr in
  let keyReq := keyRequest m podName namespace in
  try (check (k_marshal env)) (ret tt) "marshaling auth key request" (fun _ =>
  try (check (k_keyNewRequest env)) (ret tt) "creating auth key request" (fun _ =>
  try (call (http_keys (baseURL m +:+ "/api/v2/tailnet/-/keys") token keyReq)
         ;;; query (k_keyDo env))
      (ret tt) "requesting auth key" (fun resp =>
  if negb (StatusCode resp =? StatusOK)%Z then
    ret (Err ("auth key request failed with status " +:+ Z_to_string (StatusCode resp)
              +:+ ": " +:+ Body resp))
  else
    try (query (Decoded resp)) (ret tt) "decoding auth key response" (fun keyResp =>
    ret (Ok (Key keyResp))))))))).

(** ** [cmd/daemon/main.go]: flags and start-up *)

Record Flags := {
  f_socket : string;
  f_state_dir : string;
  f_cluster_name : string;
  f_tags : string;
  f_auth_key_ttl : Duration
}.

(** the flags' default values *)
Definition default_flags : Flags :=
  {| f_socket := "/var/run/tailscale-cni/daemon.sock";
     f_state_dir := "/var/lib/tailscale-cni";
     f_cluster_name := "";
     f_tags := "";
     f_auth_key_ttl := (5 * Minute)%Z |}.

(** the environment variables that are read *)
Record Environ := {
  TS_OAUTH_CLIENT_ID : string;
  TS_OAUTH_CLIENT_SECRET : string;
  CLUSTER_NAME : string;
  TS_TAGS : string
}.

(** [strings.Split(s, ",")] *)
Fixpoint split_on (sep : ascii) (cur : list ascii) (l : list ascii) : list string :=
  match l with
  | [] => [string_of_list_ascii (rev cur)]
  | c :: l' =>
      if Ascii.eqb c sep then string_of_list_ascii (rev cur) :: split_on sep [] l'
      else split_on sep (c :: cur) l'
  end.
Definition Split_comma (s : string) : list string :=
  split_on "," [] (list_ascii_of_string s).

(** [strings.TrimSpace], on ASCII white space *)
Definition is_space (c : ascii) : bool :=
  existsb (Ascii.eqb c) [" "; "009"; "010"; "011"; "012"; "013"]%char.
Definition TrimSpace (s : string) : string :=
  string_of_list_ascii
    (gostrings.trim_right is_space (gostrings.trim_left is_space (list_ascii_of_string s))).

(** the tag list [main] builds *)
Definition main_tags (f : Flags) (e : Environ) : list string :=
  let tagsStr := if String.eqb (f_tags f) "" then TS_TAGS e else f_tags f in
  let tags :=
    if String.eqb tagsStr "" then []
    else filter (fun t => negb (String.eqb t "")) (map TrimSpace (Split_comma tagsStr)) in
  match tags with
  | [] => ["tag:k8s-pod"]
  | _ => tags
  end.

Definition main_cluster (f : Flags) (e : Environ) : string :=
  let cluster := f_cluster_name f in
  let cluster := if String.eqb cluster "" then CLUSTER_NAME e else cluster in
  if String.eqb cluster "" then "k8s" else cluster.

(** [main] up to [NewPodManager]; [Err] stands for [log.Fatal].  [main] also
    hands [*authKeyTTL] to [NewOAuthManager]; the constructor of [oauth.go]
    has no parameter for it and [OAuthManager] no field, so the value goes
    nowhere. *)
Definition main_podMgr (f : Flags) (e : Environ) : result World :=
  let clientID := TS_OAUTH_CLIENT_ID e in
  let clientSecret := TS_OAUTH_CLIENT_SECRET e in
  if String.eqb clientID "" || String.eqb clientSecret "" then
    Err "TS_OAUTH_CLIENT_ID and TS_OAUTH_CLIENT_SECRET environment variables are required"
  else
    let oauthMgr := NewOAuthManager clientID clientSecret (main_tags f e) in
    Ok (NewPodManager (f_state_dir f) (main_cluster f e) oauthMgr).

(** ** [pods.go]: the veth bridge *)

(** [hex.EncodeToString] *)
Definition hex_digit (n : N) : ascii :=
  if (n <? 10)%N then ascii_of_N (48 + n) else ascii_of_N (87 + n).
Definition hex_EncodeToString (bytes : list ascii) : string :=
  string_of_list_ascii
    (flat_map (fun b => [hex_digit (N_of_ascii b / 16); hex_digit (N_of_ascii b mod 16)])
       bytes).

(** the CGNAT range of the overlay *)
Definition tailscaleCIDR : string := "100.64.0.0/10".
(** [Dst] of a route to one address: the address with a 32-bit mask *)
Definition host_route (ip : netip_Addr) : string := Addr_String ip +:+ "/32".

(** What the outside returns during one [setupVethBridge], a field per call
    in the order of the calls. *)
Record BridgeEnv := {
  b_GetNS : option error;            (* ns.GetNS(netnsPath) *)
  b_rand : result (list ascii);      (* rand.Read: the four random bytes *)
  b_nsDo : option error;             (* podNS.Do fails to enter the namespace *)
  b_LinkAdd : option error;          (* netlink.LinkAdd(veth) *)
  b_podLinkByName : option error;    (* netlink.LinkByName(podIfName) *)
  b_peerLinkByName : option error;   (* netlink.LinkByName(hostVethName), in the namespace *)
  b_LinkSetNsFd : option error;      (* netlink.LinkSetNsFd(hostLink, hostNS) *)
  b_AddrAdd : option error;          (* netlink.AddrAdd(podLink, addr) *)
  b_podLinkSetUp : option error;     (* netlink.LinkSetUp(podLink) *)
  b_nsRouteAdd : option error;       (* netlink.RouteAdd(route), in the namespace *)
  b_hostLinkByName : option error;   (* netlink.LinkByName(hostVethName), on the host *)
  b_hostLinkSetUp : option error;    (* netlink.LinkSetUp(hostLink) *)
  b_podRouteAdd : option error;      (* netlink.RouteAdd(podRoute) *)
  b_proxyArp : option error;         (* os.WriteFile(proxyArpPath) *)
  b_ipForward : option error;        (* os.WriteFile(ip_forward) *)
  b_tunLinkByName : option error;    (* netlink.LinkByName(tunName) *)
  b_tunRouteAdd : option error       (* netlink.RouteAdd(tunRoute) *)
}.

(** [setupVethBridge] *)
Definition setupVethBridge (env : BridgeEnv) (netnsPath podIfName tunName : string)
    (tailscaleIP : netip_Addr) (mtu : Z) : M (result string) :=
  try (check (b_GetNS env)) (ret tt) "getting netns" (fun _ =>
  try (query (b_rand env)) (ret tt) "generating random veth name" (fun randBytes =>
  let hostVethName := "veth" +:+ hex_EncodeToString randBytes in
  let ns := Some netnsPath in
  try_raw
    (try_raw (check (b_nsDo env)) (fun _ =>
     try (attempt (netlink_LinkAdd_veth ns podIfName hostVethName mtu) (b_LinkAdd env))
         (ret tt) "creating veth pair" (fun _ =>
     try (check (b_podLinkByName env)) (ret tt) "getting pod interface" (fun _ =>
     try (check (b_peerLinkByName env)) (ret tt) "getting host interface" (fun _ =>
     try (attempt (netlink_LinkSetNsFd ns hostVethName) (b_LinkSetNsFd env))
         (ret tt) "moving host veth" (fun _ =>
     try (attempt (netlink_AddrAdd ns podIfName tailscaleIP) (b_AddrAdd env))
         (ret tt) "adding IP to pod interface" (fun _ =>
     try (attempt (netlink_LinkSetUp ns podIfName) (b_podLinkSetUp env))
         (ret tt) "bringing up pod interface" (fun _ =>
     try (attempt (netlink_RouteAdd ns podIfName tailscaleCIDR) (b_nsRouteAdd env))
         (ret tt) "adding Tailscale route" (fun _ =>
     ret (Ok tt))))))))))
    (fun _ =>
  try (check (b_hostLinkByName env)) (ret tt) "getting host veth" (fun _ =>
  try (attempt (netlink_LinkSetUp None hostVethName) (b_hostLinkSetUp env))
      (ret tt) "bringing up host veth" (fun _ =>
  warn_only (attempt (netlink_RouteAdd None hostVethName (host_route tailscaleIP))
               (b_podRouteAdd env)) ;;;
  warn_only (attempt (os_WriteFile ("/proc/sys/net/ipv4/conf/" +:+ hostVethName +:+ "/proxy_arp")
                        "1") (b_proxyArp env)) ;;;
  warn_only (attempt (os_WriteFile "/proc/sys/net/ipv4/ip_forward" "1") (b_ipForward env)) ;;;
  try (check (b_tunLinkByName env)) (ret tt) "getting TUN link for routing" (fun _ =>
  warn_only (attempt (netlink_RouteAdd None tunName tailscaleCIDR) (b_tunRouteAdd env)) ;;;
  ret (Ok hostVethName))))))).

(** ** [pods.go]: [AddPod] *)

(** What the outside returns during one [AddPod]. *)
Record AddEnv := {
  a_key : KeyEnv;                    (* pm.oauthMgr.CreateAuthKey *)
  a_MkdirAll : option error;         (* os.MkdirAll(podStateDir) *)
  a_tstunNew : result string;        (* tstun.New: the name the kernel gave the device *)
  a_tunLinkByName : option error;    (* netlink.LinkByName(actualTunName) *)
  a_tunLinkSetUp : option error;     (* netlink.LinkSetUp(tunLink) *)
  a_netmonNew : option error;        (* netmon.New *)
  a_engineNew : option error;        (* wgengine.NewUserspaceEngine *)
  a_netstackCreate : option error;   (* netstack.Create *)
  a_NewFileStore : option error;     (* store.NewFileStore *)
  a_NewPrivateID : option error;     (* logid.NewPrivateID *)
  a_NewLocalBackend : option error;  (* ipnlocal.NewLocalBackend *)
  a_netstackStart : option error;    (* nsImpl.Start(lb) *)
  a_lbStart : option error;          (* lb.Start *)
  a_needsLogin : bool;               (* lb.State() == ipn.NeedsLogin *)
  a_login : option error;            (* lb.StartLoginInteractive *)
  a_status : Status;                 (* lb.Status() of the first iteration *)
  a_later : list Status;             (* lb.Status() of the iterations that follow, one
                                        every 500 ms until the context is done *)
  a_bridge : BridgeEnv;              (* setupVethBridge *)
  a_now : Time;                      (* time.Now() *)
  a_marshal : option error;          (* json.MarshalIndent in saveMetadata *)
  a_writeMetadata : option error     (* os.WriteFile in saveMetadata *)
}.

(** One pass of the [for _, ip := range status.TailscaleIPs] of [AddPod]. *)
Fixpoint pick_ips (ips : list netip_Addr) (v4 v6 : netip_Addr) : netip_Addr * netip_Addr :=
  match ips with
  | [] => (v4, v6)
  | ip :: ips' =>
      if Is4 ip && negb (IsValid v4) then pick_ips ips' ip v6
      else if Is6 ip && negb (IsValid v6) then pick_ips ips' v4 ip
      else pick_ips ips' v4 v6
  end.

Definition running_with_ips (st : Status) : bool :=
  String.eqb (BackendState st) "Running" && (0 <? length (TailscaleIPs st))%nat.

(** The wait loop of [AddPod]: [st] is the status of this iteration, [later]
    those of the next ones; when [later] is used up the context is done.  The
    error is the backend state of the last status. *)
Fixpoint wait_for_ip (st : Status) (later : list Status) (v4 v6 : netip_Addr)
  : result (netip_Addr * netip_Addr) :=
  let '(v4', v6') :=
    if running_with_ips st then pick_ips (TailscaleIPs st) v4 v6 else (v4, v6) in
  if running_with_ips st && IsValid v4' then Ok (v4', v6')
  else
    match later with
    | [] => Err (BackendState st)
    | st' :: later' => wait_for_ip st' later' v4' v6'
    end.

Definition podStateDir_of (w : World) (containerID : string) : string :=
  filepath_Join [stateDir w; "pods"; containerID].

(** [saveMetadata] *)
Definition saveMetadata (marshal write : option error) (containerID : string)
    (managed : ManagedServer) (netnsPath : string) : M (result unit) :=
  let meta :=
    {| m_ContainerID := ContainerID managed;
       m_PodName := PodName managed;
       m_Namespace := Namespace managed;
       m_Hostname := Hostname managed;
       m_TailscaleIPv4 := Addr_String (TailscaleIPv4 managed);
       m_TailscaleIPv6 :=
         if IsValid (TailscaleIPv6 managed) then Addr_String (TailscaleIPv6 managed) else "";
       m_CreatedAt := CreatedAt managed;
       m_NetnsPath := netnsPath;
       m_HostVethName := HostVethName managed;
       m_ClusterIP := ClusterIP managed |} in
  try_raw (check marshal) (fun _ =>
  fun w =>
    let metaPath := filepath_Join [stateDir w; "pods"; containerID; "metadata.json"] in
    attempt (write_metadata metaPath meta) write w).

(** a fresh handle for the objects one call builds *)
Definition fresh : M nat := fun w => (next w, set_next (S (next w)) w).

(** [pm.servers[containerID] = managed] *)
Definition register (containerID : string) (managed : ManagedServer) : M unit :=
  fun w => (tt, set_servers (<[containerID := managed]> (servers w)) w).

(** the backend [h] built for [containerID] is live *)
Definition started (h : nat) (containerID : string) : M unit :=
  fun w => (tt, set_live (<[h := containerID]> (live w)) w).

(** The clean-up of [AddPod] once the backend exists. *)
Definition unwind_backend (h : nat) (podStateDir : string) : M unit :=
  shutdown h ;;;
  calls [netstack_Close h; eng_Close h; netmon_Close h; os_RemoveAll podStateDir].

(** [AddPod] *)
Definition AddPod (env : AddEnv)
    (containerID netnsPath ifName podName namespace clusterIP : string)
  : M (result ManagedServer) :=
  fun w0 =>
  match servers w0 !! containerID with
  | Some srv => (Ok srv, w0)
  | None =>
   (let cleanPodName := stripKubernetesSuffixes podName in
    let hostname :=
      sanitizeHostname (clusterName w0 +:+ "-" +:+ namespace +:+ "-" +:+ cleanPodName) in
    try (CreateAuthKey (a_key env) podName namespace) (ret tt) "creating auth key"
      (fun authKey =>
    let podStateDir := podStateDir_of w0 containerID in
    try (attempt (os_MkdirAll podStateDir) (a_MkdirAll env)) (ret tt)
      "creating state directory" (fun _ =>
    let tunName := tunNameForContainer containerID in
    letM h := fresh in
    try (call (tstun_New tunName) ;;; query (a_tstunNew env))
      (call (os_RemoveAll podStateDir)) "creating TUN device" (fun actualTunName =>
    try (check (a_tunLinkByName env))
      (calls [tun_Close h; os_RemoveAll podStateDir]) "getting TUN link" (fun _ =>
    try (attempt (netlink_LinkSetUp None actualTunName) (a_tunLinkSetUp env))
      (calls [tun_Close h; os_RemoveAll podStateDir]) "bringing up TUN" (fun _ =>
    try (attempt (netmon_New h) (a_netmonNew env))
      (calls [tun_Close h; os_RemoveAll podStateDir]) "creating network monitor" (fun _ =>
    try (attempt (wgengine_New h) (a_engineNew env))
      (calls [netmon_Close h; tun_Close h; os_RemoveAll podStateDir])
      "creating wgengine" (fun _ =>
    try (attempt (netstack_Create h) (a_netstackCreate env))
      (calls [eng_Close h; netmon_Close h; tun_Close h; os_RemoveAll podStateDir])
      "creating netstack" (fun _ =>
    call (tun_Start h) ;;;
    let stateStorePath := filepath_Join [podStateDir; "tailscale.state"] in
    try (attempt (store_NewFileStore stateStorePath) (a_NewFileStore env))
      (calls [netstack_Close h; eng_Close h; netmon_Close h; os_RemoveAll podStateDir])
      "creating state store" (fun _ =>
    try (check (a_NewPrivateID env))
      (calls [netstack_Close h; eng_Close h; netmon_Close h; os_RemoveAll podStateDir])
      "creating log ID" (fun _ =>
    try (attempt (ipnlocal_NewLocalBackend h) (a_NewLocalBackend env))
      (calls [netstack_Close h; eng_Close h; netmon_Close h; os_RemoveAll podStateDir])
      "creating LocalBackend" (fun _ =>
    started h containerID ;;;
    call (lb_SetVarRoot h podStateDir) ;;;
    try (attempt (netstack_Start h) (a_netstackStart env))
      (unwind_backend h podStateDir) "starting netstack" (fun _ =>
    try (attempt (lb_Start h hostname (Some authKey)) (a_lbStart env))
      (unwind_backend h podStateDir) "starting LocalBackend" (fun _ =>
    try (if a_needsLogin env
         then attempt (lb_StartLoginInteractive h) (a_login env)
         else ret (Ok tt))
      (unwind_backend h podStateDir) "starting login" (fun _ =>
    match wait_for_ip (a_status env) (a_later env) AddrZero AddrZero with
    | Err state =>
        unwind_backend h podStateDir ;;;
        ret (Err ("timeout waiting for Tailscale IP (state: " +:+ state +:+ ")"))
    | Ok (tailscaleIPv4, tailscaleIPv6) =>
    try (setupVethBridge (a_bridge env) netnsPath ifName actualTunName tailscaleIPv4
           defaultVethMTU)
      (unwind_backend h podStateDir) "setting up veth bridge" (fun hostVethName =>
    let managed :=
      {| Backend := h; Engine := h; Sys := h; NetMon := Some h;
         ContainerID := containerID;
         PodName := podName;
         Namespace := namespace;
         Hostname := hostname;
         ClusterIP := clusterIP;
         HostVethName := hostVethName;
         TailscaleIPv4 := tailscaleIPv4;
         TailscaleIPv6 := tailscaleIPv6;
         CreatedAt := a_now env |} in
    register containerID managed ;;;
    warn_only (saveMetadata (a_marshal env) (a_writeMetadata env) containerID managed
                 netnsPath) ;;;
    ret (Ok managed))
    end))))))))))))))) w0
  end.

(** ** [pods.go]: [DeletePod], [CheckPod], [GetPod] *)

(** What the host's link table answers: whether a name is found, whether a
    deletion succeeds, and the list of all links. *)
Record NetEnv := {
  n_LinkByName : string -> option error;   (* netlink.LinkByName(name) *)
  n_LinkDel : string -> option error;      (* netlink.LinkDel(link) *)
  n_LinkList : result (list string)        (* netlink.LinkList(): the links' names *)
}.

(** [delete(pm.servers, containerID)] *)
Definition unregister (containerID : string) : M unit :=
  fun w => (tt, set_servers (delete containerID (servers w)) w).

(** [DeletePod]; [None] is the nil error. *)
Definition DeletePod (env : NetEnv) (containerID : string) : M (option error) :=
  fun w0 =>
  match servers w0 !! containerID with
  | None => (None, w0)
  | Some managed =>
     (shutdown (Backend managed) ;;;
      call (eng_Close (Engine managed)) ;;;
      match NetMon managed with
      | Some nm => call (netmon_Close nm)
      | None => ret tt
      end ;;;
      (if negb (String.eqb (HostVethName managed) "") then
         match n_LinkByName env (HostVethName managed) with
         | None => warn_only (attempt (netlink_LinkDel None (HostVethName managed))
                                (n_LinkDel env (HostVethName managed)))
         | Some _ => ret tt
         end
       else ret tt) ;;;
      call (os_RemoveAll (podStateDir_of w0 containerID)) ;;;
      unregister containerID ;;;
      ret None) w0
  end.

(** [CheckPod]; [status h] is what [Backend.Status()] returns for backend [h]. *)
Definition CheckPod (status : nat -> Status) (containerID : string)
  : M (bool * string * option error) :=
  fun w =>
  match servers w !! containerID with
  | None => ((false, "pod not found", None), w)
  | Some managed =>
      let st := status (Backend managed) in
      if negb (String.eqb (BackendState st) "Running")
      then ((false, "backend state is " +:+ BackendState st, None), w)
      else ((true, "healthy", None), w)
  end.

(** [GetPod] *)
Definition GetPod (containerID : string) : M (option ManagedServer) :=
  fun w => (servers w !! containerID, w).

(** ** [pods.go]: orphan clean-up *)

(** [if link, err := netlink.LinkByName(name); err == nil { netlink.LinkDel(link) }],
    a failing deletion only logged *)
Definition delete_link_if_present (env : NetEnv) (name : string) : M unit :=
  match n_LinkByName env name with
  | None => warn_only (attempt (netlink_LinkDel None name) (n_LinkDel env name))
  | Some _ => ret tt
  end.

(** [cleanupOrphanedPod]; [removeAll] is what [os.RemoveAll] returns. *)
Definition cleanupOrphanedPod (env : NetEnv) (removeAll : option error)
    (containerID hostVethName : string) : M unit :=
  fun w0 =>
   (let tunName := tunNameForContainer containerID in
    delete_link_if_present env tunName ;;;
    (if negb (String.eqb hostVethName "")
     then delete_link_if_present env hostVethName
     else ret tt) ;;;
    warn_only (attempt (os_RemoveAll (podStateDir_of w0 containerID)) removeAll)) w0.

(** [knownTUNs] of [CleanupOrphanedResources] *)
Definition knownTUNs (w : World) : gset string :=
  set_map tunNameForContainer (dom (servers w)).

(** the body of the [for _, link := range links] of [CleanupOrphanedResources] *)
Fixpoint sweep_links (env : NetEnv) (known : gset string) (links : list string) : M unit :=
  match links with
  | [] => ret tt
  | name :: links' =>
      (if gostrings.HasPrefix name "ts-" && negb (bool_decide (name ∈ known))
       then warn_only (attempt (netlink_LinkDel None name) (n_LinkDel env name))
       else ret tt) ;;;
      sweep_links env known links'
  end.

(** [CleanupOrphanedResources] *)
Definition CleanupOrphanedResources (env : NetEnv) : M unit :=
  fun w0 =>
  let known := knownTUNs w0 in
  match n_LinkList env with
  | Err _ => (tt, w0)
  | Ok links => sweep_links env known links w0
  end.

(** ** [pods.go]: recovery *)

(** What the outside returns during [updatePodIP]. *)
Record PodIPEnv := {
  u_GetNS : option error;
  u_nsDo : option error;
  u_LinkByName : option error;      (* netlink.LinkByName("ts0") in the namespace *)
  u_AddrDel : option error;
  u_AddrAdd : option error
}.

(** What the outside returns during [updateHostRoute] and [ensureRoutes]. *)
Record RouteEnv := {
  t_vethLinkByName : option error;
  t_RouteDel : option error;
  t_RouteAdd : option error;
  t_podRouteReplace : option error;
  t_tunLinkByName : option error;
  t_tunRouteReplace : option error
}.

(** [netnsExists]; [stat path] tells whether [os.Stat(path)] succeeds. *)
Definition netnsExists (stat : string -> bool) (netnsPath : string) : bool :=
  if String.eqb netnsPath "" then false else stat netnsPath.

(** [getOrCreateTUN] *)
Definition getOrCreateTUN (net : NetEnv) (tstunNew : result string)
    (linkByName linkSetUp : option error) (h : nat) (tunName : string)
  : M (result string) :=
  try (match n_LinkByName net tunName with
       | None => attempt (netlink_LinkDel None tunName) (n_LinkDel net tunName)
       | Some _ => ret (Ok tt)
       end) (ret tt) "deleting existing TUN" (fun _ =>
  try (call (tstun_New tunName) ;;; query tstunNew) (ret tt) "creating TUN device"
    (fun actualTunName =>
  try (check linkByName) (call (tun_Close h)) "getting TUN link" (fun _ =>
  try (attempt (netlink_LinkSetUp None actualTunName) linkSetUp)
    (call (tun_Close h)) "bringing up TUN" (fun _ =>
  ret (Ok actualTunName))))).

(** [ensureRoutes] *)
Definition ensureRoutes (env : RouteEnv) (tunName vethName : string)
    (tailscaleIP : netip_Addr) : M (result unit) :=
  try (check (t_vethLinkByName env)) (ret tt) "getting veth" (fun _ =>
  warn_only (attempt (netlink_RouteReplace None vethName (host_route tailscaleIP))
               (t_podRouteReplace env)) ;;;
  try (check (t_tunLinkByName env)) (ret tt) "getting TUN" (fun _ =>
  warn_only (attempt (netlink_RouteReplace None tunName tailscaleCIDR)
               (t_tunRouteReplace env)) ;;;
  ret (Ok tt))).

(** [updatePodIP] *)
Definition updatePodIP (env : PodIPEnv) (netnsPath : string) (oldIP newIP : netip_Addr)
  : M (result unit) :=
  if bool_decide (oldIP = newIP) then ret (Ok tt)
  else
    let ns := Some netnsPath in
    try (check (u_GetNS env)) (ret tt) "getting netns" (fun _ =>
    try_raw (check (u_nsDo env)) (fun _ =>
    try (check (u_LinkByName env)) (ret tt) "getting ts0 interface" (fun _ =>
    warn_only (attempt (netlink_AddrDel ns "ts0" oldIP) (u_AddrDel env)) ;;;
    try (attempt (netlink_AddrAdd ns "ts0" newIP) (u_AddrAdd env)) (ret tt)
      ("adding new IP " +:+ Addr_String newIP +:+ " to ts0") (fun _ =>
    ret (Ok tt))))).

(** [updateHostRoute] *)
Definition updateHostRoute (env : RouteEnv) (vethName : string) (oldIP newIP : netip_Addr)
  : M (result unit) :=
  if bool_decide (oldIP = newIP) then ret (Ok tt)
  else
    try (check (t_vethLinkByName env)) (ret tt) ("getting veth " +:+ vethName) (fun _ =>
    warn_only (attempt (netlink_RouteDel None vethName (host_route oldIP)) (t_RouteDel env)) ;;;
    try (attempt (netlink_RouteAdd None vethName (host_route newIP)) (t_RouteAdd env))
      (ret tt) ("adding route to " +:+ Addr_String newIP) (fun _ =>
    ret (Ok tt))).

(** [reconnectVethBridge] *)
Definition reconnectVethBridge (net : NetEnv) (routes : RouteEnv) (bridge : BridgeEnv)
    (netnsPath tunName existingVethName : string) (tailscaleIP : netip_Addr)
  : M (result string) :=
  if negb (String.eqb existingVethName "") && bool_decide (n_LinkByName net existingVethName = None)
  then
    warn_only (ensureRoutes routes tunName existingVethName tailscaleIP) ;;;
    ret (Ok existingVethName)
  else setupVethBridge bridge netnsPath "ts0" tunName tailscaleIP defaultVethMTU.

(** What the outside returns during one [recoverPodBackend]. *)
Record BackendEnv := {
  rb_tstunNew : result string;
  rb_tunLinkByName : option error;
  rb_tunLinkSetUp : option error;
  rb_netmonNew : option error;
  rb_engineNew : option error;
  rb_netstackCreate : option error;
  rb_NewFileStore : option error;
  rb_NewPrivateID : option error;
  rb_NewLocalBackend : option error;
  rb_netstackStart : option error;
  rb_lbStart : option error;
  rb_needsLogin : bool;
  rb_login : option error;
  rb_status : Status;
  rb_later : list Status;
  rb_podIP : PodIPEnv;
  rb_hostRoute : RouteEnv;
  rb_routes : RouteEnv;
  rb_bridge : BridgeEnv;
  rb_finalStatus : Status
}.

(** the first IPv4 address of a status, the zero address when it has none *)
Fixpoint first_v4 (ips : list netip_Addr) : netip_Addr :=
  match ips with
  | [] => AddrZero
  | ip :: ips' => if Is4 ip then ip else first_v4 ips'
  end.
Fixpoint first_v6 (ips : list netip_Addr) : netip_Addr :=
  match ips with
  | [] => AddrZero
  | ip :: ips' => if Is6 ip then ip else first_v6 ips'
  end.

(** The wait loop of [recoverPodBackend]; [None] when the context is done. *)
Fixpoint wait_for_connection (st : Status) (later : list Status) : option netip_Addr :=
  let actualIP := if running_with_ips st then first_v4 (TailscaleIPs st) else AddrZero in
  if IsValid actualIP then Some actualIP
  else
    match later with
    | [] => None
    | st' :: later' => wait_for_connection st' later'
    end.

(** The clean-up of [recoverPodBackend] once the backend exists. *)
Definition unwind_recovered (h : nat) : M unit :=
  shutdown h ;;; calls [netstack_Close h; eng_Close h; netmon_Close h; tun_Close h].

(** [recoverPodBackend] *)
Definition recoverPodBackend (net : NetEnv) (env : BackendEnv) (containerID : string)
    (meta : PodMetadata) (expectedIP : netip_Addr) : M (result ManagedServer) :=
  fun w0 =>
   (let podStateDir := podStateDir_of w0 containerID in
    let tunName := tunNameForContainer containerID in
    letM h := fresh in
    try (getOrCreateTUN net (rb_tstunNew env) (rb_tunLinkByName env) (rb_tunLinkSetUp env)
           h tunName)
      (ret tt) "getting TUN" (fun actualTunName =>
    try (attempt (netmon_New h) (rb_netmonNew env))
      (call (tun_Close h)) "creating network monitor" (fun _ =>
    try (attempt (wgengine_New h) (rb_engineNew env))
      (calls [netmon_Close h; tun_Close h]) "creating wgengine" (fun _ =>
    try (attempt (netstack_Create h) (rb_netstackCreate env))
      (calls [eng_Close h; netmon_Close h; tun_Close h]) "creating netstack" (fun _ =>
    call (tun_Start h) ;;;
    let stateStorePath := filepath_Join [podStateDir; "tailscale.state"] in
    try (attempt (store_NewFileStore stateStorePath) (rb_NewFileStore env))
      (calls [netstack_Close h; eng_Close h; netmon_Close h; tun_Close h])
      "loading state store" (fun _ =>
    try (check (rb_NewPrivateID env))
      (calls [netstack_Close h; eng_Close h; netmon_Close h; tun_Close h])
      "creating log ID" (fun _ =>
    try (attempt (ipnlocal_NewLocalBackend h) (rb_NewLocalBackend env))
      (calls [netstack_Close h; eng_Close h; netmon_Close h; tun_Close h])
      "creating LocalBackend" (fun _ =>
    started h containerID ;;;
    call (lb_SetVarRoot h podStateDir) ;;;
    try (attempt (netstack_Start h) (rb_netstackStart env))
      (unwind_recovered h) "starting netstack" (fun _ =>
    try (attempt (lb_Start h (m_Hostname meta) None) (rb_lbStart env))
      (unwind_recovered h) "starting LocalBackend" (fun _ =>
    try (if rb_needsLogin env
         then attempt (lb_StartLoginInteractive h) (rb_login env)
         else ret (Ok tt))
      (unwind_recovered h) "reconnecting with persisted identity" (fun _ =>
    match wait_for_connection (rb_status env) (rb_later env) with
    | None =>
        unwind_recovered h ;;;
        ret (Err "timeout waiting for Tailscale connection")
    | Some actualIP =>
    (if bool_decide (actualIP = expectedIP) then ret tt
     else
       warn_only (updatePodIP (rb_podIP env) (m_NetnsPath meta) expectedIP actualIP) ;;;
       (if negb (String.eqb (m_HostVethName meta) "")
        then warn_only (updateHostRoute (rb_hostRoute env) (m_HostVethName meta)
                          expectedIP actualIP)
        else ret tt)) ;;;
    try (reconnectVethBridge net (rb_routes env) (rb_bridge env) (m_NetnsPath meta)
           actualTunName (m_HostVethName meta) actualIP)
      (unwind_recovered h) "reconnecting veth bridge" (fun hostVethName =>
    let tailscaleIPv6 := first_v6 (TailscaleIPs (rb_finalStatus env)) in
    ret (Ok {| Backend := h; Engine := h; Sys := h; NetMon := Some h;
               ContainerID := containerID;
               PodName := m_PodName meta;
               Namespace := m_Namespace meta;
               Hostname := m_Hostname meta;
               ClusterIP := m_ClusterIP meta;
               HostVethName := hostVethName;
               TailscaleIPv4 := actualIP;
               TailscaleIPv6 := tailscaleIPv6;
               CreatedAt := m_CreatedAt meta |}))
    end))))))))))) w0.

(** What the outside returns during the recovery pass. *)
Record RecoverEnv := {
  r_net : NetEnv;
  r_ReadFile : string -> result string;          (* os.ReadFile(metaPath) *)
  r_Unmarshal : string -> result PodMetadata;    (* json.Unmarshal(data, &meta) *)
  r_Stat : string -> bool;                       (* os.Stat(path) succeeds *)
  r_stateMissing : string -> bool;               (* os.IsNotExist of os.Stat(stateStorePath) *)
  r_ParseAddr : string -> result netip_Addr;     (* netip.ParseAddr *)
  r_backend : string -> BackendEnv;              (* recoverPodBackend, by container id *)
  r_RemoveAll : string -> option error;          (* os.RemoveAll of the state directory *)
  r_marshal : string -> option error;            (* saveMetadata, by container id *)
  r_writeMetadata : string -> option error
}.

(** [loadMetadata] *)
Definition loadMetadata (env : RecoverEnv) (containerID : string) : M (result PodMetadata) :=
  fun w =>
   (let metaPath := filepath_Join [stateDir w; "pods"; containerID; "metadata.json"] in
    try (query (r_ReadFile env metaPath)) (ret tt) "reading metadata" (fun data =>
    try (query (r_Unmarshal env data)) (ret tt) "parsing metadata" (fun meta =>
    ret (Ok meta)))) w.

(** [recoverPod]; [None] is the nil error. *)
Definition recoverPod (env : RecoverEnv) (containerID : string) : M (option error) :=
  fun w0 =>
   (letM r := loadMetadata env containerID in
    match r with
    | Err e => ret (Some (wrap "loading metadata" e))
    | Ok meta =>
      if negb (netnsExists (r_Stat env) (m_NetnsPath meta)) then
        cleanupOrphanedPod (r_net env) (r_RemoveAll env containerID) containerID
          (m_HostVethName meta) ;;;
        ret None
      else
        let stateStorePath :=
          filepath_Join [stateDir w0; "pods"; containerID; "tailscale.state"] in
        if r_stateMissing env stateStorePath then
          cleanupOrphanedPod (r_net env) (r_RemoveAll env containerID) containerID
            (m_HostVethName meta) ;;;
          ret None
        else
          match r_ParseAddr env (m_TailscaleIPv4 meta) with
          | Err e => ret (Some (wrap "parsing stored Tailscale IP" e))
          | Ok tailscaleIPv4 =>
            letM rb := recoverPodBackend (r_net env) (r_backend env containerID)
                         containerID meta tailscaleIPv4 in
            match rb with
            | Err e => ret (Some (wrap "recovering backend" e))
            | Ok managed =>
              register containerID managed ;;;
              (if bool_decide (TailscaleIPv4 managed = tailscaleIPv4) then ret tt
               else warn_only (saveMetadata (r_marshal env containerID)
                                 (r_writeMetadata env containerID) containerID managed
                                 (m_NetnsPath meta))) ;;;
              ret None
            end
          end
    end) w0.

(** [os.DirEntry]: the name and whether it is a directory *)
Record DirEntry := {
  Name : string;
  IsDir : bool
}.

(** [os.ReadDir(podsDir)] *)
Inductive ReadDirResult : Type :=
| DirEntries (entries : list DirEntry)
| DirNotExist
| DirError (e : error).

(** The body of the [for _, entry := range entries] of [RecoverPods], with
    the counter and the error list it extends. *)
Fixpoint recover_entries (env : RecoverEnv) (entries : list DirEntry)
    (recovered : nat) (errors : list error) : M (nat * list error) :=
  match entries with
  | [] => ret (recovered, errors)
  | entry :: entries' =>
      if negb (IsDir entry) then recover_entries env entries' recovered errors
      else
        let containerID := Name entry in
        letM err := recoverPod env containerID in
        match err with
        | Some e =>
            letM meta := loadMetadata env containerID in
            let vethName :=
              match meta with Ok m => m_HostVethName m | Err _ => "" end in
            cleanupOrphanedPod (r_net env) (r_RemoveAll env containerID) containerID
              vethName ;;;
            recover_entries env entries' recovered
              (errors ++ [wrap ("pod " +:+ containerID) e])
        | None => recover_entries env entries' (S recovered) errors
        end
  end.

(** [RecoverPods] *)
Definition RecoverPods (env : RecoverEnv) (readDir : ReadDirResult)
  : M (nat * list error) :=
  match readDir with
  | DirNotExist => ret (0, [])
  | DirError e => ret (0, [wrap "reading pods directory" e])
  | DirEntries entries => recover_entries env entries 0 []
  end.

(** [Close] *)
Definition Close : M (option error) :=
  fun w =>
  let managed_servers := map snd (map_to_list (servers w)) in
  let cs :=
    flat_map (fun managed : ManagedServer =>
                [lb_Shutdown (Backend managed); eng_Close (Engine managed)] ++
                match NetMon managed with Some nm => [netmon_Close nm] | None => [] end)
      managed_servers in
  let live' := foldr (fun managed l => delete (Backend managed) l) (live w) managed_servers in
  (None, set_servers ∅ (set_live live' (set_trace (trace w ++ cs) w))).

(** ** Sequences of requests *)

(** A request to the daemon, with what the outside returns while it is served. *)
Inductive Op : Type :=
| OpAdd (env : AddEnv) (containerID netnsPath ifName podName namespace clusterIP : string)
| OpDelete (env : NetEnv) (containerID : string)
| OpCheck (status : nat -> Status) (containerID : string).

Definition run_op (op : Op) (w : World) : World :=
  match op with
  | OpAdd env c netns ifName pod ns ip => (AddPod env c netns ifName pod ns ip w).2
  | OpDelete env c => (DeletePod env c w).2
  | OpCheck status c => (CheckPod status c w).2
  end.

Definition run_ops (ops : list Op) (w : World) : World :=
  fold_left (fun w op => run_op op w) ops w.

(** The live backends that serve a container. *)
Definition live_for (w : World) (containerID : string) : list nat :=
  (filter (fun kv : nat * string => kv.2 = containerID) (map_to_list (live w))).*1.

(** The registry and the live backends agree: a registered instance carries
    its key and its backend is live for it, a live backend is the one of the
    instance registered for its container, and handles are given out in
    increasing order. *)
Definition consistent (w : World) : Prop :=
  (forall c srv, servers w !! c = Some srv ->
                 ContainerID srv = c /\ live w !! Backend srv = Some c) /\
  (forall h c, live w !! h = Some c ->
               exists srv, servers w !! c = Some srv /\ Backend srv = h) /\
  (forall h c, live w !! h = Some c -> h < next w).

(** ** Notions the properties are stated with *)

(** The first error among the calls of [setupVethBridge] whose failure makes
    it return an error, as it is returned; a failure of [netlink.RouteAdd] for
    the host route or the TUN route, or of a write to a sysctl, is not among
    them. *)
Fixpoint first_error (steps : list (string * option error)) : option error :=
  match steps with
  | [] => None
  | (msg, Some e) :: _ => Some (if String.eqb msg "" then e else wrap msg e)
  | (_, None) :: steps' => first_error steps'
  end.

Definition bridge_fatal (env : BridgeEnv) : option error :=
  first_error
    [("getting netns", b_GetNS env);
     ("generating random veth name",
        match b_rand env with Ok _ => None | Err e => Some e end);
     ("", b_nsDo env);
     ("creating veth pair", b_LinkAdd env);
     ("getting pod interface", b_podLinkByName env);
     ("getting host interface", b_peerLinkByName env);
     ("moving host veth", b_LinkSetNsFd env);
     ("adding IP to pod interface", b_AddrAdd env);
     ("bringing up pod interface", b_podLinkSetUp env);
     ("adding Tailscale route", b_nsRouteAdd env);
     ("getting host veth", b_hostLinkByName env);
     ("bringing up host veth", b_hostLinkSetUp env);
     ("getting TUN link for routing", b_tunLinkByName env)].

(** An environment in which the control API hands out [key]. *)
Definition key_ok (key : string) : KeyEnv :=
  {| k_sem := None; k_now := 0%Z; k_sleep := None; k_stamp := 0%Z; k_tokenNow := 0%Z;
     k_tokenNewRequest := None;
     k_tokenDo := Ok {| StatusCode := StatusOK; Body := "";
                        Decoded := Ok {| AccessToken := "token"; TokenType := "Bearer";
                                         ExpiresIn := 3600%Z |} |};
     k_tokenStamp := 0%Z;
     k_marshal := None; k_keyNewRequest := None;
     k_keyDo := Ok {| StatusCode := StatusOK; Body := "";
                      Decoded := Ok {| ID := "k1"; Key := key |} |} |}.

(** An environment in which every call of [AddPod] before the bridge
    succeeds: the TUN device gets the name [tun], the engine reports the
    overlay address [ip]; the bridge behaves as [bridge] says. *)
Definition reaching_bridge (key tun ip : string) (bridge : BridgeEnv) : AddEnv :=
  {| a_key := key_ok key;
     a_MkdirAll := None;
     a_tstunNew := Ok tun;
     a_tunLinkByName := None;
     a_tunLinkSetUp := None;
     a_netmonNew := None;
     a_engineNew := None;
     a_netstackCreate := None;
     a_NewFileStore := None;
     a_NewPrivateID := None;
     a_NewLocalBackend := None;
     a_netstackStart := None;
     a_lbStart := None;
     a_needsLogin := false;
     a_login := None;
     a_status := {| BackendState := "Running"; TailscaleIPs := [Addr4 ip] |};
     a_later := [];
     a_bridge := bridge;
     a_now := 0%Z;
     a_marshal := None;
     a_writeMetadata := None |}.

(** A bridge environment in which every call succeeds. *)
Definition bridge_ok : BridgeEnv :=
  {| b_GetNS := None; b_rand := Ok ["000"; "001"; "002"; "003"]%char; b_nsDo := None;
     b_LinkAdd := None; b_podLinkByName := None; b_peerLinkByName := None;
     b_LinkSetNsFd := None; b_AddrAdd := None; b_podLinkSetUp := None;
     b_nsRouteAdd := None; b_hostLinkByName := None; b_hostLinkSetUp := None;
     b_podRouteAdd := None; b_proxyArp := None; b_ipForward := None;
     b_tunLinkByName := None; b_tunRouteAdd := None |}.

(** The same, except that installing the host-side route to the overlay
    address fails. *)
Definition bridge_host_route_fails : BridgeEnv :=
  {| b_GetNS := None; b_rand := Ok ["000"; "001"; "002"; "003"]%char; b_nsDo := None;
     b_LinkAdd := None; b_podLinkByName := None; b_peerLinkByName := None;
     b_LinkSetNsFd := None; b_AddrAdd := None; b_podLinkSetUp := None;
     b_nsRouteAdd := None; b_hostLinkByName := None; b_hostLinkSetUp := None;
     b_podRouteAdd := Some "network is unreachable";
     b_proxyArp := None; b_ipForward := None;
     b_tunLinkByName := None; b_tunRouteAdd := None |}.

(** A freshly started manager. *)
Definition pm0 : World :=
  NewPodManager "/var/lib/tailscale-cni" "k8s"
    (NewOAuthManager "id" "secret" ["tag:k8s-pod"]).

(** A link table in which every lookup and deletion succeeds. *)
Definition net_ok : NetEnv :=
  {| n_LinkByName := fun _ => None; n_LinkDel := fun _ => None; n_LinkList := Ok [] |}.

(** The calls [AddPod] makes to undo its work once the backend exists. *)
Definition unwind_calls (h : nat) (podStateDir : string) : list Call :=
  [lb_Shutdown h; netstack_Close h; eng_Close h; netmon_Close h; os_RemoveAll podStateDir].

(** [w'] differs from [w] at most by calls that satisfy [P], added to the
    trace, and by the cached token and time stamps of the credential manager. *)
Definition only_calls (P : Call -> Prop) (w w' : World) : Prop :=
  stateDir w' = stateDir w /\ clusterName w' = clusterName w /\
  servers w' = servers w /\ live w' = live w /\ next w' = next w /\
  tags (oauthMgr w') = tags (oauthMgr w) /\
  exists cs, trace w' = trace w ++ cs /\ Forall P cs.

(** A call to the control API; a request for a key is [req]. *)
Definition key_call (req : authKeyRequest) (c : Call) : Prop :=
  match c with
  | http_token _ _ _ => True
  | http_keys _ _ r => r = req
  | _ => False
  end.

(** A call that does not create a TUN device. *)
Definition no_tun (c : Call) : Prop :=
  match c with tstun_New _ => False | _ => True end.

(** A call that creates a TUN device creates the one named [name]. *)
Definition tun_named (name : string) (c : Call) : Prop :=
  match c with tstun_New n => n = name | _ => True end.

(** What [AddPod] leaves behind when the container is not registered. *)
Definition add_post (c : string) (env : AddEnv) (w : World)
    (r : result ManagedServer * World) : Prop :=
  stateDir r.2 = stateDir w /\ clusterName r.2 = clusterName w /\
  tags (oauthMgr r.2) = tags (oauthMgr w) /\
  (exists cs, trace r.2 = trace w ++ cs /\ Forall (tun_named (tunNameForContainer c)) cs) /\
  match r.1 with
  | Err _ =>
      servers r.2 = servers w /\ next w <= next r.2 <= S (next w) /\
      (live r.2 = live w \/ live r.2 = delete (next w) (<[next w := c]> (live w)))
  | Ok m =>
      Backend m = next w /\ ContainerID m = c /\
      servers r.2 = <[c := m]> (servers w) /\
      live r.2 = <[next w := c]> (live w) /\
      next r.2 = S (next w) /\
      bridge_fatal (a_bridge env) = None
  end.


(** A first Add for container [c1] in which everything succeeds, and the
    world it leaves. *)
Definition add_c1 (w : World) : result ManagedServer * World :=
  AddPod (reaching_bridge "tskey-auth-1" "ts-c1" "100.64.0.1" bridge_ok)
    "c1" "/proc/1234/ns/net" "ts0" "nginx-deployment-7b5d9c6f8-xyz12" "default"
    "10.42.0.7" w.
Definition pm1 : World := (add_c1 pm0).2.

(** The daemon started with [--auth-key-ttl=10m] and credentials in the
    environment. *)
Definition ten_minute_flags : Flags :=
  {| f_socket := f_socket default_flags;
     f_state_dir := f_state_dir default_flags;
     f_cluster_name := f_cluster_name default_flags;
     f_tags := f_tags default_flags;
     f_auth_key_ttl := (10 * Minute)%Z |}.
Definition with_credentials : Environ :=
  {| TS_OAUTH_CLIENT_ID := "id"; TS_OAUTH_CLIENT_SECRET := "secret";
     CLUSTER_NAME := ""; TS_TAGS := "" |}.

(** The links the orphan sweep deletes: those named [ts-...] that are not
    the TUN device of a registered container. *)
Definition swept (known : gset string) (links : list string) : list string :=
  List.filter (fun name => gostrings.HasPrefix name "ts-" && negb (bool_decide (name ∈ known)))
    links.

(** The calls of the clean-up of one orphaned container: the TUN device and
    the host-side veth are deleted when they are found, the state directory
    is removed. *)
Definition orphan_calls (net : NetEnv) (w : World) (containerID hostVethName : string)
  : list Call :=
  (match n_LinkByName net (tunNameForContainer containerID) with
   | None => [netlink_LinkDel None (tunNameForContainer containerID)]
   | Some _ => []
   end) ++
  (if String.eqb hostVethName "" then []
   else match n_LinkByName net hostVethName with
        | None => [netlink_LinkDel None hostVethName]
        | Some _ => []
        end) ++
  [os_RemoveAll (podStateDir_of w containerID)].

(** the number of directories among the entries *)
Definition count_dirs (entries : list DirEntry) : nat :=
  length (List.filter IsDir entries).

(** A record whose namespace is gone, and one whose metadata cannot be read. *)
Definition gone_meta : PodMetadata :=
  {| m_ContainerID := "c1"; m_PodName := "web-0"; m_Namespace := "default";
     m_Hostname := "k8s-default-web-0"; m_TailscaleIPv4 := "100.64.0.1";
     m_TailscaleIPv6 := ""; m_CreatedAt := 0%Z; m_NetnsPath := "/proc/1234/ns/net";
     m_HostVethName := "veth00010203"; m_ClusterIP := "10.42.0.7" |}.

Definition all_gone_backend : BackendEnv :=
  {| rb_tstunNew := Err "no device"; rb_tunLinkByName := None; rb_tunLinkSetUp := None;
     rb_netmonNew := None; rb_engineNew := None; rb_netstackCreate := None;
     rb_NewFileStore := None; rb_NewPrivateID := None; rb_NewLocalBackend := None;
     rb_netstackStart := None; rb_lbStart := None; rb_needsLogin := false;
     rb_login := None;
     rb_status := {| BackendState := "NoState"; TailscaleIPs := [] |}; rb_later := [];
     rb_podIP := {| u_GetNS := None; u_nsDo := None; u_LinkByName := None;
                    u_AddrDel := None; u_AddrAdd := None |};
     rb_hostRoute := {| t_vethLinkByName := None; t_RouteDel := None; t_RouteAdd := None;
                        t_podRouteReplace := None; t_tunLinkByName := None;
                        t_tunRouteReplace := None |};
     rb_routes := {| t_vethLinkByName := None; t_RouteDel := None; t_RouteAdd := None;
                     t_podRouteReplace := None; t_tunLinkByName := None;
                     t_tunRouteReplace := None |};
     rb_bridge := bridge_ok;
     rb_finalStatus := {| BackendState := "NoState"; TailscaleIPs := [] |} |}.

(** After a restart: the metadata of [c1] is on disk and its namespace is
    gone; the metadata of [c2] cannot be read. *)
Definition after_restart : RecoverEnv :=
  {| r_net := net_ok;
     r_ReadFile := fun path =>
       if String.eqb path "/var/lib/tailscale-cni/pods/c1/metadata.json"
       then Ok "c1.json" else Err "no such file or directory";
     r_Unmarshal := fun _ => Ok gone_meta;
     r_Stat := fun _ => false;
     r_stateMissing := fun _ => false;
     r_ParseAddr := fun s => Ok (Addr4 s);
     r_backend := fun _ => all_gone_backend;
     r_RemoveAll := fun _ => None;
     r_marshal := fun _ => None;
     r_writeMetadata := fun _ => None |}.


(** The links [CleanupOrphanedResources] deletes in the world [w]. *)
Definition sweep_deletes (net : NetEnv) (w : World) : list string :=
  match n_LinkList net with
  | Ok links => swept (knownTUNs w) links
  | Err _ => []
  end.


(* ================================================================= *)
(** * Further notions for the text functions *)

(** a byte of [a-z0-9-] *)
Definition hostname_char (c : ascii) : bool :=
  HostnameSpec.is_lower c || HostnameSpec.is_digit c || HostnameSpec.is_dash c.

(** the first byte is a dash *)
Definition head_dash (l : list ascii) : bool :=
  match l with
  | c :: _ => HostnameSpec.is_dash c
  | [] => false
  end.

(** two dashes in a row somewhere *)
Fixpoint double_dash (l : list ascii) : bool :=
  match l with
  | [] => false
  | c :: t => (HostnameSpec.is_dash c && head_dash t) || double_dash t
  end.

Definition starts_with_dash (s : string) : bool := head_dash (list_ascii_of_string s).
Definition ends_with_dash (s : string) : bool := head_dash (rev (list_ascii_of_string s)).
Definition has_double_dash (s : string) : bool := double_dash (list_ascii_of_string s).

(** a byte of [0-9a-f] *)
Definition lower_hex (c : ascii) : bool :=
  Regexp.in_range "0" "9" c || Regexp.in_range "a" "f" c.

(* ================================================================= *)
(** * Further notions for the daemon *)

(** The calls of a complete [setupVethBridge], in the order they are made. *)
Definition bridge_calls (netnsPath podIfName hostVethName tunName : string)
    (ip : netip_Addr) (mtu : Z) : list Call :=
  [netlink_LinkAdd_veth (Some netnsPath) podIfName hostVethName mtu;
   netlink_LinkSetNsFd (Some netnsPath) hostVethName;
   netlink_AddrAdd (Some netnsPath) podIfName ip;
   netlink_LinkSetUp (Some netnsPath) podIfName;
   netlink_RouteAdd (Some netnsPath) podIfName tailscaleCIDR;
   netlink_LinkSetUp None hostVethName;
   netlink_RouteAdd None hostVethName (host_route ip);
   os_WriteFile ("/proc/sys/net/ipv4/conf/" +:+ hostVethName +:+ "/proxy_arp") "1";
   os_WriteFile "/proc/sys/net/ipv4/ip_forward" "1";
   netlink_RouteAdd None tunName tailscaleCIDR].

(** the name of the host-side end for the random bytes the bridge draws *)
Definition host_veth_of (env : BridgeEnv) : string :=
  match b_rand env with
  | Ok bytes => "veth" +:+ hex_EncodeToString bytes
  | Err _ => ""
  end.

(** the test [getAccessToken] makes before it reuses the cached token *)
Definition token_fresh (now : Time) (m : OAuthManager) : bool :=
  negb (String.eqb (accessToken m) "") && (now + 5 * Minute <? tokenExpiry m)%Z.

(** the requests [getAccessToken] and [CreateAuthKey] send *)
Definition token_call (m : OAuthManager) : Call :=
  http_token (baseURL m +:+ "/api/v2/oauth/token") (clientID m) (clientSecret m).
Definition keys_call (m : OAuthManager) (token podName namespace : string) : Call :=
  http_keys (baseURL m +:+ "/api/v2/tailnet/-/keys") token (keyRequest m podName namespace).

(** the number of requests for a key in a list of calls *)
Definition count_key_requests (cs : list Call) : nat :=
  length (List.filter (fun c => match c with http_keys _ _ _ => true | _ => false end) cs).

(** The instance a successful [AddPod] builds in the world [w], for the
    overlay addresses [v4] and [v6]. *)
Definition added_instance (env : AddEnv) (w : World)
    (containerID podName namespace clusterIP : string) (v4 v6 : netip_Addr)
  : ManagedServer :=
  {| Backend := next w; Engine := next w; Sys := next w; NetMon := Some (next w);
     ContainerID := containerID;
     PodName := podName;
     Namespace := namespace;
     Hostname :=
       sanitizeHostname
         (clusterName w +:+ "-" +:+ namespace +:+ "-" +:+ stripKubernetesSuffixes podName);
     ClusterIP := clusterIP;
     HostVethName := host_veth_of (a_bridge env);
     TailscaleIPv4 := v4;
     TailscaleIPv6 := v6;
     CreatedAt := a_now env |}.

(** The record kept on disk for an instance. *)
Definition metadata_of (m : ManagedServer) (netnsPath : string) : PodMetadata :=
  {| m_ContainerID := ContainerID m;
     m_PodName := PodName m;
     m_Namespace := Namespace m;
     m_Hostname := Hostname m;
     m_TailscaleIPv4 := Addr_String (TailscaleIPv4 m);
     m_TailscaleIPv6 :=
       if IsValid (TailscaleIPv6 m) then Addr_String (TailscaleIPv6 m) else "";
     m_CreatedAt := CreatedAt m;
     m_NetnsPath := netnsPath;
     m_HostVethName := HostVethName m;
     m_ClusterIP := ClusterIP m |}.

Definition metadata_path (w : World) (containerID : string) : string :=
  filepath_Join [stateDir w; "pods"; containerID; "metadata.json"].

(** The calls of a successful [AddPod] after the key is there, in order:
    [key] is the key, [tun] the name the kernel gave the TUN device and [m]
    the instance. *)
Definition add_calls (env : AddEnv) (w : World) (containerID netnsPath ifName : string)
    (m : ManagedServer) (key tun : string) : list Call :=
  let h := next w in
  let dir := podStateDir_of w containerID in
  [os_MkdirAll dir;
   tstun_New (tunNameForContainer containerID);
   netlink_LinkSetUp None tun;
   netmon_New h; wgengine_New h; netstack_Create h; tun_Start h;
   store_NewFileStore (filepath_Join [dir; "tailscale.state"]);
   ipnlocal_NewLocalBackend h;
   lb_SetVarRoot h dir;
   netstack_Start h;
   lb_Start h (Hostname m) (Some key)] ++
  (if a_needsLogin env then [lb_StartLoginInteractive h] else []) ++
  bridge_calls netnsPath ifName (HostVethName m) tun (TailscaleIPv4 m) defaultVethMTU ++
  match a_marshal env with
  | None => [write_metadata (metadata_path w containerID) (metadata_of m netnsPath)]
  | Some _ => []
  end.

(** What a successful [AddPod] for a container that is not registered
    leaves. *)
Definition add_success (env : AddEnv) (w : World)
    (c netns ifn pod ns ip : string) (m : ManagedServer) (w' : World) : Prop :=
  exists v4 v6 key tun,
    wait_for_ip (a_status env) (a_later env) AddrZero AddrZero = Ok (v4, v6) /\
    m = added_instance env w c pod ns ip v4 v6 /\
    (CreateAuthKey (a_key env) pod ns w).1 = Ok key /\
    a_tstunNew env = Ok tun /\
    trace w' = trace (CreateAuthKey (a_key env) pod ns w).2
               ++ add_calls env w c netns ifn m key tun /\
    servers w' = <[c := m]> (servers w) /\
    live w' = <[next w := c]> (live w).

(** What a failed [AddPod] leaves. *)
Definition add_failure (env : AddEnv) (w : World) (c pod ns : string) (w' : World)
  : Prop :=
  servers w' = servers w /\
  (live w !! next w = None -> live w' = live w) /\
  (is_ok (CreateAuthKey (a_key env) pod ns w).1 = true -> a_MkdirAll env = None ->
   exists t, trace w' = t ++ [os_RemoveAll (podStateDir_of w c)]).

(** [ip] is among the addresses of a status in [sts] that is Running *)
Definition reported (sts : list Status) (ip : netip_Addr) : Prop :=
  exists st, In st sts /\ BackendState st = "Running" /\ In ip (TailscaleIPs st).

(** the zero address, or an address of the family [fam] that was reported *)
Definition zero_or (fam : netip_Addr -> bool) (sts : list Status) (ip : netip_Addr) : Prop :=
  ip = AddrZero \/ (fam ip = true /\ reported sts ip).

(** A bridge environment in which the pod's namespace cannot be opened. *)
Definition bridge_no_netns : BridgeEnv :=
  {| b_GetNS := Some "no such file or directory";
     b_rand := Ok ["000"; "001"; "002"; "003"]%char; b_nsDo := None;
     b_LinkAdd := None; b_podLinkByName := None; b_peerLinkByName := None;
     b_LinkSetNsFd := None; b_AddrAdd := None; b_podLinkSetUp := None;
     b_nsRouteAdd := None; b_hostLinkByName := None; b_hostLinkSetUp := None;
     b_podRouteAdd := None; b_proxyArp := None; b_ipForward := None;
     b_tunLinkByName := None; b_tunRouteAdd := None |}.

(** An Add for [c2] that fails at the bridge. *)
Definition add_c2_fails (w : World) : result ManagedServer * World :=
  AddPod (reaching_bridge "tskey-auth-2" "ts-c2" "100.64.0.2" bridge_no_netns)
    "c2" "/proc/4321/ns/net" "ts0" "web-0" "default" "10.42.0.8" w.


(** What one Add works with besides its arguments: the name the kernel gave
    the TUN device it created, the name it drew for the host's end of the
    veth pair, the IPv4 overlay address it obtained. *)
Definition add_tun (env : AddEnv) : option string :=
  match a_tstunNew env with Ok name => Some name | Err _ => None end.
Definition add_veth (env : AddEnv) : option string :=
  match b_rand (a_bridge env) with
  | Ok bytes => Some ("veth" +:+ hex_EncodeToString bytes)
  | Err _ => None
  end.
Definition add_ip (env : AddEnv) : option netip_Addr :=
  match wait_for_ip (a_status env) (a_later env) AddrZero AddrZero with
  | Ok (v4, _) => Some v4
  | Err _ => None
  end.

(** The calls of an Add for container [c], each with its target.  A request
    for a key is the one for the workload; files, TUN device and handle are
    as in [add_call_ok], the backend started under the hostname derived from
    the workload and with the key just obtained.  The veth pair is created in
    the pod's namespace with the drawn name as peer, the peer moved out of
    that namespace, the obtained address put on the pod's end.  The links
    brought up are the TUN device created, the pod's end and the host's end.
    The routes added are the overlay range through the pod's end inside the
    namespace, the obtained address through the host's end, and the overlay
    range through the TUN device created.  The files written are [proxy_arp]
    of the host's end and [/proc/sys/net/ipv4/ip_forward], the one setting
    that is the host's and not the container's. *)
Definition add_call_own (env : AddEnv) (w : World) (c netnsPath ifName pod ns : string)
    (call : Call) : Prop :=
  let h := next w in
  let dir := podStateDir_of w c in
  match call with
  | http_token _ _ _ => True
  | http_keys _ _ r => r = keyRequest (oauthMgr w) pod ns
  | os_MkdirAll p | os_RemoveAll p => p = dir
  | os_WriteFile p d =>
      d = "1" /\
      (p = "/proc/sys/net/ipv4/ip_forward" \/
       exists veth, add_veth env = Some veth /\
                    p = "/proc/sys/net/ipv4/conf/" +:+ veth +:+ "/proxy_arp")
  | write_metadata p _ => p = metadata_path w c
  | tstun_New n => n = tunNameForContainer c
  | tun_Close h' | tun_Start h' | netmon_New h' | netmon_Close h' | wgengine_New h'
  | eng_Close h' | netstack_Create h' | netstack_Start h' | netstack_Close h'
  | ipnlocal_NewLocalBackend h' | lb_StartLoginInteractive h' | lb_Shutdown h' => h' = h
  | store_NewFileStore p => p = filepath_Join [dir; "tailscale.state"]
  | lb_SetVarRoot h' p => h' = h /\ p = dir
  | lb_Start h' host key =>
      h' = h /\
      host = sanitizeHostname
               (clusterName w +:+ "-" +:+ ns +:+ "-" +:+ stripKubernetesSuffixes pod) /\
      exists k, (CreateAuthKey (a_key env) pod ns w).1 = Ok k /\ key = Some k
  | netlink_LinkAdd_veth nsp name peer mtu =>
      nsp = Some netnsPath /\ name = ifName /\ add_veth env = Some peer /\
      mtu = defaultVethMTU
  | netlink_LinkSetNsFd nsp name => nsp = Some netnsPath /\ add_veth env = Some name
  | netlink_AddrAdd nsp link ip =>
      nsp = Some netnsPath /\ link = ifName /\ add_ip env = Some ip
  | netlink_LinkSetUp nsp name =>
      (nsp = None /\ add_tun env = Some name) \/
      (nsp = Some netnsPath /\ name = ifName) \/
      (nsp = None /\ add_veth env = Some name)
  | netlink_RouteAdd nsp link dst =>
      (nsp = Some netnsPath /\ link = ifName /\ dst = tailscaleCIDR) \/
      (nsp = None /\ add_veth env = Some link /\
       exists ip, add_ip env = Some ip /\ dst = host_route ip) \/
      (nsp = None /\ add_tun env = Some link /\ dst = tailscaleCIDR)
  | netlink_LinkDel _ _ | netlink_AddrDel _ _ _
  | netlink_RouteReplace _ _ _ | netlink_RouteDel _ _ _ => False
  end.

(* ================================================================= *)
(** * [pods.go] and [server.go]: look-up by name and the request handlers *)

(** [GetPodByName].  Go ranges over the map in no fixed order; here the
    order is the one of [map_to_list], and the properties proved hold for
    any order. *)
Definition GetPodByName (namespace name : string) : M (option ManagedServer) :=
  fun w =>
  (List.find (fun srv : ManagedServer =>
                String.eqb (Namespace srv) namespace && String.eqb (PodName srv) name)
     (map snd (map_to_list (servers w))), w).

(** The messages of the gRPC service. *)
Module pb.

Record AddRequest := {
  ContainerId : string;
  Netns : string;
  IfName : string;
  PodName : string;
  PodNamespace : string;
  PodUid : string;
  ClusterIp : string
}.

Record AddResponse := {
  TailscaleIpv4 : string;
  TailscaleIpv6 : string;
  TailscaleHostname : string
}.

(** [DelRequest] and [CheckRequest] have the same three fields. *)
Record Request := {
  r_ContainerId : string;
  r_Netns : string;
  r_IfName : string
}.

Record CheckResponse := {
  Healthy : bool;
  Message : string
}.

End pb.


(** [Server.Del]; [Ok tt] is the empty [DelResponse]. *)
Definition Server_Del (env : NetEnv) (req : pb.Request) : M (result unit) :=
  letM err := DeletePod env (pb.r_ContainerId req) in
  match err with
  | Some e => ret (Err (wrap "deleting pod" e))
  | None => ret (Ok tt)
  end.

(** [Server.Check] *)
Definition Server_Check (status : nat -> Status) (req : pb.Request)
  : M (result pb.CheckResponse) :=
  letM r := CheckPod status (pb.r_ContainerId req) in
  let '(healthy, message, err) := r in
  match err with
  | Some e => ret (Err (wrap "checking pod" e))
  | None => ret (Ok {| pb.Healthy := healthy; pb.Message := message |})
  end.

(** ** Notions for the properties of the registry *)

(** the container a request is about *)
Definition op_target (op : Op) : string :=
  match op with
  | OpAdd _ c _ _ _ _ _ => c
  | OpDelete _ c => c
  | OpCheck _ c => c
  end.

(** The calls of a Delete of the registered instance [m], in order: the
    host's end of the veth pair is deleted when it has a name and is found. *)
Definition delete_calls (net : NetEnv) (w : World) (containerID : string)
    (m : ManagedServer) : list Call :=
  [lb_Shutdown (Backend m); eng_Close (Engine m)] ++
  match NetMon m with Some nm => [netmon_Close nm] | None => [] end ++
  (if String.eqb (HostVethName m) "" then []
   else match n_LinkByName net (HostVethName m) with
        | None => [netlink_LinkDel None (HostVethName m)]
        | Some _ => []
        end) ++
  [os_RemoveAll (podStateDir_of w containerID)].

(* ================================================================= *)
(** * Further notions for the recovery *)

(** The instance [recoverPodBackend] builds in the world [w] from the record
    [meta], for the overlay addresses [v4] and [v6] and the veth end [veth]. *)
Definition recovered_instance (w : World) (containerID : string) (meta : PodMetadata)
    (v4 v6 : netip_Addr) (veth : string) : ManagedServer :=
  {| Backend := next w; Engine := next w; Sys := next w; NetMon := Some (next w);
     ContainerID := containerID;
     PodName := m_PodName meta;
     Namespace := m_Namespace meta;
     Hostname := m_Hostname meta;
     ClusterIP := m_ClusterIP meta;
     HostVethName := veth;
     TailscaleIPv4 := v4;
     TailscaleIPv6 := v6;
     CreatedAt := m_CreatedAt meta |}.

(** What one recovery works with besides the record: the name the kernel
    gave the TUN device it created, the IPv4 overlay address the restarted
    backend reports, the name drawn for the host's end when a new veth pair
    is made, and the recorded overlay address once parsed. *)
Definition rec_tun (benv : BackendEnv) : option string :=
  match rb_tstunNew benv with Ok name => Some name | Err _ => None end.
Definition rec_ip (benv : BackendEnv) : option netip_Addr :=
  wait_for_connection (rb_status benv) (rb_later benv).
Definition rec_veth (benv : BackendEnv) : option string :=
  match b_rand (rb_bridge benv) with
  | Ok bytes => Some ("veth" +:+ hex_EncodeToString bytes)
  | Err _ => None
  end.
Definition stored_ip (env : RecoverEnv) (meta : PodMetadata) : option netip_Addr :=
  match r_ParseAddr env (m_TailscaleIPv4 meta) with
  | Ok ip => Some ip
  | Err _ => None
  end.

(** What a call of the recovery of container [c] from the record [meta] may
    be, each with its target; [old] is the recorded overlay address.  No
    request goes to the control API and no directory is created; the backend
    is started under the recorded hostname and without a key; the only
    directory removed is the state directory of [c].  Links: the ones
    deleted are the TUN device named after [c] and the recorded host's end;
    the ones brought up are the TUN device created, and the two ends of a
    new veth pair, made in the recorded namespace with [ts0] as the pod's
    end.  Addresses, on [ts0] in the recorded namespace: the recorded one is
    removed, the reported one added.  Routes on the host: the recorded
    address through the recorded host's end is removed; the reported address
    is routed through the recorded host's end or the new one, the overlay
    range through the TUN device created; inside the namespace the overlay
    range is routed through [ts0].  Files written: [proxy_arp] of the new
    host's end and [/proc/sys/net/ipv4/ip_forward], the one setting that is
    the host's and not the container's. *)
Definition recovery_call_ok (benv : BackendEnv) (old : option netip_Addr)
    (w : World) (c : string) (meta : PodMetadata) (call : Call) : Prop :=
  let h := next w in
  let dir := podStateDir_of w c in
  let netns := Some (m_NetnsPath meta) in
  let reported dst := exists ip, rec_ip benv = Some ip /\ dst = host_route ip in
  match call with
  | http_token _ _ _ | http_keys _ _ _ | os_MkdirAll _ => False
  | os_RemoveAll p => p = dir
  | os_WriteFile p d =>
      d = "1" /\
      (p = "/proc/sys/net/ipv4/ip_forward" \/
       exists veth, rec_veth benv = Some veth /\
                    p = "/proc/sys/net/ipv4/conf/" +:+ veth +:+ "/proxy_arp")
  | write_metadata p _ => p = metadata_path w c
  | tstun_New n => n = tunNameForContainer c
  | tun_Close h' | tun_Start h' | netmon_New h' | netmon_Close h' | wgengine_New h'
  | eng_Close h' | netstack_Create h' | netstack_Start h' | netstack_Close h'
  | ipnlocal_NewLocalBackend h' | lb_StartLoginInteractive h' | lb_Shutdown h' => h' = h
  | store_NewFileStore p => p = filepath_Join [dir; "tailscale.state"]
  | lb_SetVarRoot h' p => h' = h /\ p = dir
  | lb_Start h' hostname key => h' = h /\ hostname = m_Hostname meta /\ key = None
  | netlink_LinkAdd_veth nsp name peer mtu =>
      nsp = netns /\ name = "ts0" /\ rec_veth benv = Some peer /\ mtu = defaultVethMTU
  | netlink_LinkSetNsFd nsp name => nsp = netns /\ rec_veth benv = Some name
  | netlink_AddrAdd nsp link ip => nsp = netns /\ link = "ts0" /\ rec_ip benv = Some ip
  | netlink_AddrDel nsp link ip => nsp = netns /\ link = "ts0" /\ old = Some ip
  | netlink_LinkDel nsp name =>
      nsp = None /\ (name = tunNameForContainer c \/ name = m_HostVethName meta)
  | netlink_LinkSetUp nsp name =>
      (nsp = None /\ rec_tun benv = Some name) \/
      (nsp = netns /\ name = "ts0") \/
      (nsp = None /\ rec_veth benv = Some name)
  | netlink_RouteAdd nsp link dst =>
      (nsp = netns /\ link = "ts0" /\ dst = tailscaleCIDR) \/
      (nsp = None /\ link = m_HostVethName meta /\ reported dst) \/
      (nsp = None /\ rec_veth benv = Some link /\ reported dst) \/
      (nsp = None /\ rec_tun benv = Some link /\ dst = tailscaleCIDR)
  | netlink_RouteReplace nsp link dst =>
      nsp = None /\
      ((link = m_HostVethName meta /\ reported dst) \/
       (rec_tun benv = Some link /\ dst = tailscaleCIDR))
  | netlink_RouteDel nsp link dst =>
      nsp = None /\ link = m_HostVethName meta /\
      exists ip, old = Some ip /\ dst = host_route ip
  end.

(** What [recoverPodBackend] leaves. *)
Definition recover_post (net : NetEnv) (env : BackendEnv) (w : World) (c : string)
    (meta : PodMetadata) (expectedIP : netip_Addr) (r : result ManagedServer * World)
  : Prop :=
  stateDir r.2 = stateDir w /\ clusterName r.2 = clusterName w /\
  servers r.2 = servers w /\ next r.2 = S (next w) /\
  (exists cs, trace r.2 = trace w ++ cs /\
              Forall (recovery_call_ok env (Some expectedIP) w c meta) cs) /\
  match r.1 with
  | Ok m =>
      live r.2 = <[next w := c]> (live w) /\
      exists v4 veth,
        wait_for_connection (rb_status env) (rb_later env) = Some v4 /\
        m = recovered_instance w c meta v4
              (first_v6 (TailscaleIPs (rb_finalStatus env))) veth /\
        ((veth = m_HostVethName meta /\ veth <> "" /\ n_LinkByName net veth = None) \/
         (veth = host_veth_of (rb_bridge env) /\
          (m_HostVethName meta = "" \/ n_LinkByName net (m_HostVethName meta) <> None)))
  | Err _ => live w !! next w = None -> live r.2 = live w
  end.

(** The record [meta] of container [c] is that of an orphan: its namespace
    is gone or its state store is missing. *)
Definition is_orphan (env : RecoverEnv) (w : World) (c : string) (meta : PodMetadata)
  : bool :=
  negb (netnsExists (r_Stat env) (m_NetnsPath meta))
  || r_stateMissing env (filepath_Join [stateDir w; "pods"; c; "tailscale.state"]).

(** What [recoverPod] leaves. *)
Definition recoverPod_post (env : RecoverEnv) (w : World) (c : string)
    (r : option error * World) : Prop :=
  match (loadMetadata env c w).1 with
  | Err e => r = (Some (wrap "loading metadata" e), w)
  | Ok meta =>
      stateDir r.2 = stateDir w /\ clusterName r.2 = clusterName w /\
      (exists cs, trace r.2 = trace w ++ cs /\
                  Forall (recovery_call_ok (r_backend env c) (stored_ip env meta) w c meta)
                    cs) /\
      if is_orphan env w c meta then
        r.1 = None /\ servers r.2 = servers w /\ live r.2 = live w /\ next r.2 = next w
      else
        match r.1 with
        | None =>
            next r.2 = S (next w) /\ live r.2 = <[next w := c]> (live w) /\
            exists v4 veth,
              servers r.2
              = <[c := recovered_instance w c meta v4
                         (first_v6 (TailscaleIPs (rb_finalStatus (r_backend env c))))
                         veth]> (servers w) /\
              wait_for_connection (rb_status (r_backend env c)) (rb_later (r_backend env c))
              = Some v4 /\
              ((veth = m_HostVethName meta /\ veth <> "" /\
                n_LinkByName (r_net env) veth = None) \/
               (veth = host_veth_of (rb_bridge (r_backend env c)) /\
                (m_HostVethName meta = "" \/
                 n_LinkByName (r_net env) (m_HostVethName meta) <> None)))
        | Some _ =>
            servers r.2 = servers w /\ next w <= next r.2 <= S (next w) /\
            (live w !! next w = None -> live r.2 = live w)
        end
  end.

(** A backend environment in which everything succeeds and the engine
    reports the overlay address [ip]. *)
Definition backend_ok (ip : string) : BackendEnv :=
  {| rb_tstunNew := Ok "ts-c1"; rb_tunLinkByName := None; rb_tunLinkSetUp := None;
     rb_netmonNew := None; rb_engineNew := None; rb_netstackCreate := None;
     rb_NewFileStore := None; rb_NewPrivateID := None; rb_NewLocalBackend := None;
     rb_netstackStart := None; rb_lbStart := None; rb_needsLogin := false;
     rb_login := None;
     rb_status := {| BackendState := "Running"; TailscaleIPs := [Addr4 ip] |};
     rb_later := [];
     rb_podIP := {| u_GetNS := None; u_nsDo := None; u_LinkByName := None;
                    u_AddrDel := None; u_AddrAdd := None |};
     rb_hostRoute := {| t_vethLinkByName := None; t_RouteDel := None; t_RouteAdd := None;
                        t_podRouteReplace := None; t_tunLinkByName := None;
                        t_tunRouteReplace := None |};
     rb_routes := {| t_vethLinkByName := None; t_RouteDel := None; t_RouteAdd := None;
                     t_podRouteReplace := None; t_tunLinkByName := None;
                     t_tunRouteReplace := None |};
     rb_bridge := bridge_ok;
     rb_finalStatus := {| BackendState := "Running"; TailscaleIPs := [Addr4 ip] |} |}.

(** After a restart with everything of [c1] still in place: the metadata is
    the record [gone_meta], the namespace and the state store exist, the
    links are found, and the engine comes back with the address [ip]. *)
Definition restart_ok (ip : string) : RecoverEnv :=
  {| r_net := net_ok;
     r_ReadFile := fun path =>
       if String.eqb path "/var/lib/tailscale-cni/pods/c1/metadata.json"
       then Ok "c1.json" else Err "no such file or directory";
     r_Unmarshal := fun _ => Ok gone_meta;
     r_Stat := fun _ => true;
     r_stateMissing := fun _ => false;
     r_ParseAddr := fun s => Ok (Addr4 s);
     r_backend := fun _ => backend_ok ip;
     r_RemoveAll := fun _ => None;
     r_marshal := fun _ => None;
     r_writeMetadata := fun _ => None |}.

(** the names of the directories among the entries *)
Definition dir_names (entries : list DirEntry) : list string :=
  map Name (List.filter IsDir entries).

(** The calls of [ensureRoutes] when both links are found. *)
Definition route_calls (tunName vethName : string) (ip : netip_Addr) : list Call :=
  [netlink_RouteReplace None vethName (host_route ip);
   netlink_RouteReplace None tunName tailscaleCIDR].

(** The instance the first Add for [c1] registers, and a restart after
    which the metadata that Add wrote is read back. *)
Definition c1_instance : ManagedServer :=
  added_instance (reaching_bridge "tskey-auth-1" "ts-c1" "100.64.0.1" bridge_ok) pm0
    "c1" "nginx-deployment-7b5d9c6f8-xyz12" "default" "10.42.0.7"
    (Addr4 "100.64.0.1") AddrZero.

Definition restart_c1 : RecoverEnv :=
  {| r_net := net_ok;
     r_ReadFile := fun path =>
       if String.eqb path "/var/lib/tailscale-cni/pods/c1/metadata.json"
       then Ok "c1.json" else Err "no such file or directory";
     r_Unmarshal := fun _ => Ok (metadata_of c1_instance "/proc/1234/ns/net");
     r_Stat := fun _ => true;
     r_stateMissing := fun _ => false;
     r_ParseAddr := fun s => Ok (Addr4 s);
     r_backend := fun _ => backend_ok "100.64.0.1";
     r_RemoveAll := fun _ => None;
     r_marshal := fun _ => None;
     r_writeMetadata := fun _ => None |}.

(** The calls of [Close] for one instance. *)
Definition close_calls (m : ManagedServer) : list Call :=
  [lb_Shutdown (Backend m); eng_Close (Engine m)] ++
  match NetMon m with Some nm => [netmon_Close nm] | None => [] end.

(** ** [cmd/daemon/main.go]: the start-up of the daemon

    [main] from the credentials to the orphan sweep; [Err] stands for
    [log.Fatal].  [mkdir] is what [os.MkdirAll] of the state directory
    returns, [readDir] what [os.ReadDir] of the pods directory returns. *)
Definition main_startup (f : Flags) (e : Environ) (mkdir : option error)
    (renv : RecoverEnv) (readDir : ReadDirResult) (net : NetEnv)
  : result (nat * list error * World) :=
  match main_podMgr f e with
  | Err msg => Err msg
  | Ok podMgr =>
      match mkdir with
      | Some err => Err ("Failed to create state directory: " +:+ err)
      | None =>
          fst ((call (os_MkdirAll (f_state_dir f)) ;;;
                letM r := RecoverPods renv readDir in
                CleanupOrphanedResources net ;;;
                fun w => (Ok (r, w), w)) podMgr)
      end
  end.

(** The world of the daemon when the recovery pass is over and the orphan
    sweep about to start. *)
Definition startup_recovered (f : Flags) (e : Environ) (renv : RecoverEnv)
    (readDir : ReadDirResult) : World :=
  (RecoverPods renv readDir
     (call (os_MkdirAll (f_state_dir f))
        (NewPodManager (f_state_dir f) (main_cluster f e)
           (NewOAuthManager (TS_OAUTH_CLIENT_ID e) (TS_OAUTH_CLIENT_SECRET e)
              (main_tags f e)))).2).2.

(** The recovery created a TUN device for container [c] and brought it up:
    [tun] is the name the kernel gave it. *)
Definition recovered_device (renv : RecoverEnv) (w : World) (c tun : string) : Prop :=
  rb_tstunNew (r_backend renv c) = Ok tun /\
  In (tstun_New (tunNameForContainer c)) (trace w) /\
  In (netlink_LinkSetUp None tun) (trace w).

(** Every registered container has its device. *)
Definition all_devices (renv : RecoverEnv) (w : World) : Prop :=
  forall c, is_Some (servers w !! c) -> exists tun, recovered_device renv w c tun.

(** The host when the sweep starts: the device of [c1] and a stray one. *)
Definition two_tuns : NetEnv :=
  {| n_LinkByName := fun _ => None; n_LinkDel := fun _ => None;
     n_LinkList := Ok ["ts-c1"; "ts-deadbeef"] |}.

(* ================================================================= *)
(** * [cmd/cni]: the plug-in

    The plug-in is the caller of the gRPC service.  What it does to the
    outside is a list of events, in order; what the outside answers is taken
    from an environment record. *)
Module cni.

Record NetConf := {
  CNIVersion : string;
  DaemonSocket : string;
  ClusterName : string
}.

Record K8sArgs := {
  K8S_POD_NAME : string;
  K8S_POD_NAMESPACE : string;
  K8S_POD_INFRA_CONTAINER_ID : string;
  K8S_POD_UID : string
}.

(** [skel.CmdArgs], the fields that are read directly *)
Record CmdArgs := {
  ContainerID : string;
  Netns : string;
  IfName : string
}.

(** [current.IPConfig]: the address, the length of its mask, the index of
    its interface *)
Record IPConfig := {
  Address : string;
  MaskBits : nat;
  Interface : nat
}.

(** [current.Result]; an interface is its name and its sandbox *)
Record Result := {
  ResultVersion : string;
  Interfaces : list (string * string);
  IPs : list IPConfig;
  Routes : list string
}.

Inductive Event : Type :=
| Dial (target : string)
| Sleep (d : Duration)
| AddRPC (req : pb.AddRequest)
| DelRPC (req : pb.Request)
| CheckRPC (req : pb.Request)
| ConnClose
| PrintResult (r : Result).

(** What the outside answers during one run of the plug-in. *)
Record Env := {
  Unmarshal : result NetConf;            (* json.Unmarshal(bytes, conf) *)
  ParsePrevResult : option error;        (* version.ParsePrevResult *)
  LoadArgs : result K8sArgs;             (* types.LoadArgs *)
  PrevResultIPs : option (result (list string));
    (* [None]: conf.PrevResult is nil; otherwise current.GetResult and the
       addresses of its IPs *)
  dial : nat -> option error;            (* grpc.DialContext of the attempt *)
  socket_missing : nat -> bool;          (* os.IsNotExist of os.Stat(socketPath) *)
  rpc_Add : pb.AddRequest -> result pb.AddResponse;      (* client.Add *)
  rpc_Del : pb.Request -> option error;                  (* client.Del *)
  rpc_Check : pb.Request -> result pb.CheckResponse;     (* client.Check *)
  ParseIP : string -> option string;     (* net.ParseIP: [None] is nil *)
  print_result : option error            (* types.PrintResult *)
}.

Definition defaultSocket : string := "/var/run/tailscale-cni/daemon.sock".

(** [loadConf] *)
Definition loadConf (env : Env) : result NetConf :=
  match Unmarshal env with
  | Err e => Err (wrap "failed to parse network config" e)
  | Ok conf =>
      let conf :=
        if String.eqb (DaemonSocket conf) ""
        then {| CNIVersion := CNIVersion conf; DaemonSocket := defaultSocket;
                ClusterName := ClusterName conf |}
        else conf in
      match ParsePrevResult env with
      | Some e => Err (wrap "failed to parse prevResult" e)
      | None => Ok conf
      end
  end.


Definition maxRetries : nat := 10.
Definition baseDelay : Duration := (500 * Millisecond)%Z.

(** the pause after a failed attempt: [baseDelay * 2^attempt], at most 10 s
    when the socket does not exist and at most 5 s when it does *)
Definition backoff (attempt : nat) (missing : bool) : Duration :=
  let delay := (baseDelay * 2 ^ Z.of_nat attempt)%Z in
  let cap := if missing then (10 * Second)%Z else (5 * Second)%Z in
  if (cap <? delay)%Z then cap else delay.

(** The loop of [connectToDaemon], [left] attempts before it gives up;
    [err] is the error of the last attempt made. *)
Fixpoint connect_loop (env : Env) (socketPath : string) (left attempt : nat) (err : error)
  : result nat * list Event :=
  match left with
  | O =>
      (Err (wrap ("connecting to daemon at " +:+ socketPath +:+ " after 10 attempts") err),
       [])
  | S left' =>
      match dial env attempt with
      | None => (Ok attempt, [Dial ("unix://" +:+ socketPath)])
      | Some err' =>
          let delay := backoff attempt (socket_missing env attempt) in
          let (r, evs) := connect_loop env socketPath left' (S attempt) err' in
          (r, Dial ("unix://" +:+ socketPath) :: Sleep delay :: evs)
      end
  end.

(** [connectToDaemon]: the attempt that connected, or the error *)
Definition connectToDaemon (env : Env) (socketPath : string) : result nat * list Event :=
  connect_loop env socketPath maxRetries 0 "".

Definition request_of (args : CmdArgs) : pb.Request :=
  {| pb.r_ContainerId := ContainerID args; pb.r_Netns := Netns args;
     pb.r_IfName := IfName args |}.

(** [cmdDel]; [None] is the nil error. *)
Definition cmdDel (env : Env) (args : CmdArgs) : option error * list Event :=
  match loadConf env with
  | Err e => (Some e, [])
  | Ok conf =>
      match connectToDaemon env (DaemonSocket conf) with
      | (Err _, evs) => (None, evs)
      | (Ok _, evs) => (None, evs ++ [DelRPC (request_of args); ConnClose])
      end
  end.

(** [cmdCheck] *)
Definition cmdCheck (env : Env) (args : CmdArgs) : option error * list Event :=
  match loadConf env with
  | Err e => (Some e, [])
  | Ok conf =>
      match connectToDaemon env (DaemonSocket conf) with
      | (Err e, evs) => (Some e, evs)
      | (Ok _, evs) =>
          let evs := evs ++ [CheckRPC (request_of args); ConnClose] in
          match rpc_Check env (request_of args) with
          | Err e => (Some (wrap "daemon Check failed" e), evs)
          | Ok resp =>
              if negb (pb.Healthy resp)
              then (Some ("unhealthy: " +:+ pb.Message resp), evs)
              else (None, evs)
          end
      end
  end.



(** the pauses among the events, and their sum *)
Definition sleeps (evs : list Event) : list Duration :=
  flat_map (fun ev => match ev with Sleep d => [d] | _ => [] end) evs.
Definition dials (evs : list Event) : nat :=
  length (List.filter (fun ev => match ev with Dial _ => true | _ => false end) evs).
Definition total_sleep (evs : list Event) : Duration :=
  fold_right Z.add 0%Z (sleeps evs).

(** the longest the pauses of [left] attempts from [attempt] on can take *)
Fixpoint longest (left attempt : nat) : Duration :=
  match left with
  | O => 0%Z
  | S left' => (backoff attempt true + longest left' (S attempt))%Z
  end.

End cni.

(** An event of [connectToDaemon] for the socket [path]: a dial of that
    socket or a pause. *)
Definition connect_event (path : string) (ev : cni.Event) : Prop :=
  match ev with
  | cni.Dial target => target = "unix://" +:+ path
  | cni.Sleep _ => True
  | _ => False
  end.


(** A run of the plug-in in which the configuration is read, the daemon is
    reached at the second attempt and answers [resp] to an Add. *)
Definition plugin_env (resp : pb.AddResponse) : cni.Env :=
  {| cni.Unmarshal := Ok {| cni.CNIVersion := "1.0.0"; cni.DaemonSocket := "";
                            cni.ClusterName := "" |};
     cni.ParsePrevResult := None;
     cni.LoadArgs := Ok {| cni.K8S_POD_NAME := "web-0"; cni.K8S_POD_NAMESPACE := "default";
                           cni.K8S_POD_INFRA_CONTAINER_ID := "c1";
                           cni.K8S_POD_UID := "uid-1" |};
     cni.PrevResultIPs := Some (Ok ["10.42.0.7"]);
     cni.dial := fun n => if Nat.eqb n 0 then Some "connection refused" else None;
     cni.socket_missing := fun _ => true;
     cni.rpc_Add := fun _ => Ok resp;
     cni.rpc_Del := fun _ => None;
     cni.rpc_Check := fun _ => Ok {| pb.Healthy := true; pb.Message := "healthy" |};
     cni.ParseIP := fun s => if String.eqb s "" then None else Some s;
     cni.print_result := None |}.

Definition eth0_args : cni.CmdArgs :=
  {| cni.ContainerID := "c1"; cni.Netns := "/proc/1234/ns/net"; cni.IfName := "eth0" |}.


(* ================================================================= *)
(** * Properties *)

(** ** Conversions between [string] and its list of bytes *)

Lemma bytes_app (a b : string) :
  list_ascii_of_string (a +:+ b) = list_ascii_of_string a ++ list_ascii_of_string b.
Proof. induction a as [|c a IH]; simpl; [reflexivity | now rewrite IH]. Qed.

Lemma bytes_length (s : string) : length (list_ascii_of_string s) = String.length s.
Proof. induction s as [|c s IH]; simpl; [reflexivity | now rewrite IH]. Qed.

Lemma bytes_inj (a b : string) :
  list_ascii_of_string a = list_ascii_of_string b -> a = b.
Proof.
  intros H. rewrite <- (string_of_list_ascii_of_string a), H.
  apply string_of_list_ascii_of_string.
Qed.

Lemma of_bytes_app (l1 l2 : list ascii) :
  string_of_list_ascii (l1 ++ l2) = string_of_list_ascii l1 +:+ string_of_list_ascii l2.
Proof. induction l1 as [|c l IH]; simpl; [reflexivity | now rewrite IH]. Qed.

Lemma of_bytes (l : list ascii) : list_ascii_of_string (string_of_list_ascii l) = l.
Proof. apply list_ascii_of_string_of_list_ascii. Qed.

(** ** The matcher against a declarative reading of the patterns *)
Module RegexpFacts.
Import Regexp RegexpSpec.

Lemma rep_sound {A} c lo hi s (k : list ascii -> list ascii -> option A) r :
  rep c lo hi s k = Some r ->
  exists m rest, s = m ++ rest /\ all_in c m /\ lo <= length m /\
                 le_hi (length m) hi /\ k m rest = Some r.
Proof.
  revert lo hi k.
  induction s as [|ch s IH]; intros lo hi k H; simpl in H.
  - destruct lo; [|discriminate].
    exists [], []. repeat split; simpl; auto; try constructor.
    destruct hi; simpl; lia.
  - assert (Hstop : match lo with O => k [] (ch :: s) | S _ => None end = Some r ->
                    exists m rest, ch :: s = m ++ rest /\ all_in c m /\ lo <= length m /\
                                   le_hi (length m) hi /\ k m rest = Some r).
    { intros Hs. destruct lo; [|discriminate].
      exists [], (ch :: s). repeat split; simpl; auto; try constructor.
      destruct hi; simpl; lia. }
    destruct (c ch && hi_pos hi) eqn:Hc; [|auto].
    destruct (rep c (pred lo) (hi_pred hi) s (fun m rest => k (ch :: m) rest)) as [r'|] eqn:Hr;
      [|auto].
    inversion H; subst r'. apply IH in Hr as (m & rest & -> & Hm & Hlo & Hhi & Hk).
    apply andb_true_iff in Hc as [Hc Hp].
    exists (ch :: m), rest. repeat split; auto.
    + constructor; auto.
    + simpl. lia.
    + destruct hi as [[|h]|]; simpl in *; try discriminate; auto. lia.
Qed.

Lemma rep_complete {A} c lo hi (k : list ascii -> list ascii -> option A) m rest :
  all_in c m -> lo <= length m -> le_hi (length m) hi -> is_Some (k m rest) ->
  is_Some (rep c lo hi (m ++ rest) k).
Proof.
  revert lo hi k.
  induction m as [|x m IH]; intros lo hi k Hm Hlo Hhi Hk; simpl in *.
  - assert (lo = 0) by lia. subst lo.
    destruct rest as [|ch s]; simpl; auto.
    destruct (c ch && hi_pos hi); auto.
    destruct (rep c 0 (hi_pred hi) s _); eauto.
  - inversion Hm as [|? ? Hx Hm']; subst.
    assert (Hp : hi_pos hi = true).
    { destruct hi as [[|h]|]; simpl in *; auto. lia. }
    rewrite Hx, Hp. simpl.
    assert (Hrec : is_Some (rep c (pred lo) (hi_pred hi) (m ++ rest)
                              (fun m0 rest0 => k (x :: m0) rest0))).
    { apply IH; auto; [lia|].
      destruct hi as [h|]; simpl in *; auto. lia. }
    destruct Hrec as [r Hr]. rewrite Hr. eauto.
Qed.

Lemma match_items_sound its at_eol s acc cs rest :
  match_items its at_eol s acc = Some (cs, rest) ->
  exists caps, cs = acc ++ caps /\ splits its at_eol s caps rest.
Proof.
  revert s acc.
  induction its as [|it its IH]; intros s acc H; simpl in H.
  - exists []. rewrite app_nil_r. simpl.
    destruct at_eol.
    + destruct s; [|discriminate]. inversion H; subst. auto.
    + inversion H; subst. repeat split; auto. discriminate.
  - apply rep_sound in H as (m & s' & -> & Hm & Hlo & Hhi & Hk).
    apply IH in Hk as (caps' & -> & Hsp).
    destruct (cap it) eqn:Hcap.
    + exists (m :: caps'). split.
      * now rewrite <- app_assoc.
      * simpl. exists m, s', caps'. rewrite Hcap. auto 10.
    + exists caps'. split; auto.
      simpl. exists m, s', caps'. rewrite Hcap. auto 10.
Qed.

Lemma match_items_complete its at_eol s acc caps rest :
  splits its at_eol s caps rest -> is_Some (match_items its at_eol s acc).
Proof.
  revert s acc caps.
  induction its as [|it its IH]; intros s acc caps H; simpl in *.
  - destruct H as (_ & _ & He). destruct at_eol; eauto.
    rewrite He; eauto.
  - destruct H as (m & s' & caps' & -> & Hm & Hlo & Hhi & Hsp & _).
    apply rep_complete; auto. eapply IH; eauto.
Qed.

End RegexpFacts.

(** ** Suffix stripping *)
Module StripFacts.
Import Regexp RegexpSpec RegexpFacts NameShapes.

Lemma search_sound r s ms :
  search r s = Some ms ->
  exists pre suf caps rest, s = pre ++ suf /\ match_here r suf = Some (caps, rest).
Proof.
  induction s as [|ch s IH]; simpl; intros H.
  - destruct (match_here r []) as [[caps rest]|] eqn:Hm; [|discriminate].
    exists [], [], caps, rest. auto.
  - destruct (match_here r (ch :: s)) as [[caps rest]|] eqn:Hm.
    + exists [], (ch :: s), caps, rest. auto.
    + apply IH in H as (pre & suf & caps & rest & -> & Hs).
      exists (ch :: pre), suf, caps, rest. auto.
Qed.

Lemma search_complete r pre suf :
  is_Some (match_here r suf) -> is_Some (search r (pre ++ suf)).
Proof.
  intros [[caps rest] Hm].
  induction pre as [|ch pre IH]; simpl.
  - destruct suf; simpl; rewrite Hm; eauto.
  - destruct (match_here r (ch :: pre ++ suf)) as [[? ?]|]; eauto.
Qed.

(** The first occurrence of a separator determines the split. *)
Lemma split_first (x : ascii) (a b a' b' : list ascii) :
  a ++ x :: b = a' ++ x :: b' -> ~ In x a -> ~ In x a' -> a = a' /\ b = b'.
Proof.
  revert a'. induction a as [|y a IH]; intros [|y' a'] H Ha Ha'; simpl in *.
  - inversion H; auto.
  - inversion H; subst. tauto.
  - inversion H; subst. tauto.
  - inversion H; subst. apply IH in H2 as [-> ->]; auto.
Qed.

(** So does the last one. *)
Lemma split_last (x : ascii) (a b a' b' : list ascii) :
  a ++ x :: b = a' ++ x :: b' -> ~ In x b -> ~ In x b' -> a = a' /\ b = b'.
Proof.
  intros H Hb Hb'.
  assert (Hr : rev b ++ x :: rev a = rev b' ++ x :: rev a').
  { apply (f_equal (@rev ascii)) in H.
    rewrite !rev_app_distr in H. simpl in H. now rewrite <- !app_assoc in H. }
  apply split_first in Hr as [Hb1 Ha1]; try (rewrite <- in_rev; assumption).
  split.
  - rewrite <- (rev_involutive a), Ha1. apply rev_involutive.
  - rewrite <- (rev_involutive b), Hb1. apply rev_involutive.
Qed.

Lemma all_in_not_in (c : cclass) (x : ascii) (l : list ascii) :
  c x = false -> all_in c l -> ~ In x l.
Proof.
  intros Hx Hl Hin. unfold all_in in Hl. rewrite Forall_forall in Hl.
  apply list_elem_of_In in Hin. apply Hl in Hin. congruence.
Qed.

Lemma all_in_lit (x : ascii) (l : list ascii) :
  all_in (lit x) l -> length l = 1 -> l = [x].
Proof.
  intros Hl Hn. destruct l as [|y [|? ?]]; try discriminate.
  inversion Hl as [|? ? Hy _]; subst. unfold lit in Hy.
  apply Ascii.eqb_eq in Hy. now subst.
Qed.

Lemma all_in_lit_self (x : ascii) : all_in (lit x) [x].
Proof. repeat constructor. unfold lit. apply Ascii.eqb_refl. Qed.

Ltac split_item H m s' c :=
  let Hm := fresh "Hcls" in let Hlo := fresh "Hlo" in let Hhi := fresh "Hhi" in
  destruct H as (m & s' & c & -> & Hm & Hlo & Hhi & H & ->).

Lemma ordinal_match (n : list ascii) :
  is_Some (find statefulSetOrdinalPattern n) <-> ordinal_l n.
Proof.
  unfold find; simpl bol. split.
  - intros [ms H]. apply search_sound in H as (pre & suf & caps & rest & -> & H).
    apply match_items_sound in H as (caps' & _ & H). simpl in H.
    split_item H m1 s1 c1. split_item H m2 s2 c2.
    destruct H as (_ & _ & He). specialize (He eq_refl). subst s2.
    simpl in *. rewrite (all_in_lit "-"%char m1) by (auto; lia).
    exists pre, m2. rewrite app_nil_r. simpl. auto.
  - intros (pre & d & -> & Hn & Hd).
    apply search_complete. unfold match_here.
    apply match_items_complete with (caps := []) (rest := []). simpl.
    exists ["-"%char], d, []. repeat split; simpl; auto using all_in_lit_self.
    exists d, [], []. rewrite app_nil_r. repeat split; simpl; auto; lia.
Qed.

Lemma anchored_whole (n : list ascii) : take (length n - length (@nil ascii)) n = n.
Proof. simpl. rewrite Nat.sub_0_r. apply firstn_all. Qed.

Lemma dash_not_lower_alnum : lower_alnum "-"%char = false.
Proof. reflexivity. Qed.

Lemma replicaset_unique (n p p' : list ascii) :
  replicaset_l n p -> replicaset_l n p' -> p = p'.
Proof.
  intros (h & r & -> & _ & Hh & _ & Hr) (h' & r' & E & _ & Hh' & _ & Hr').
  replace (p ++ "-"%char :: h ++ "-"%char :: r)
    with ((p ++ "-"%char :: h) ++ "-"%char :: r) in E
    by (rewrite <- app_assoc; reflexivity).
  replace (p' ++ "-"%char :: h' ++ "-"%char :: r')
    with ((p' ++ "-"%char :: h') ++ "-"%char :: r') in E
    by (rewrite <- app_assoc; reflexivity).
  apply split_last in E as [E _];
    try (apply (all_in_not_in lower_alnum); auto using dash_not_lower_alnum).
  apply split_last in E as [E _];
    try (apply (all_in_not_in lower_alnum); auto using dash_not_lower_alnum).
  auto.
Qed.

Lemma hash_unique (n p p' : list ascii) : hash_l n p -> hash_l n p' -> p = p'.
Proof.
  intros (h & -> & _ & Hh) (h' & E & _ & Hh').
  apply split_last in E as [E _];
    try (apply (all_in_not_in lower_alnum); auto using dash_not_lower_alnum).
  auto.
Qed.

Lemma replicaset_match_sound (n : list ascii) ms :
  find replicaSetPattern n = Some ms ->
  exists p, ms = [n; p] /\ prefix_l p /\ replicaset_l n p.
Proof.
  unfold find; simpl bol.
  destruct (match_here replicaSetPattern n) as [[caps rest]|] eqn:H; [|discriminate].
  intros E; inversion E; subst ms; clear E.
  apply match_items_sound in H as (caps' & -> & H). simpl in H.
  split_item H m1 s1 c1. split_item H m2 s2 c2. split_item H m3 s3 c3.
  split_item H m4 s4 c4. split_item H m5 s5 c5.
  destruct H as (-> & -> & He). specialize (He eq_refl). subst s5.
  simpl in *. rewrite (all_in_lit "-"%char m2), (all_in_lit "-"%char m4) by (auto; lia).
  rewrite app_nil_r. exists m1. split; [|split].
  - f_equal. rewrite Nat.sub_0_r. apply firstn_all.
  - split; auto. intros ->. simpl in *. lia.
  - exists m3, m5. simpl. repeat split; auto; lia.
Qed.

Lemma replicaset_match_complete (n p : list ascii) :
  prefix_l p -> replicaset_l n p -> find replicaSetPattern n = Some [n; p].
Proof.
  intros Hp Hn.
  assert (Hs : is_Some (find replicaSetPattern n)).
  { unfold find; simpl bol.
    assert (Hm : is_Some (match_here replicaSetPattern n)).
    { destruct Hp as [Hne Hdot]. destruct Hn as (h & r & -> & Hh & Hha & Hr & Hra).
      unfold match_here. apply match_items_complete with (caps := [p]) (rest := []).
      simpl. exists p, ("-"%char :: h ++ "-"%char :: r), []. repeat split; auto.
      { destruct p; [congruence | simpl; lia]. }
      exists ["-"%char], (h ++ "-"%char :: r), [].
      repeat split; simpl; auto using all_in_lit_self.
      exists h, ("-"%char :: r), []. repeat split; simpl; auto; try lia.
      exists ["-"%char], r, []. repeat split; simpl; auto using all_in_lit_self.
      exists r, [], []. rewrite app_nil_r. repeat split; simpl; auto; lia. }
    destruct Hm as [[caps rest] Hm]. rewrite Hm. eauto. }
  destruct Hs as [ms Hms]. rewrite Hms.
  apply replicaset_match_sound in Hms as (p' & -> & _ & Hn').
  now rewrite (replicaset_unique n p p').
Qed.

Lemma hash_match_sound (n : list ascii) ms :
  find deploymentPattern n = Some ms ->
  exists p, ms = [n; p] /\ prefix_l p /\ hash_l n p.
Proof.
  unfold find; simpl bol.
  destruct (match_here deploymentPattern n) as [[caps rest]|] eqn:H; [|discriminate].
  intros E; inversion E; subst ms; clear E.
  apply match_items_sound in H as (caps' & -> & H). simpl in H.
  split_item H m1 s1 c1. split_item H m2 s2 c2. split_item H m3 s3 c3.
  destruct H as (-> & -> & He). specialize (He eq_refl). subst s3.
  simpl in *. rewrite (all_in_lit "-"%char m2) by (auto; lia).
  rewrite app_nil_r. exists m1. split; [|split].
  - f_equal. rewrite Nat.sub_0_r. apply firstn_all.
  - split; auto. intros ->. simpl in *. lia.
  - exists m3. simpl. repeat split; auto; lia.
Qed.

Lemma hash_match_complete (n p : list ascii) :
  prefix_l p -> hash_l n p -> find deploymentPattern n = Some [n; p].
Proof.
  intros Hp Hn.
  assert (Hs : is_Some (find deploymentPattern n)).
  { unfold find; simpl bol.
    assert (Hm : is_Some (match_here deploymentPattern n)).
    { destruct Hp as [Hne Hdot]. destruct Hn as (h & -> & Hh & Hha).
      unfold match_here. apply match_items_complete with (caps := [p]) (rest := []).
      simpl. exists p, ("-"%char :: h), []. repeat split; auto.
      { destruct p; [congruence | simpl; lia]. }
      exists ["-"%char], h, [].
      repeat split; simpl; auto using all_in_lit_self.
      exists h, [], []. rewrite app_nil_r. repeat split; simpl; auto; lia. }
    destruct Hm as [[caps rest] Hm]. rewrite Hm. eauto. }
  destruct Hs as [ms Hms]. rewrite Hms.
  apply hash_match_sound in Hms as (p' & -> & _ & Hn').
  now rewrite (hash_unique n p p').
Qed.

End StripFacts.

(** The name shapes on strings and on bytes agree. *)
Module ShapeBridge.
Import Regexp RegexpSpec NameShapes.

Lemma ordinal_bridge (name : string) :
  ends_with_ordinal name <-> ordinal_l (list_ascii_of_string name).
Proof.
  split.
  - intros (pre & d & -> & Hn & Hd).
    exists (list_ascii_of_string pre), (list_ascii_of_string d).
    rewrite !bytes_app, bytes_length. auto.
  - intros (pre & d & E & Hn & Hd).
    exists (string_of_list_ascii pre), (string_of_list_ascii d).
    unfold digits, all_chars. rewrite <- bytes_length, of_bytes.
    repeat split; auto; try lia.
    apply bytes_inj. now rewrite !bytes_app, !of_bytes.
Qed.

Lemma replicaset_bridge (name p : string) :
  has_replicaset_suffix name p <->
  replicaset_l (list_ascii_of_string name) (list_ascii_of_string p).
Proof.
  split.
  - intros (h & r & -> & Hh & Hha & Hr & Hra).
    exists (list_ascii_of_string h), (list_ascii_of_string r).
    rewrite !bytes_app, !bytes_length. auto 10.
  - intros (h & r & E & Hh & Hha & Hr & Hra).
    exists (string_of_list_ascii h), (string_of_list_ascii r).
    unfold lowercase_alnum, all_chars. rewrite <- !bytes_length, !of_bytes.
    repeat split; auto; try lia.
    apply bytes_inj. now rewrite !bytes_app, !of_bytes.
Qed.

Lemma hash_bridge (name p : string) :
  has_hash_suffix name p <->
  hash_l (list_ascii_of_string name) (list_ascii_of_string p).
Proof.
  split.
  - intros (h & -> & Hh & Hha).
    exists (list_ascii_of_string h). rewrite !bytes_app, !bytes_length. auto.
  - intros (h & E & Hh & Hha).
    exists (string_of_list_ascii h).
    unfold lowercase_alnum, all_chars. rewrite <- !bytes_length, !of_bytes.
    repeat split; auto; try lia.
    apply bytes_inj. now rewrite !bytes_app, !of_bytes.
Qed.

Lemma prefix_bridge (p : string) :
  line_prefix p <-> prefix_l (list_ascii_of_string p).
Proof.
  unfold line_prefix, prefix_l, all_chars. split; intros [Hne Hd]; split; auto.
  - intros E. apply Hne. apply bytes_inj. now rewrite E.
  - intros ->. now apply Hne.
Qed.

(** What [stripKubernetesSuffixes] returns in each of its four branches. *)
Lemma strip_ordinal (name : string) :
  ends_with_ordinal name -> stripKubernetesSuffixes name = name.
Proof.
  intros H. apply ordinal_bridge, StripFacts.ordinal_match in H as [ms H].
  unfold stripKubernetesSuffixes, MatchString. now rewrite H.
Qed.

Lemma strip_not_ordinal (name : string) :
  ~ ends_with_ordinal name ->
  MatchString statefulSetOrdinalPattern name = false.
Proof.
  intros H. unfold MatchString.
  destruct (find statefulSetOrdinalPattern (list_ascii_of_string name)) eqn:E; auto.
  exfalso. apply H, ordinal_bridge, StripFacts.ordinal_match. eauto.
Qed.

Lemma strip_replicaset (name p : string) :
  ~ ends_with_ordinal name -> line_prefix p -> has_replicaset_suffix name p ->
  stripKubernetesSuffixes name = p.
Proof.
  intros Ho Hp Hn. unfold stripKubernetesSuffixes.
  rewrite strip_not_ordinal by assumption.
  unfold FindStringSubmatch.
  rewrite (StripFacts.replicaset_match_complete _ (list_ascii_of_string p))
    by (now apply prefix_bridge || now apply replicaset_bridge).
  simpl. apply string_of_list_ascii_of_string.
Qed.

Lemma no_replicaset_match (name : string) :
  (forall p, line_prefix p -> ~ has_replicaset_suffix name p) ->
  FindStringSubmatch replicaSetPattern name = [].
Proof.
  intros H. unfold FindStringSubmatch.
  destruct (find replicaSetPattern (list_ascii_of_string name)) as [ms|] eqn:E; auto.
  exfalso. apply StripFacts.replicaset_match_sound in E as (p & _ & Hp & Hn).
  apply (H (string_of_list_ascii p)).
  - apply prefix_bridge. now rewrite of_bytes.
  - apply replicaset_bridge. now rewrite of_bytes.
Qed.

Lemma strip_hash (name p : string) :
  ~ ends_with_ordinal name ->
  (forall q, line_prefix q -> ~ has_replicaset_suffix name q) ->
  line_prefix p -> has_hash_suffix name p ->
  stripKubernetesSuffixes name = p.
Proof.
  intros Ho Hr Hp Hn. unfold stripKubernetesSuffixes.
  rewrite strip_not_ordinal, no_replicaset_match by assumption.
  unfold FindStringSubmatch.
  rewrite (StripFacts.hash_match_complete _ (list_ascii_of_string p))
    by (now apply prefix_bridge || now apply hash_bridge).
  simpl. apply string_of_list_ascii_of_string.
Qed.

Lemma strip_other (name : string) :
  ~ ends_with_ordinal name ->
  (forall q, line_prefix q -> ~ has_replicaset_suffix name q) ->
  (forall q, line_prefix q -> ~ has_hash_suffix name q) ->
  stripKubernetesSuffixes name = name.
Proof.
  intros Ho Hr Hh. unfold stripKubernetesSuffixes.
  rewrite strip_not_ordinal, no_replicaset_match by assumption.
  unfold FindStringSubmatch.
  destruct (find deploymentPattern (list_ascii_of_string name)) as [ms|] eqn:E; auto.
  exfalso. apply StripFacts.hash_match_sound in E as (p & _ & Hp & Hn).
  apply (Hh (string_of_list_ascii p)).
  - apply prefix_bridge. now rewrite of_bytes.
  - apply hash_bridge. now rewrite of_bytes.
Qed.

(** A replica-set suffix puts a dash six bytes before the end. *)
Lemma replicaset_dash (n p : list ascii) :
  replicaset_l n p -> nth_error (rev n) 5 = Some "-"%char.
Proof.
  intros (h & r & -> & _ & _ & Hr & _).
  assert (E : rev (p ++ "-"%char :: h ++ "-"%char :: r)
              = rev r ++ "-"%char :: (rev h ++ "-"%char :: rev p)).
  { rewrite rev_app_distr. cbn [rev]. rewrite rev_app_distr. cbn [rev].
    rewrite <- !app_assoc. reflexivity. }
  rewrite E, nth_error_app2; rewrite length_rev, Hr; [|lia].
  reflexivity.
Qed.

(** In a workload name, what stands in front of a dash is a prefix the group
    [(.+)] accepts. *)
Lemma workload_prefix (name p rest : string) :
  workload_name name -> name = p +:+ "-" +:+ rest -> line_prefix p.
Proof.
  intros [Hd Hs] ->. split.
  - intros ->. simpl in Hs. destruct rest; discriminate.
  - unfold all_chars, all_in in *. rewrite bytes_app in Hd.
    now apply Forall_app in Hd as [Hd _].
Qed.

Lemma replicaset_prefix (name p : string) :
  workload_name name -> has_replicaset_suffix name p -> line_prefix p.
Proof. intros Hw (h & r & E & _). exact (workload_prefix _ _ _ Hw E). Qed.

Lemma hash_prefix (name p : string) :
  workload_name name -> has_hash_suffix name p -> line_prefix p.
Proof. intros Hw (h & E & _). exact (workload_prefix _ _ _ Hw E). Qed.

Lemma dns_char_dot (c : ascii) : dns_char c = true -> dot c = true.
Proof. destruct c as [[] [] [] [] [] [] [] []]; (discriminate || reflexivity). Qed.

Lemma lower_alnum_not_dash (c : ascii) :
  lower_alnum c = true -> Ascii.eqb "-" c = false.
Proof. destruct c as [[] [] [] [] [] [] [] []]; (discriminate || reflexivity). Qed.

(** Every name Kubernetes accepts for a pod is a workload name. *)
Lemma dns_subdomain_workload (name : string) :
  dns_subdomain name -> workload_name name.
Proof.
  intros [Hc (c & rest & -> & Ha)]. split.
  - unfold all_chars, all_in in *.
    eapply Forall_impl; [exact Hc | exact dns_char_dot].
  - unfold gostrings.HasPrefix. cbn [String.prefix].
    destruct (ascii_dec "-" c) as [<-|Hne]; [discriminate Ha|reflexivity].
Qed.

End ShapeBridge.

(** C4: on every workload name [stripKubernetesSuffixes] follows the four
    ordered rules: a name ending in [-] and 1 to 3 digits is returned
    unchanged; otherwise a name [prefix-h-r] with [h] of 8 to 10 and [r] of 5
    lowercase alphanumerics yields [prefix]; otherwise a name [prefix-h] with
    [h] of 8 to 10 lowercase alphanumerics yields [prefix]; otherwise the
    name is returned unchanged.  A workload name has no line feed and does
    not start with a dash, as every name of a Kubernetes pod.  The three
    named examples evaluate as stated. *)
Theorem stripKubernetesSuffixes_rules :
  (forall name, workload_name name ->
     (ends_with_ordinal name -> stripKubernetesSuffixes name = name) /\
     (~ ends_with_ordinal name ->
      forall p, has_replicaset_suffix name p ->
      stripKubernetesSuffixes name = p) /\
     (~ ends_with_ordinal name ->
      (forall q, ~ has_replicaset_suffix name q) ->
      forall p, has_hash_suffix name p ->
      stripKubernetesSuffixes name = p) /\
     (~ ends_with_ordinal name ->
      (forall q, ~ has_replicaset_suffix name q) ->
      (forall q, ~ has_hash_suffix name q) ->
      stripKubernetesSuffixes name = name)) /\
  (forall name, dns_subdomain name -> workload_name name) /\
  stripKubernetesSuffixes "nginx-deployment-7b5d9c6f8-xyz12" = "nginx-deployment" /\
  stripKubernetesSuffixes "redis-statefulset-0" = "redis-statefulset-0" /\
  stripKubernetesSuffixes "api-server-5f7d8c9b2a" = "api-server".
Proof.
  split; [|split; [exact ShapeBridge.dns_subdomain_workload | repeat split; reflexivity]].
  intros name Hw. repeat split.
  - apply ShapeBridge.strip_ordinal.
  - intros Ho p Hn. apply ShapeBridge.strip_replicaset; auto.
    exact (ShapeBridge.replicaset_prefix _ _ Hw Hn).
  - intros Ho Hr p Hn. apply ShapeBridge.strip_hash; auto.
    exact (ShapeBridge.hash_prefix _ _ Hw Hn).
  - intros Ho Hr Hh. apply ShapeBridge.strip_other; auto.
Qed.

(** The rule for replica-set names at [plex-7b5d9c6f8-abcde]. *)
Lemma stripKubernetesSuffixes_rules_witness :
  stripKubernetesSuffixes "plex-7b5d9c6f8-abcde" = "plex".
Proof.
  apply (proj1 (proj2 (proj1 stripKubernetesSuffixes_rules "plex-7b5d9c6f8-abcde"
                         ltac:(split; [unfold all_chars; simpl; repeat constructor
                                      | reflexivity])))).
  - intros H. apply ShapeBridge.ordinal_bridge, StripFacts.ordinal_match in H as [ms H].
    vm_compute in H. discriminate.
  - exists "7b5d9c6f8", "abcde". unfold lowercase_alnum, all_chars. simpl.
    repeat split; try lia; repeat constructor.
Defined.

(** The rules are those of workload names.  A name with a line feed is not
    one, and the group [(.+)] does not reach across a line feed:
    [two_line_name] is [two_line_prefix] followed by a dash and eight
    lowercase alphanumerics, and is returned unchanged. *)
Lemma stripKubernetesSuffixes_line_feed :
  ~ workload_name two_line_name /\
  ~ ends_with_ordinal two_line_name /\
  (forall p, ~ has_replicaset_suffix two_line_name p) /\
  has_hash_suffix two_line_name two_line_prefix /\
  stripKubernetesSuffixes two_line_name = two_line_name.
Proof.
  split; [|repeat split].
  - intros [H _]. unfold all_chars, RegexpSpec.all_in in H. simpl in H.
    inversion H as [|? ? _ H1]; subst. inversion H1 as [|? ? H2 _]; subst.
    discriminate H2.
  - intros H. apply ShapeBridge.ordinal_bridge, StripFacts.ordinal_match in H as [ms H].
    vm_compute in H. discriminate.
  - intros p H. apply ShapeBridge.replicaset_bridge, ShapeBridge.replicaset_dash in H.
    vm_compute in H. discriminate.
  - exists "abcdefgh". repeat split; simpl; try lia.
    unfold lowercase_alnum, all_chars. simpl. repeat constructor.
Qed.

(** ** Hostname sanitization *)
Module SanitizeFacts.
Import Regexp HostnameSpec.

Lemma rep_zero {A} c s (k : list ascii -> list ascii -> option A) :
  rep c 0 (Some 0) s k = k [] s.
Proof. destruct s; simpl; [reflexivity | now rewrite andb_false_r]. Qed.

(** A greedy unbounded repetition in front of a continuation that cannot fail
    takes all the leading bytes of its class. *)
Lemma rep_greedy {A} c (f : list ascii -> list ascii -> A) s lo :
  rep c lo None s (fun m rest => Some (f m rest)) =
  if (lo <=? leading c s)%nat
  then Some (f (take (leading c s) s) (drop (leading c s) s))
  else None.
Proof.
  revert lo f. induction s as [|ch s IH]; intros lo f; simpl.
  - destruct lo; reflexivity.
  - destruct (c ch) eqn:Hc; simpl.
    + rewrite (IH (pred lo) (fun m rest => f (ch :: m) rest)).
      destruct lo as [|lo]; simpl; [reflexivity|].
      destruct (lo <=? leading c s)%nat; reflexivity.
    + destruct lo; reflexivity.
Qed.

Lemma invalid_match (ch : ascii) (s : list ascii) :
  match_here hostnameInvalidCharsPattern (ch :: s) =
  if not_hostname_char ch then Some ([], s) else None.
Proof.
  unfold match_here. simpl.
  destruct (not_hostname_char ch); simpl; [|reflexivity].
  now rewrite rep_zero.
Qed.

Lemma not_hostname_char_spec (c : ascii) :
  not_hostname_char c = negb (is_lower c || is_digit c || is_dash c).
Proof. reflexivity. Qed.

Lemma replace_invalid_eq (l : list ascii) :
  replace_all hostnameInvalidCharsPattern ["-"%char] 0 l = replace_invalid l.
Proof.
  induction l as [|ch l IH]; [reflexivity|].
  cbn [replace_all]. rewrite invalid_match, not_hostname_char_spec.
  unfold replace_invalid in *. cbn [map].
  destruct (is_lower ch || is_digit ch || is_dash ch); simpl.
  - now rewrite IH.
  - replace (S (length l) - length l) with 1 by lia.
    now rewrite IH.
Qed.

Lemma dash_match (s : list ascii) :
  match_here hostnameMultipleDashPattern s =
  if (1 <=? leading is_dash s)%nat then Some ([], drop (leading is_dash s) s) else None.
Proof.
  unfold match_here. cbn [items eol hostnameMultipleDashPattern match_items plus cls rmin rmax cap].
  apply (rep_greedy (lit "-") (fun _ rest => ([], rest))).
Qed.

Lemma leading_le c (l : list ascii) : leading c l <= length l.
Proof. induction l as [|x l IH]; simpl; [lia|]. destruct (c x); simpl; lia. Qed.

Lemma collapse_eq (l : list ascii) :
  replace_all hostnameMultipleDashPattern ["-"%char] (leading is_dash l) l
    = collapse_from true l /\
  replace_all hostnameMultipleDashPattern ["-"%char] 0 l = collapse_from false l.
Proof.
  induction l as [|ch l [IHt IHf]]; [split; reflexivity|].
  assert (Hf : replace_all hostnameMultipleDashPattern ["-"%char] 0 (ch :: l)
               = collapse_from false (ch :: l)).
  { cbn [replace_all]. rewrite dash_match. cbn [leading collapse_from].
    destruct (is_dash ch) eqn:Hd.
    - cbn [Nat.leb]. rewrite length_drop.
      pose proof (leading_le is_dash l) as Hle.
      replace (length (ch :: l) - (length (ch :: l) - S (leading is_dash l)))
        with (S (leading is_dash l)) by (simpl; lia).
      rewrite IHt. simpl. f_equal.
      unfold is_dash in Hd. apply Ascii.eqb_eq in Hd. now subst.
    - simpl. now rewrite IHf. }
  split; [|exact Hf].
  cbn [leading]. destruct (is_dash ch) eqn:Hd.
  - cbn [replace_all collapse_from]. now rewrite Hd.
  - rewrite Hf. cbn [collapse_from]. now rewrite Hd.
Qed.

Lemma trim_left_eq (l : list ascii) :
  gostrings.trim_left (gostrings.in_cutset "-") l = drop_dashes l.
Proof.
  induction l as [|c l IH]; [reflexivity|]. simpl.
  unfold gostrings.in_cutset, is_dash. simpl. rewrite orb_false_r.
  destruct (Ascii.eqb c "-"); [exact IH | reflexivity].
Qed.

(** The equations of [lowercase], one first byte at a time. *)
Lemma lowercase_step (c : ascii) (l : list ascii) :
  lowercase (c :: l) =
  match l with
  | [] => [lower_letter c]
  | c2 :: l2 =>
      if Ascii.eqb c "196" && Ascii.eqb c2 "176" then "i"%char :: lowercase l2
      else
        match l2 with
        | [] => lower_letter c :: lowercase l
        | c3 :: l3 =>
            if Ascii.eqb c "226" && Ascii.eqb c2 "132" && Ascii.eqb c3 "170"
            then "k"%char :: lowercase l3
            else lower_letter c :: lowercase l
        end
  end.
Proof.
  destruct c as [[] [] [] [] [] [] [] []];
    try (destruct l as [|c2 [|c3 l3]]; reflexivity);
    (destruct l as [|[[] [] [] [] [] [] [] []] l2]; [reflexivity|..]);
    try (destruct l2 as [|c3 l3]; reflexivity);
    destruct l2 as [|[[] [] [] [] [] [] [] []] l3]; reflexivity.
Qed.

Lemma Map_ToLower_step (c : ascii) (l : list ascii) :
  gostrings.Map_ToLower (c :: l) =
  match l with
  | [] => [lower_letter c]
  | c2 :: l2 =>
      if Ascii.eqb c "196" && Ascii.eqb c2 "176"
      then "i"%char :: gostrings.Map_ToLower l2
      else
        match l2 with
        | [] => lower_letter c :: gostrings.Map_ToLower l
        | c3 :: l3 =>
            if Ascii.eqb c "226" && Ascii.eqb c2 "132" && Ascii.eqb c3 "170"
            then "k"%char :: gostrings.Map_ToLower l3
            else lower_letter c :: gostrings.Map_ToLower l
        end
  end.
Proof. destruct l as [|c2 [|c3 l3]]; reflexivity. Qed.

Lemma Map_ToLower_eq (l : list ascii) : gostrings.Map_ToLower l = lowercase l.
Proof.
  remember (length l) as n eqn:Hn. revert l Hn.
  induction n as [n IH] using lt_wf_ind. intros l Hn.
  destruct l as [|c l]; [reflexivity|].
  rewrite Map_ToLower_step, lowercase_step.
  assert (Hl : gostrings.Map_ToLower l = lowercase l)
    by (apply (IH (length l)); [subst n; simpl; lia | reflexivity]).
  destruct l as [|c2 l2]; [reflexivity|].
  assert (Hl2 : gostrings.Map_ToLower l2 = lowercase l2)
    by (apply (IH (length l2)); [subst n; simpl; lia | reflexivity]).
  destruct (Ascii.eqb c "196" && Ascii.eqb c2 "176"); [now rewrite Hl2|].
  destruct l2 as [|c3 l3]; [now rewrite Hl|].
  assert (Hl3 : gostrings.Map_ToLower l3 = lowercase l3)
    by (apply (IH (length l3)); [subst n; simpl; lia | reflexivity]).
  destruct (Ascii.eqb c "226" && Ascii.eqb c2 "132" && Ascii.eqb c3 "170");
    [now rewrite Hl3 | now rewrite Hl].
Qed.

Lemma ascii_not_lead (c : ascii) :
  gostrings.is_ascii c = true -> Ascii.eqb c "196" = false /\ Ascii.eqb c "226" = false.
Proof. destruct c as [[] [] [] [] [] [] [] []]; (discriminate || (split; reflexivity)). Qed.

(** The fast path of [strings.ToLower]: on ASCII bytes nothing but the
    capital letters changes. *)
Lemma lowercase_ascii (l : list ascii) :
  forallb gostrings.is_ascii l = true -> lowercase l = map gostrings.to_lower_byte l.
Proof.
  induction l as [|c l IH]; [reflexivity|]. cbn [forallb]. intros H.
  apply andb_true_iff in H as [Hc Hl]. rewrite lowercase_step.
  destruct (ascii_not_lead c Hc) as [H1 H2]. rewrite H1, H2. cbn [andb map].
  rewrite <- (IH Hl).
  destruct l as [|c2 [|c3 l3]]; reflexivity.
Qed.

Lemma no_upper_fixed (l : list ascii) :
  existsb gostrings.is_upper_byte l = false -> map gostrings.to_lower_byte l = l.
Proof.
  induction l as [|c l IH]; [reflexivity|]. cbn [existsb map]. intros H.
  apply orb_false_iff in H as [Hc Hl]. rewrite (IH Hl). f_equal.
  unfold gostrings.to_lower_byte. unfold gostrings.is_upper_byte in Hc. now rewrite Hc.
Qed.

Lemma string_of_bytes (s : string) : string_of_list_ascii (list_ascii_of_string s) = s.
Proof. induction s as [|c s IH]; [reflexivity|]. simpl. now rewrite IH. Qed.

Lemma lowercase_eq (s : string) :
  list_ascii_of_string (gostrings.ToLower s) = lowercase (list_ascii_of_string s).
Proof.
  unfold gostrings.ToLower. cbv zeta.
  destruct (forallb gostrings.is_ascii (list_ascii_of_string s)) eqn:Ha.
  - rewrite (lowercase_ascii _ Ha).
    destruct (existsb gostrings.is_upper_byte (list_ascii_of_string s)) eqn:Hu; cbn [negb].
    + now rewrite of_bytes.
    + now rewrite (no_upper_fixed _ Hu).
  - now rewrite of_bytes, Map_ToLower_eq.
Qed.

Lemma sanitize_eq (s : string) : sanitizeHostname s = sanitize s.
Proof.
  unfold sanitizeHostname, sanitize, ReplaceAllString, gostrings.Trim.
  cbn [list_ascii_of_string]. rewrite !of_bytes.
  rewrite lowercase_eq, replace_invalid_eq.
  rewrite (proj2 (collapse_eq _)).
  unfold gostrings.trim_right. rewrite !trim_left_eq.
  fold (collapse_dashes (replace_invalid (lowercase (list_ascii_of_string s)))).
  fold (trim_dashes (collapse_dashes (replace_invalid (lowercase (list_ascii_of_string s))))).
  set (t := trim_dashes _).
  unfold slice_to, truncate63. rewrite <- bytes_length, !of_bytes.
  destruct (63 <? length t)%nat eqn:Hlen; [reflexivity|].
  apply Nat.ltb_ge in Hlen. now rewrite firstn_all2.
Qed.

End SanitizeFacts.

(** C5: [sanitizeHostname] is the pipeline lowercase, replace every character
    outside [a-z0-9-] by a dash, collapse each run of dashes to one dash, trim
    leading and trailing dashes, keep at most the first 63 characters, in that
    order, on every input; [my--pod---name] gives [my-pod-name], [@#$%^&*()]
    gives the empty string and 78 letters a give 63 letters a.  Lowercasing
    is the one of [strings.ToLower]: a name that starts with U+0130 gives
    [istanbul], one that starts with U+212A gives [k8s], and a capital letter
    with an accent is replaced like any character outside [a-z0-9-]. *)
Theorem sanitizeHostname_pipeline :
  (forall s, sanitizeHostname s = HostnameSpec.sanitize s) /\
  sanitizeHostname "my--pod---name" = "my-pod-name" /\
  sanitizeHostname "@#$%^&*()" = "" /\
  sanitizeHostname a78 = a63 /\
  sanitizeHostname "My_Pod.Name" = "my-pod-name" /\
  sanitizeHostname (String "196" (String "176" "stanbul")) = "istanbul" /\
  sanitizeHostname (String "226" (String "132" (String "170" "8s"))) = "k8s" /\
  sanitizeHostname (String "195" (String "137" "cole")) = "cole" /\
  sanitizeHostname ("a" +:+ String "195" (String "137" "b")) = "a-b".
Proof.
  split; [exact SanitizeFacts.sanitize_eq|].
  repeat split; vm_compute; reflexivity.
Qed.

(* ================================================================= *)
(** * The daemon: properties *)

(** ** Running the monad *)
Module Run.

Lemma try_run {A B} (m : M (result A)) (cl : M unit) (msg : string)
    (k : A -> M (result B)) (w : World) :
  try m cl msg k w =
  match m w with
  | (Ok a, w') => k a w'
  | (Err e, w') => (Err (wrap msg e), (cl w').2)
  end.
Proof.
  unfold try, bind. destruct (m w) as [[a|e] w']; [reflexivity|].
  unfold ret. destruct (cl w'); reflexivity.
Qed.

Lemma try_raw_run {A B} (m : M (result A)) (k : A -> M (result B)) (w : World) :
  try_raw m k w =
  match m w with
  | (Ok a, w') => k a w'
  | (Err e, w') => (Err e, w')
  end.
Proof. unfold try_raw, bind. destruct (m w) as [[a|e] w']; reflexivity. Qed.

Lemma seq_run {A B} (m : M A) (k : M B) (w : World) :
  (m ;;; k) w = k (m w).2.
Proof. unfold bind. destruct (m w); reflexivity. Qed.

Lemma bind_run {A B} (m : M A) (k : A -> M B) (w : World) :
  bind m k w = k (m w).1 (m w).2.
Proof. unfold bind. destruct (m w); reflexivity. Qed.

Lemma call_run (c : Call) (w : World) :
  call c w = (tt, set_trace (trace w ++ [c]) w).
Proof. reflexivity. Qed.

Lemma calls_run (cs : list Call) (w : World) :
  calls cs w = (tt, set_trace (trace w ++ cs) w).
Proof.
  revert w. induction cs as [|c cs IH]; intros w; simpl.
  - unfold ret. rewrite app_nil_r. destruct w; reflexivity.
  - rewrite seq_run, call_run, IH. simpl. now rewrite <- app_assoc.
Qed.

Lemma attempt_run (c : Call) (out : option error) (w : World) :
  attempt c out w =
  (match out with None => Ok tt | Some e => Err e end, set_trace (trace w ++ [c]) w).
Proof. reflexivity. Qed.

Lemma warn_only_run (m : M (result unit)) (w : World) :
  warn_only m w = (tt, (m w).2).
Proof. unfold warn_only. now rewrite seq_run. Qed.

Lemma shutdown_run (h : nat) (w : World) :
  shutdown h w =
  (tt, set_live (delete h (live w)) (set_trace (trace w ++ [lb_Shutdown h]) w)).
Proof. reflexivity. Qed.

End Run.

(** ** [CreateAuthKey] *)
Module OAuthFacts.
Import Run.

Ltac trace_ok :=
  simpl; rewrite <- ?app_assoc; simpl;
  first [ eexists; split; [reflexivity | repeat constructor; simpl; auto]
        | exists []; split; [now rewrite app_nil_r | constructor] ].

Ltac only_calls_ok :=
  unfold only_calls; repeat (split; [reflexivity|]); trace_ok.

Ltac run :=
  cbv beta iota zeta
      delta [try try_raw bind ret check query attempt call calls warn_only
             get_oauthMgr update_oauthMgr shutdown fresh register started unregister
             unwind_backend unwind_recovered fst snd];
  cbn [stateDir clusterName oauthMgr servers live next trace
       set_oauthMgr set_servers set_live set_next set_trace
       clientID clientSecret baseURL tags accessToken tokenExpiry lastAuthKey
       with_token with_lastAuthKey].

Lemma CreateAuthKey_effect (env : KeyEnv) (podName namespace : string) (w : World) :
  only_calls (key_call (keyRequest (oauthMgr w) podName namespace)) w
    (CreateAuthKey env podName namespace w).2.
Proof.
  unfold CreateAuthKey, getAccessToken. run.
  destruct (k_sem env); run; [only_calls_ok|].
  destruct (k_now env - lastAuthKey (oauthMgr w) <? authKeyMinInterval)%Z; run;
    [destruct (k_sleep env); run; [only_calls_ok|] |].
  all: destruct (negb (String.eqb (accessToken (oauthMgr w)) "") &&
            (k_tokenNow env + 5 * Minute <? tokenExpiry (oauthMgr w))%Z); run.
  - destruct (k_marshal env); run; [only_calls_ok|].
    destruct (k_keyNewRequest env); run; [only_calls_ok|].
    destruct (k_keyDo env) as [resp|e]; run; [|only_calls_ok].
    destruct (negb (StatusCode resp =? StatusOK)%Z); run; [only_calls_ok|].
    destruct (Decoded resp); run; only_calls_ok.
  - destruct (k_tokenNewRequest env); run; [only_calls_ok|].
    destruct (k_tokenDo env) as [tresp|e]; run; [|only_calls_ok].
    destruct (negb (StatusCode tresp =? StatusOK)%Z); run; [only_calls_ok|].
    destruct (Decoded tresp); run; [|only_calls_ok].
    destruct (k_marshal env); run; [only_calls_ok|].
    destruct (k_keyNewRequest env); run; [only_calls_ok|].
    destruct (k_keyDo env) as [resp|e]; run; [|only_calls_ok].
    destruct (negb (StatusCode resp =? StatusOK)%Z); run; [only_calls_ok|].
    destruct (Decoded resp); run; only_calls_ok.
  - destruct (k_marshal env); run; [only_calls_ok|].
    destruct (k_keyNewRequest env); run; [only_calls_ok|].
    destruct (k_keyDo env) as [resp|e]; run; [|only_calls_ok].
    destruct (negb (StatusCode resp =? StatusOK)%Z); run; [only_calls_ok|].
    destruct (Decoded resp); run; only_calls_ok.
  - destruct (k_tokenNewRequest env); run; [only_calls_ok|].
    destruct (k_tokenDo env) as [tresp|e]; run; [|only_calls_ok].
    destruct (negb (StatusCode tresp =? StatusOK)%Z); run; [only_calls_ok|].
    destruct (Decoded tresp); run; [|only_calls_ok].
    destruct (k_marshal env); run; [only_calls_ok|].
    destruct (k_keyNewRequest env); run; [only_calls_ok|].
    destruct (k_keyDo env) as [resp|e]; run; [|only_calls_ok].
    destruct (negb (StatusCode resp =? StatusOK)%Z); run; [only_calls_ok|].
    destruct (Decoded resp); run; only_calls_ok.
Qed.

End OAuthFacts.

(** ** [setupVethBridge] *)
Module BridgeFacts.
Import Run OAuthFacts.

Ltac leaf := split; [only_calls_ok | cbn; eauto].

Ltac fatal f :=
  destruct f; run; cbn [first_error]; [leaf|].

(** [setupVethBridge] makes netlink and sysctl calls only, and returns the
    first fatal error, or the name of the host-side end when there is none. *)
Lemma setupVethBridge_effect (env : BridgeEnv) (netnsPath podIfName tunName : string)
    (ip : netip_Addr) (mtu : Z) (w : World) :
  only_calls no_tun w (setupVethBridge env netnsPath podIfName tunName ip mtu w).2 /\
  match bridge_fatal env with
  | Some e => (setupVethBridge env netnsPath podIfName tunName ip mtu w).1 = Err e
  | None => exists name, (setupVethBridge env netnsPath podIfName tunName ip mtu w).1 = Ok name
  end.
Proof.
  unfold setupVethBridge, bridge_fatal. run. cbn [first_error].
  fatal (b_GetNS env).
  destruct (b_rand env) as [bytes|e]; run; cbn [first_error]; [|leaf].
  fatal (b_nsDo env).
  fatal (b_LinkAdd env).
  fatal (b_podLinkByName env).
  fatal (b_peerLinkByName env).
  fatal (b_LinkSetNsFd env).
  fatal (b_AddrAdd env).
  fatal (b_podLinkSetUp env).
  fatal (b_nsRouteAdd env).
  fatal (b_hostLinkByName env).
  fatal (b_hostLinkSetUp env).
  fatal (b_tunLinkByName env).
  leaf.
Qed.

End BridgeFacts.

(** ** [AddPod] *)
Module AddFacts.
Import Run OAuthFacts BridgeFacts.

Lemma saveMetadata_effect (marshal write : option error) (c : string) (m : ManagedServer)
    (netns : string) (w : World) :
  only_calls no_tun w (saveMetadata marshal write c m netns w).2.
Proof.
  unfold saveMetadata. run. destruct marshal; run; only_calls_ok.
Qed.

Lemma only_calls_impl (P Q : Call -> Prop) (w w' : World) :
  (forall c, P c -> Q c) -> only_calls P w w' -> only_calls Q w w'.
Proof.
  intros HPQ (H1 & H2 & H3 & H4 & H5 & H6 & cs & Ht & Hcs).
  repeat (split; [assumption|]). exists cs. split; [assumption|].
  eapply Forall_impl; eauto.
Qed.

Lemma key_call_tun_named (req : authKeyRequest) (name : string) (c : Call) :
  key_call req c -> tun_named name c.
Proof. destruct c; simpl; tauto. Qed.

Lemma no_tun_tun_named (name : string) (c : Call) : no_tun c -> tun_named name c.
Proof. destruct c; simpl; tauto. Qed.

Ltac proj :=
  cbn [fst snd stateDir clusterName oauthMgr servers live next trace
       set_oauthMgr set_servers set_live set_next set_trace
       Backend ContainerID] in *.

Ltac trace_goal :=
  repeat match goal with H : trace _ = _ |- _ => rewrite H; clear H end;
  rewrite <- ?app_assoc; eexists; split; [reflexivity|];
  rewrite ?Forall_app; repeat split; try assumption;
  try (eapply Forall_impl; [eassumption | apply no_tun_tun_named]);
  repeat (apply List.Forall_cons; [simpl; auto|]); apply List.Forall_nil.

Ltac post :=
  unfold add_post; proj;
  repeat match goal with
         | |- _ /\ _ => split
         | |- ex _ => trace_goal
         end;
  try congruence; try lia; try (left; congruence); try (right; congruence).

Ltac split_effect H :=
  let cs := fresh "cs" in
  destruct H as (? & ? & ? & ? & ? & ? & cs & ? & ?); proj.

Ltac bridge_step :=
  match goal with
  | |- context [setupVethBridge ?benv ?a ?b ?t ?i ?m ?W] =>
      let Hb := fresh "Hb" in
      let Hr := fresh "Hr" in
      let veth := fresh "veth" in
      let err := fresh "err" in
      let wb := fresh "wb" in
      destruct (setupVethBridge_effect benv a b t i m W) as [Hb Hr];
      destruct (setupVethBridge benv a b t i m W) as [[veth|err] wb];
      split_effect Hb
  end.

Ltac metadata_step :=
  match goal with
  | |- context [saveMetadata ?a ?b ?c ?m ?n ?W] =>
      let Hm := fresh "Hm" in
      let ws := fresh "ws" in
      pose proof (saveMetadata_effect a b c m n W) as Hm;
      destruct (saveMetadata a b c m n W) as [? ws];
      split_effect Hm
  end.

Ltac stop f := destruct f; run; [solve [post]|].

Lemma AddPod_effect (env : AddEnv) (c netns ifn pod ns ip : string) (w : World) :
  servers w !! c = None ->
  add_post c env w (AddPod env c netns ifn pod ns ip w).
Proof.
  intros Hnone. unfold AddPod. rewrite Hnone.
  rewrite try_run.
  pose proof (CreateAuthKey_effect (a_key env) pod ns w) as Hkey.
  apply (only_calls_impl _ (tun_named (tunNameForContainer c))) in Hkey;
    [|apply key_call_tun_named].
  destruct (CreateAuthKey (a_key env) pod ns w) as [[authKey|e] w1]; simpl in Hkey;
    destruct Hkey as (Hsd & Hcn & Hsv & Hlv & Hnx & Htg & cs1 & Htr & Hcs1);
    run; [|post].
  stop (a_MkdirAll env).
  destruct (a_tstunNew env) as [tun|e0]; run; [|post].
  stop (a_tunLinkByName env).
  stop (a_tunLinkSetUp env).
  stop (a_netmonNew env).
  stop (a_engineNew env).
  stop (a_netstackCreate env).
  stop (a_NewFileStore env).
  stop (a_NewPrivateID env).
  stop (a_NewLocalBackend env).
  stop (a_netstackStart env).
  stop (a_lbStart env).
  assert (Hrest : forall W : World,
    stateDir W = stateDir w -> clusterName W = clusterName w ->
    tags (oauthMgr W) = tags (oauthMgr w) -> servers W = servers w ->
    live W = <[next w := c]> (live w) -> next W = S (next w) ->
    (exists cs, trace W = trace w ++ cs /\ Forall (tun_named (tunNameForContainer c)) cs) ->
    True).
  { trivial. }
  clear Hrest.
  destruct (a_needsLogin env); run; [stop (a_login env)|].
  all: destruct (wait_for_ip (a_status env) (a_later env) AddrZero AddrZero)
         as [[v4 v6]|state]; run; [|solve [post]].
  all: bridge_step; run; [|solve [post]].
  all: metadata_step; run.
  all: assert (Hfatal : bridge_fatal (a_bridge env) = None)
         by (destruct (bridge_fatal (a_bridge env)); [discriminate | reflexivity]).
  all: post.
Qed.
End AddFacts.

(** ** [DeletePod], [CheckPod] and the registry invariant *)
Module RegistryFacts.
Import Run OAuthFacts AddFacts.

Lemma AddPod_registered (env : AddEnv) (c netns ifn pod ns ip : string) (w : World)
    (srv : ManagedServer) :
  servers w !! c = Some srv -> AddPod env c netns ifn pod ns ip w = (Ok srv, w).
Proof. intros H. unfold AddPod. now rewrite H. Qed.

Lemma DeletePod_absent (env : NetEnv) (c : string) (w : World) :
  servers w !! c = None -> DeletePod env c w = (None, w).
Proof. intros H. unfold DeletePod. now rewrite H. Qed.

Lemma DeletePod_registered (env : NetEnv) (c : string) (w : World) (m : ManagedServer) :
  servers w !! c = Some m ->
  (DeletePod env c w).1 = None /\
  servers (DeletePod env c w).2 = delete c (servers w) /\
  live (DeletePod env c w).2 = delete (Backend m) (live w) /\
  next (DeletePod env c w).2 = next w.
Proof.
  intros H. unfold DeletePod. rewrite H. run.
  destruct (NetMon m); run;
    destruct (negb (String.eqb (HostVethName m) "")); run;
    try (destruct (n_LinkByName env (HostVethName m)); run);
    repeat split.
Qed.

Lemma DeletePod_ok (env : NetEnv) (c : string) (w : World) :
  (DeletePod env c w).1 = None.
Proof.
  destruct (servers w !! c) as [m|] eqn:H.
  - apply (DeletePod_registered env c w m H).
  - now rewrite DeletePod_absent.
Qed.

Lemma DeletePod_removes (env : NetEnv) (c : string) (w : World) :
  servers (DeletePod env c w).2 !! c = None.
Proof.
  destruct (servers w !! c) as [m|] eqn:H.
  - destruct (DeletePod_registered env c w m H) as (_ & -> & _).
    apply lookup_delete_eq.
  - now rewrite DeletePod_absent.
Qed.

Lemma CheckPod_world (status : nat -> Status) (c : string) (w : World) :
  (CheckPod status c w).2 = w.
Proof.
  unfold CheckPod. destruct (servers w !! c); [|reflexivity].
  destruct (negb _); reflexivity.
Qed.

Lemma consistent_new (sd cn : string) (mgr : OAuthManager) :
  consistent (NewPodManager sd cn mgr).
Proof.
  split; [|split]; simpl; intros ? ? H; rewrite lookup_empty in H; discriminate.
Qed.

Lemma consistent_add (env : AddEnv) (c netns ifn pod ns ip : string) (w : World) :
  consistent w -> consistent (AddPod env c netns ifn pod ns ip w).2.
Proof.
  intros (I1 & I2 & I3).
  destruct (servers w !! c) as [srv|] eqn:Hc.
  { rewrite (AddPod_registered _ _ _ _ _ _ _ _ srv Hc). now split. }
  pose proof (AddPod_effect env c netns ifn pod ns ip w Hc) as Hp.
  destruct (AddPod env c netns ifn pod ns ip w) as [[m|e] w'].
  - destruct Hp as (_ & _ & _ & _ & Hb & Hid & Hsv & Hlv & Hnx & _). simpl in *.
    assert (Hfresh : live w !! next w = None).
    { destruct (live w !! next w) as [c'|] eqn:E; [|reflexivity].
      apply I3 in E. lia. }
    split; [|split].
    + intros c0 srv H. rewrite Hsv in H. rewrite Hlv.
      destruct (decide (c = c0)) as [<-|Hne].
      * rewrite lookup_insert_eq in H. inversion H; subst srv.
        split; [assumption|]. rewrite Hb. apply lookup_insert_eq.
      * rewrite lookup_insert_ne in H by assumption.
        destruct (I1 _ _ H) as [Hk Hl]. split; [assumption|].
        rewrite lookup_insert_ne; [assumption|].
        intros E. rewrite <- E in Hl. congruence.
    + intros h c' H. rewrite Hlv in H. rewrite Hsv.
      destruct (decide (next w = h)) as [<-|Hne].
      * rewrite lookup_insert_eq in H. inversion H; subst c'.
        exists m. rewrite lookup_insert_eq. auto.
      * rewrite lookup_insert_ne in H by assumption.
        destruct (I2 _ _ H) as (srv & Hs & Hbs).
        exists srv. split; [|assumption].
        rewrite lookup_insert_ne; [assumption|]. congruence.
    + intros h c' H. rewrite Hlv in H. rewrite Hnx.
      destruct (decide (next w = h)) as [<-|Hne]; [lia|].
      rewrite lookup_insert_ne in H by assumption. apply I3 in H. lia.
  - destruct Hp as (_ & _ & _ & _ & Hsv & Hnx & Hlv). simpl in *.
    assert (Hl : live w' = live w).
    { destruct Hlv as [->| ->]; [reflexivity|].
      rewrite delete_insert_eq. apply delete_id.
      destruct (live w !! next w) as [c'|] eqn:E; [|reflexivity].
      apply I3 in E. lia. }
    unfold consistent. rewrite Hl, Hsv. split; [|split]; auto.
    intros h c' H. apply I3 in H. lia.
Qed.

Lemma consistent_delete (env : NetEnv) (c : string) (w : World) :
  consistent w -> consistent (DeletePod env c w).2.
Proof.
  intros (I1 & I2 & I3).
  destruct (servers w !! c) as [m|] eqn:Hc.
  2: { rewrite DeletePod_absent by assumption. now split. }
  destruct (DeletePod_registered env c w m Hc) as (_ & Hsv & Hlv & Hnx).
  destruct (I1 _ _ Hc) as [_ Hlm].
  unfold consistent. rewrite Hsv, Hlv, Hnx. split; [|split].
  - intros c0 srv H. apply lookup_delete_Some in H as [Hne H].
    destruct (I1 _ _ H) as [Hk Hl]. split; [assumption|].
    rewrite lookup_delete_ne; [assumption|].
    intros E. rewrite E in Hlm. congruence.
  - intros h c' H. apply lookup_delete_Some in H as [Hne H].
    destruct (I2 _ _ H) as (srv & Hs & Hb).
    exists srv. split; [|assumption].
    rewrite lookup_delete_ne; [assumption|].
    intros <-. rewrite Hc in Hs. inversion Hs; subst srv. congruence.
  - intros h c' H. apply lookup_delete_Some in H as [_ H]. now apply I3 in H.
Qed.

Lemma consistent_op (op : Op) (w : World) : consistent w -> consistent (run_op op w).
Proof.
  destruct op; simpl.
  - apply consistent_add.
  - apply consistent_delete.
  - now rewrite CheckPod_world.
Qed.

Lemma consistent_ops (ops : list Op) (w : World) :
  consistent w -> consistent (run_ops ops w).
Proof.
  revert w. induction ops as [|op ops IH]; intros w H; simpl; [assumption|].
  apply IH, consistent_op, H.
Qed.

Lemma elem_of_live_for (w : World) (c : string) (h : nat) :
  h ∈ live_for w c <-> live w !! h = Some c.
Proof.
  unfold live_for. rewrite list_elem_of_fmap. split.
  - intros ([h' c'] & -> & H). apply list_elem_of_filter in H as [Hc H].
    simpl in *. subst c'. now apply elem_of_map_to_list.
  - intros H. exists (h, c). split; [reflexivity|].
    apply list_elem_of_filter. split; [reflexivity|].
    now apply elem_of_map_to_list.
Qed.

Lemma NoDup_live_for (w : World) (c : string) : NoDup (live_for w c).
Proof.
  unfold live_for.
  apply (sublist_NoDup _ ((map_to_list (live w)).*1)).
  - apply NoDup_fst_map_to_list.
  - apply fmap_sublist, sublist_filter.
Qed.

Lemma live_for_at_most_one (w : World) (c : string) :
  consistent w -> length (live_for w c) <= 1.
Proof.
  intros (_ & I2 & _).
  pose proof (NoDup_live_for w c) as Hnd.
  destruct (live_for w c) as [|h1 [|h2 l]] eqn:E; simpl; try lia.
  exfalso.
  assert (H1 : h1 ∈ live_for w c) by (rewrite E; left).
  assert (H2 : h2 ∈ live_for w c) by (rewrite E; right; left).
  apply elem_of_live_for, I2 in H1 as (s1 & Hs1 & Hb1).
  apply elem_of_live_for, I2 in H2 as (s2 & Hs2 & Hb2).
  assert (Heq : h1 = h2) by congruence.
  inversion Hnd as [|? ? Hnotin _]; subst. apply Hnotin. rewrite Heq. left.
Qed.

End RegistryFacts.

(** C1: after every sequence of Add, Delete and Check requests on a new pod
    manager, every container id has at most one live backend, and its live
    backend is the one of the instance the registry holds for it; an Add for a
    registered id returns the registered instance and leaves the registry as
    it is, and after a Delete the registry has no entry for the id. *)
Theorem registry_uniqueness :
  (forall (ops : list Op) (sd cn : string) (mgr : OAuthManager) (c : string),
     length (live_for (run_ops ops (NewPodManager sd cn mgr)) c) <= 1 /\
     forall h, h ∈ live_for (run_ops ops (NewPodManager sd cn mgr)) c <->
               exists srv, servers (run_ops ops (NewPodManager sd cn mgr)) !! c = Some srv /\
                           Backend srv = h) /\
  (forall env c netns ifn pod ns ip w srv,
     servers w !! c = Some srv ->
     (AddPod env c netns ifn pod ns ip w).1 = Ok srv /\
     servers (AddPod env c netns ifn pod ns ip w).2 = servers w) /\
  (forall env c w, servers (DeletePod env c w).2 !! c = None).
Proof.
  split; [|split].
  - intros ops sd cn mgr c.
    pose proof (RegistryFacts.consistent_ops ops _ (RegistryFacts.consistent_new sd cn mgr))
      as Hc.
    split; [now apply RegistryFacts.live_for_at_most_one|].
    intros h. rewrite RegistryFacts.elem_of_live_for.
    destruct Hc as (I1 & I2 & _). split.
    + apply I2.
    + intros (srv & Hs & <-). now apply I1 in Hs.
  - intros env c netns ifn pod ns ip w srv H.
    now rewrite (RegistryFacts.AddPod_registered _ _ _ _ _ _ _ _ srv H).
  - intros. apply RegistryFacts.DeletePod_removes.
Qed.

(** Two Adds, a Check, a Delete and a third Add for [c1]. *)
Lemma registry_uniqueness_witness :
  length (live_for
            (run_ops
               [OpAdd (reaching_bridge "tskey-auth-1" "ts-c1" "100.64.0.1" bridge_ok)
                  "c1" "/proc/1234/ns/net" "ts0" "web-0" "default" "10.42.0.7";
                OpAdd (reaching_bridge "tskey-auth-2" "ts-c1" "100.64.0.2" bridge_ok)
                  "c1" "/proc/1234/ns/net" "ts0" "web-0" "default" "10.42.0.7";
                OpCheck (fun _ => {| BackendState := "Running"; TailscaleIPs := [] |}) "c1";
                OpDelete net_ok "c1";
                OpAdd (reaching_bridge "tskey-auth-3" "ts-c1" "100.64.0.3" bridge_ok)
                  "c1" "/proc/1234/ns/net" "ts0" "web-0" "default" "10.42.0.7"]
               (NewPodManager "/var/lib/tailscale-cni" "k8s"
                  (NewOAuthManager "id" "secret" ["tag:k8s-pod"])))
            "c1") <= 1.
Proof.
  apply (proj1 registry_uniqueness).
Defined.

(** C2: an Add for a container id that is registered returns the registered
    instance and changes nothing: the registry, the live backends, the
    credential manager and the trace of calls made (so no key is minted and no
    directory, TUN device, veth pair or route is created) are as before; in
    particular an Add after a successful Add for the same id returns the
    instance of the first one. *)
Theorem AddPod_idempotent :
  (forall env c netns ifn pod ns ip w srv,
     servers w !! c = Some srv ->
     AddPod env c netns ifn pod ns ip w = (Ok srv, w)) /\
  (forall env1 env2 c netns1 ifn1 pod1 ns1 ip1 netns2 ifn2 pod2 ns2 ip2 w srv,
     (AddPod env1 c netns1 ifn1 pod1 ns1 ip1 w).1 = Ok srv ->
     AddPod env2 c netns2 ifn2 pod2 ns2 ip2 (AddPod env1 c netns1 ifn1 pod1 ns1 ip1 w).2
     = (Ok srv, (AddPod env1 c netns1 ifn1 pod1 ns1 ip1 w).2)).
Proof.
  split.
  - intros. now apply RegistryFacts.AddPod_registered.
  - intros env1 env2 c netns1 ifn1 pod1 ns1 ip1 netns2 ifn2 pod2 ns2 ip2 w srv H.
    apply RegistryFacts.AddPod_registered.
    destruct (servers w !! c) as [srv0|] eqn:Hc.
    + rewrite (RegistryFacts.AddPod_registered _ _ _ _ _ _ _ _ srv0 Hc) in *.
      simpl in *. congruence.
    + pose proof (AddFacts.AddPod_effect env1 c netns1 ifn1 pod1 ns1 ip1 w Hc) as Hp.
      unfold add_post in Hp. rewrite H in Hp.
      destruct Hp as (_ & _ & _ & _ & _ & _ & -> & _).
      apply lookup_insert_eq.
Qed.

(** A second Add for [c1], with a failing control API and other arguments,
    returns the instance of the first and leaves the world as it was. *)
Lemma AddPod_idempotent_witness :
  exists srv,
    servers pm1 !! "c1" = Some srv /\
    AddPod (reaching_bridge "tskey-auth-2" "ts-c1" "100.64.0.9" bridge_host_route_fails)
      "c1" "/proc/99/ns/net" "ts0" "other" "kube-system" "10.42.0.8" pm1
    = (Ok srv, pm1).
Proof.
  eexists. split.
  - vm_compute. reflexivity.
  - apply (proj1 AddPod_idempotent). vm_compute. reflexivity.
Defined.

(** C3: Delete never fails and is idempotent: it returns the nil error
    whatever the link table answers (the host-side veth not found, or its
    deletion failing), for an id that is not registered it changes nothing,
    afterwards the id is not registered, and a second Delete returns the nil
    error again and changes nothing. *)
Theorem DeletePod_idempotent :
  forall env c w,
    (DeletePod env c w).1 = None /\
    (servers w !! c = None -> DeletePod env c w = (None, w)) /\
    servers (DeletePod env c w).2 !! c = None /\
    (forall env', DeletePod env' c (DeletePod env c w).2 = (None, (DeletePod env c w).2)).
Proof.
  intros env c w. repeat split.
  - apply RegistryFacts.DeletePod_ok.
  - apply RegistryFacts.DeletePod_absent.
  - apply RegistryFacts.DeletePod_removes.
  - intros env'. apply RegistryFacts.DeletePod_absent, RegistryFacts.DeletePod_removes.
Qed.

(** A Delete of an id the new manager does not know changes nothing. *)
Lemma DeletePod_idempotent_witness : DeletePod net_ok "c9" pm0 = (None, pm0).
Proof.
  apply (proj1 (proj2 (DeletePod_idempotent net_ok "c9" pm0))). reflexivity.
Defined.

(** C10: Check of a container id that is not registered returns
    healthy=false, the message [pod not found] and the nil error, and Check
    never changes the world, registered or not. *)
Theorem CheckPod_not_found :
  (forall status c w,
     servers w !! c = None ->
     CheckPod status c w = ((false, "pod not found", None), w)) /\
  (forall status c w, (CheckPod status c w).2 = w).
Proof.
  split.
  - intros status c w H. unfold CheckPod. now rewrite H.
  - apply RegistryFacts.CheckPod_world.
Qed.

(** Check of an id the new manager does not know. *)
Lemma CheckPod_not_found_witness :
  CheckPod (fun _ => {| BackendState := "Running"; TailscaleIPs := [] |}) "c9" pm0
  = ((false, "pod not found", None), pm0).
Proof.
  apply (proj1 CheckPod_not_found). reflexivity.
Defined.

(** ** Add at the bridge *)
Module AtBridge.
Import Run OAuthFacts BridgeFacts AddFacts.

Lemma CreateAuthKey_key_ok (key podName namespace : string) (w : World) :
  (CreateAuthKey (key_ok key) podName namespace w).1 = Ok key.
Proof.
  unfold CreateAuthKey, getAccessToken. run.
  cbn [key_ok k_sem k_now k_sleep k_stamp k_tokenNow k_tokenNewRequest k_tokenDo
       k_tokenStamp k_marshal k_keyNewRequest k_keyDo].
  destruct (0 - lastAuthKey (oauthMgr w) <? authKeyMinInterval)%Z; run;
    destruct (negb (String.eqb (accessToken (oauthMgr w)) "") &&
              (0 + 5 * Minute <? tokenExpiry (oauthMgr w))%Z); reflexivity.
Qed.

Lemma wait_for_ip_running (ip : string) :
  wait_for_ip {| BackendState := "Running"; TailscaleIPs := [Addr4 ip] |} []
    AddrZero AddrZero = Ok (Addr4 ip, AddrZero).
Proof. reflexivity. Qed.

Ltac env_proj :=
  cbn [reaching_bridge a_key a_MkdirAll a_tstunNew a_tunLinkByName a_tunLinkSetUp
       a_netmonNew a_engineNew a_netstackCreate a_NewFileStore a_NewPrivateID
       a_NewLocalBackend a_netstackStart a_lbStart a_needsLogin a_login a_status
       a_later a_bridge a_now a_marshal a_writeMetadata].

(** When every call before the bridge succeeds, Add fails exactly when a
    fatal call of the bridge fails; it then returns that error, registers
    nothing, and its last calls are the unwinding ones. *)
Lemma AddPod_at_bridge (key tun ip4 : string) (benv : BridgeEnv)
    (c netns ifn pod ns ip : string) (w : World) :
  servers w !! c = None ->
  match bridge_fatal benv with
  | Some e =>
      (AddPod (reaching_bridge key tun ip4 benv) c netns ifn pod ns ip w).1
        = Err (wrap "setting up veth bridge" e) /\
      servers (AddPod (reaching_bridge key tun ip4 benv) c netns ifn pod ns ip w).2
        = servers w /\
      live (AddPod (reaching_bridge key tun ip4 benv) c netns ifn pod ns ip w).2
        = delete (next w) (<[next w := c]> (live w)) /\
      exists t,
        trace (AddPod (reaching_bridge key tun ip4 benv) c netns ifn pod ns ip w).2
        = t ++ unwind_calls (next w) (podStateDir_of w c)
  | None =>
      exists m,
        (AddPod (reaching_bridge key tun ip4 benv) c netns ifn pod ns ip w).1 = Ok m /\
        servers (AddPod (reaching_bridge key tun ip4 benv) c netns ifn pod ns ip w).2
          = <[c := m]> (servers w)
  end.
Proof.
  intros Hnone. unfold AddPod. rewrite Hnone, try_run. env_proj.
  pose proof (CreateAuthKey_key_ok key pod ns w) as Hok.
  pose proof (CreateAuthKey_effect (key_ok key) pod ns w) as Hkey.
  destruct (CreateAuthKey (key_ok key) pod ns w) as [[authKey|e] w1];
    simpl in Hok; [|discriminate].
  inversion Hok; subst authKey. split_effect Hkey.
  run. env_proj. run. rewrite wait_for_ip_running. run.
  bridge_step; run.
  - metadata_step; run.
    destruct (bridge_fatal benv); [discriminate|].
    eexists. split; [reflexivity|]. proj. congruence.
  - destruct (bridge_fatal benv) as [e|]; [|destruct Hr; discriminate].
    inversion Hr; subst err. proj.
    repeat split; try congruence.
    rewrite <- !app_assoc. simpl.
    match goal with H : next w1 = next w |- _ => rewrite H end.
    eexists. unfold unwind_calls. reflexivity.
Qed.

End AtBridge.

(** C6 (as amended): Add succeeds only if every fatal call of the bridge
    build succeeds (opening the namespace, drawing the veth name, entering
    the namespace, creating the veth pair, looking up its two ends, moving
    the host end, assigning the address, bringing the pod end up, installing
    the route in the namespace, looking up and bringing up the host end,
    looking up the TUN link); a failing Add leaves the registry as it was and,
    on a consistent manager, no live backend behind.  When every call before
    the bridge succeeds, a fatal bridge error makes Add return it wrapped as
    [setting up veth bridge], register nothing and end with the unwinding
    calls (backend shut down, netstack, engine and network monitor closed,
    state directory removed), and without a fatal bridge error Add succeeds
    whatever the host-side route installation, the TUN route installation and
    the two sysctl writes return. *)
Theorem bridge_errors :
  (forall env c netns ifn pod ns ip w,
     servers w !! c = None ->
     (is_ok (AddPod env c netns ifn pod ns ip w).1 = true ->
      bridge_fatal (a_bridge env) = None) /\
     (is_ok (AddPod env c netns ifn pod ns ip w).1 = false ->
      servers (AddPod env c netns ifn pod ns ip w).2 = servers w /\
      (consistent w -> live (AddPod env c netns ifn pod ns ip w).2 = live w))) /\
  (forall key tun ip4 benv c netns ifn pod ns ip w e,
     servers w !! c = None ->
     bridge_fatal benv = Some e ->
     (AddPod (reaching_bridge key tun ip4 benv) c netns ifn pod ns ip w).1
       = Err (wrap "setting up veth bridge" e) /\
     servers (AddPod (reaching_bridge key tun ip4 benv) c netns ifn pod ns ip w).2
       = servers w /\
     exists t,
       trace (AddPod (reaching_bridge key tun ip4 benv) c netns ifn pod ns ip w).2
       = t ++ unwind_calls (next w) (podStateDir_of w c)) /\
  (forall key tun ip4 benv c netns ifn pod ns ip w,
     servers w !! c = None ->
     bridge_fatal benv = None ->
     exists m,
       (AddPod (reaching_bridge key tun ip4 benv) c netns ifn pod ns ip w).1 = Ok m /\
       servers (AddPod (reaching_bridge key tun ip4 benv) c netns ifn pod ns ip w).2 !! c
         = Some m).
Proof.
  split; [|split].
  - intros env c netns ifn pod ns ip w Hnone.
    pose proof (AddFacts.AddPod_effect env c netns ifn pod ns ip w Hnone) as Hp.
    unfold add_post in Hp.
    destruct (AddPod env c netns ifn pod ns ip w) as [[m|e] w']; simpl in *.
    + split; [|discriminate]. intros _. apply Hp.
    + split; [discriminate|]. intros _.
      destruct Hp as (_ & _ & _ & _ & Hsv & _ & Hlv). split; [assumption|].
      intros (_ & _ & I3). destruct Hlv as [->| ->]; [reflexivity|].
      rewrite delete_insert_eq. apply delete_id.
      destruct (live w !! next w) as [c'|] eqn:E; [|reflexivity].
      apply I3 in E. lia.
  - intros key tun ip4 benv c netns ifn pod ns ip w e Hnone Hf.
    pose proof (AtBridge.AddPod_at_bridge key tun ip4 benv c netns ifn pod ns ip w Hnone)
      as Hb.
    rewrite Hf in Hb. destruct Hb as (Hr & Hs & _ & Ht). auto.
  - intros key tun ip4 benv c netns ifn pod ns ip w Hnone Hf.
    pose proof (AtBridge.AddPod_at_bridge key tun ip4 benv c netns ifn pod ns ip w Hnone)
      as Hb.
    rewrite Hf in Hb. destruct Hb as (m & Hr & Hs).
    exists m. split; [assumption|]. rewrite Hs. apply lookup_insert_eq.
Qed.

(** An Add on the new manager whose bridge fails at the creation of the veth
    pair. *)
Lemma bridge_errors_witness :
  exists t,
    trace (AddPod (reaching_bridge "tskey-auth-1" "ts-c1" "100.64.0.1"
                     {| b_GetNS := None; b_rand := Ok ["000"; "001"; "002"; "003"]%char;
                        b_nsDo := None; b_LinkAdd := Some "file exists";
                        b_podLinkByName := None; b_peerLinkByName := None;
                        b_LinkSetNsFd := None; b_AddrAdd := None; b_podLinkSetUp := None;
                        b_nsRouteAdd := None; b_hostLinkByName := None;
                        b_hostLinkSetUp := None; b_podRouteAdd := None;
                        b_proxyArp := None; b_ipForward := None;
                        b_tunLinkByName := None; b_tunRouteAdd := None |})
             "c1" "/proc/1234/ns/net" "ts0" "web-0" "default" "10.42.0.7" pm0).2
    = t ++ unwind_calls 0 "/var/lib/tailscale-cni/pods/c1".
Proof.
  refine (proj2 (proj2 (proj1 (proj2 bridge_errors) _ _ _ _ _ _ _ _ _ _ pm0
                          (wrap "creating veth pair" "file exists") _ _)));
    reflexivity.
Defined.

(** C6, as stated, fails where the host-side route to the overlay address
    cannot be installed: with every other call succeeding, the failing
    [RouteAdd] for [100.64.0.1/32] via the host-side veth is among the calls
    made, and Add returns an instance and registers it. *)
Lemma host_route_error_not_fatal :
  b_podRouteAdd bridge_host_route_fails = Some "network is unreachable" /\
  In (netlink_RouteAdd None "veth00010203" "100.64.0.1/32")
     (trace (AddPod (reaching_bridge "tskey-auth-1" "ts-c1" "100.64.0.1"
                       bridge_host_route_fails)
               "c1" "/proc/1234/ns/net" "ts0" "web-0" "default" "10.42.0.7" pm0).2) /\
  is_ok (AddPod (reaching_bridge "tskey-auth-1" "ts-c1" "100.64.0.1"
                   bridge_host_route_fails)
           "c1" "/proc/1234/ns/net" "ts0" "web-0" "default" "10.42.0.7" pm0).1 = true /\
  (servers (AddPod (reaching_bridge "tskey-auth-1" "ts-c1" "100.64.0.1"
                      bridge_host_route_fails)
              "c1" "/proc/1234/ns/net" "ts0" "web-0" "default" "10.42.0.7" pm0).2
     !! "c1") <> None.
Proof.
  split; [reflexivity|]. split; [vm_compute; tauto|].
  split; [vm_compute; reflexivity | vm_compute; discriminate].
Qed.

(** C7 (what the code does): every request for a key that [CreateAuthKey]
    sends is the one built from the manager's tags and the workload's
    namespace and name, with reusable=false, ephemeral=false,
    preauthorized=true and a description that holds the namespace and the
    name; its expiry is the constant 300 seconds, whatever the
    [--auth-key-ttl] flag says: started with a TTL of ten minutes (600
    seconds) the daemon still asks for keys that expire after 300 seconds. *)
Theorem auth_key_ttl_ignored :
  (forall env pod ns w,
     exists cs, trace (CreateAuthKey env pod ns w).2 = trace w ++ cs /\
                Forall (key_call (keyRequest (oauthMgr w) pod ns)) cs) /\
  (forall m pod ns,
     Create (keyRequest m pod ns)
       = {| Reusable := false; Ephemeral := false; Preauthorized := true;
            Tags := tags m |} /\
     Description (keyRequest m pod ns) = "tailscale-cni " +:+ ns +:+ " " +:+ pod /\
     ExpirySeconds (keyRequest m pod ns) = 300%Z) /\
  (f_auth_key_ttl ten_minute_flags = (600 * Second)%Z /\
   exists w, main_podMgr ten_minute_flags with_credentials = Ok w /\
             ExpirySeconds (keyRequest (oauthMgr w) "web-0" "default") = 300%Z).
Proof.
  split; [|split].
  - intros env pod ns w.
    destruct (OAuthFacts.CreateAuthKey_effect env pod ns w) as (_ & _ & _ & _ & _ & _ & H).
    exact H.
  - intros m pod ns. repeat split.
  - split; [reflexivity|]. eexists. split; reflexivity.
Qed.

(** ** Orphan clean-up and the recovery pass *)
Module RecoverFacts.
Import Run OAuthFacts.

Lemma loadMetadata_world (env : RecoverEnv) (c : string) (w : World) :
  (loadMetadata env c w).2 = w.
Proof.
  unfold loadMetadata. run.
  destruct (r_ReadFile env _) as [data|e]; run; [|reflexivity].
  destruct (r_Unmarshal env data); reflexivity.
Qed.

Lemma delete_link_if_present_run (net : NetEnv) (name : string) (w : World) :
  delete_link_if_present net name w =
  (tt, set_trace (trace w ++ match n_LinkByName net name with
                             | None => [netlink_LinkDel None name]
                             | Some _ => []
                             end) w).
Proof.
  unfold delete_link_if_present. destruct (n_LinkByName net name); run.
  - rewrite app_nil_r. destruct w; reflexivity.
  - reflexivity.
Qed.

Lemma cleanupOrphanedPod_effect (net : NetEnv) (rm : option error) (c veth : string)
    (w : World) :
  servers (cleanupOrphanedPod net rm c veth w).2 = servers w /\
  live (cleanupOrphanedPod net rm c veth w).2 = live w /\
  trace (cleanupOrphanedPod net rm c veth w).2 = trace w ++ orphan_calls net w c veth.
Proof.
  unfold cleanupOrphanedPod, orphan_calls.
  rewrite !seq_run, warn_only_run, attempt_run, delete_link_if_present_run.
  destruct (String.eqb veth "") eqn:Hv; cbn [negb].
  - unfold ret. simpl. rewrite <- !app_assoc. auto.
  - rewrite delete_link_if_present_run. simpl. rewrite <- !app_assoc. auto.
Qed.

Lemma recoverPod_gone (env : RecoverEnv) (c : string) (w : World) (meta : PodMetadata) :
  (loadMetadata env c w).1 = Ok meta ->
  netnsExists (r_Stat env) (m_NetnsPath meta) = false ->
  recoverPod env c w =
  (None, (cleanupOrphanedPod (r_net env) (r_RemoveAll env c) c (m_HostVethName meta) w).2).
Proof.
  intros Hm Hns. unfold recoverPod. rewrite bind_run, loadMetadata_world, Hm, Hns.
  cbn [negb]. now rewrite seq_run.
Qed.

Lemma recover_entries_dir (env : RecoverEnv) (entry : DirEntry) (rest : list DirEntry)
    (n : nat) (errs : list error) (w : World) :
  IsDir entry = true ->
  recover_entries env (entry :: rest) n errs w =
  match (recoverPod env (Name entry) w).1 with
  | None => recover_entries env rest (S n) errs (recoverPod env (Name entry) w).2
  | Some e =>
      recover_entries env rest n (errs ++ [wrap ("pod " +:+ Name entry) e])
        (cleanupOrphanedPod (r_net env) (r_RemoveAll env (Name entry)) (Name entry)
           match (loadMetadata env (Name entry) (recoverPod env (Name entry) w).2).1 with
           | Ok m => m_HostVethName m
           | Err _ => ""
           end (recoverPod env (Name entry) w).2).2
  end.
Proof.
  intros Hd. cbn [recover_entries]. rewrite Hd. cbn [negb].
  rewrite bind_run. destruct (recoverPod env (Name entry) w).1; [|reflexivity].
  rewrite bind_run, loadMetadata_world. now rewrite seq_run.
Qed.

Lemma recover_entries_count (env : RecoverEnv) (entries : list DirEntry)
    (n : nat) (errs : list error) (w : World) :
  (recover_entries env entries n errs w).1.1
    + length (recover_entries env entries n errs w).1.2
  = n + length errs + count_dirs entries /\
  exists more, (recover_entries env entries n errs w).1.2 = errs ++ more.
Proof.
  revert n errs w. induction entries as [|entry rest IH]; intros n errs w.
  - simpl. split; [unfold count_dirs; simpl; lia|]. exists []. now rewrite app_nil_r.
  - destruct (IsDir entry) eqn:Hd.
    + rewrite recover_entries_dir by assumption.
      unfold count_dirs in *. simpl. rewrite Hd. simpl.
      destruct (recoverPod env (Name entry) w).1 as [e|].
      * match goal with |- context [recover_entries env rest n ?E ?W] =>
          destruct (IH n E W) as [Hc (more & Hm)] end.
        rewrite Hc, Hm, length_app. simpl. split; [lia|].
        exists ([wrap ("pod " +:+ Name entry) e] ++ more). now rewrite app_assoc.
      * destruct (IH (S n) errs (recoverPod env (Name entry) w).2) as [Hc Hm].
        rewrite Hc. split; [lia|assumption].
    + cbn [recover_entries]. rewrite Hd. cbn [negb].
      unfold count_dirs in *. simpl. rewrite Hd. apply IH.
Qed.

Lemma sweep_links_effect (net : NetEnv) (known : gset string) (links : list string)
    (w : World) :
  servers (sweep_links net known links w).2 = servers w /\
  live (sweep_links net known links w).2 = live w /\
  trace (sweep_links net known links w).2
    = trace w ++ map (netlink_LinkDel None) (swept known links).
Proof.
  revert w. induction links as [|name links IH]; intros w.
  - simpl. now rewrite app_nil_r.
  - cbn [sweep_links swept List.filter]. rewrite seq_run.
    destruct (gostrings.HasPrefix name "ts-" && negb (bool_decide (name ∈ known))).
    + rewrite warn_only_run, attempt_run. cbn [snd].
      destruct (IH (set_trace (trace w ++ [netlink_LinkDel None name]) w))
        as (Hs & Hl & Ht).
      fold (swept known links). rewrite Hs, Hl, Ht. simpl.
      now rewrite <- app_assoc.
    + unfold ret. cbn [snd]. fold (swept known links). apply IH.
Qed.

Lemma swept_spec (known : gset string) (links : list string) (name : string) :
  In name (swept known links) ->
  gostrings.HasPrefix name "ts-" = true /\ (name ∉ known) /\ In name links.
Proof.
  unfold swept. rewrite filter_In. intros [Hin H].
  apply andb_true_iff in H as [Hp Hk]. repeat split; auto.
  apply negb_true_iff, bool_decide_eq_false in Hk. assumption.
Qed.

Lemma known_registered (w : World) (c : string) :
  is_Some (servers w !! c) -> tunNameForContainer c ∈ knownTUNs w.
Proof.
  intros H. unfold knownTUNs. apply elem_of_map. exists c. split; [reflexivity|].
  now apply elem_of_dom.
Qed.

Lemma slice_to_short (n : nat) (s : string) :
  String.length s <= n -> slice_to n s = s.
Proof.
  intros H. unfold slice_to. rewrite firstn_all2.
  - apply string_of_list_ascii_of_string.
  - now rewrite bytes_length.
Qed.

Lemma tunName_spec (c : string) : tunNameForContainer c = "ts-" +:+ slice_to 8 c.
Proof.
  unfold tunNameForContainer. destruct (8 <? String.length c)%nat eqn:H; [reflexivity|].
  apply Nat.ltb_ge in H. now rewrite slice_to_short.
Qed.

End RecoverFacts.

(** C8: in the recovery pass, a record that can be loaded and whose namespace
    path no longer exists is orphan-cleaned and gives no error: [recoverPod]
    returns the nil error after the calls of the clean-up (the TUN device of
    the container and the recorded host-side veth deleted when found, the
    state directory removed), registry and live backends untouched.  A
    directory whose recovery fails adds its error, prefixed with the container
    id, to the list and the pass goes on with the next entry; one whose
    recovery returns nil is counted and the pass goes on.  Every directory
    entry ends up either counted or with an error in the list, and the errors
    collected so far are kept. *)
Theorem recovery_pass :
  (forall env c w meta,
     (loadMetadata env c w).1 = Ok meta ->
     netnsExists (r_Stat env) (m_NetnsPath meta) = false ->
     (recoverPod env c w).1 = None /\
     servers (recoverPod env c w).2 = servers w /\
     live (recoverPod env c w).2 = live w /\
     trace (recoverPod env c w).2
       = trace w ++ orphan_calls (r_net env) w c (m_HostVethName meta)) /\
  (forall env entry rest n errs w e,
     IsDir entry = true ->
     (recoverPod env (Name entry) w).1 = Some e ->
     exists w',
       recover_entries env (entry :: rest) n errs w
       = recover_entries env rest n (errs ++ [wrap ("pod " +:+ Name entry) e]) w') /\
  (forall env entry rest n errs w,
     IsDir entry = true ->
     (recoverPod env (Name entry) w).1 = None ->
     recover_entries env (entry :: rest) n errs w
     = recover_entries env rest (S n) errs (recoverPod env (Name entry) w).2) /\
  (forall env entries w,
     (RecoverPods env (DirEntries entries) w).1.1
       + length (RecoverPods env (DirEntries entries) w).1.2
     = count_dirs entries) /\
  (forall env entries n errs w,
     exists more, (recover_entries env entries n errs w).1.2 = errs ++ more).
Proof.
  split; [|split; [|split; [|split]]].
  - intros env c w meta Hm Hns.
    rewrite (RecoverFacts.recoverPod_gone env c w meta Hm Hns). cbn [fst snd].
    split; [reflexivity|]. apply RecoverFacts.cleanupOrphanedPod_effect.
  - intros env entry rest n errs w e Hd He.
    rewrite RecoverFacts.recover_entries_dir by assumption. rewrite He. eauto.
  - intros env entry rest n errs w Hd He.
    rewrite RecoverFacts.recover_entries_dir by assumption. now rewrite He.
  - intros env entries w. unfold RecoverPods.
    destruct (RecoverFacts.recover_entries_count env entries 0 [] w) as [H _].
    rewrite H. simpl. lia.
  - intros. apply RecoverFacts.recover_entries_count.
Qed.

(** After a restart with the namespace of [c1] gone, its recovery returns
    nil and makes the three clean-up calls; the pass over [c1] and the
    unreadable [c2] counts one and reports one error. *)
Lemma recovery_pass_witness :
  ((recoverPod after_restart "c1" pm0).1 = None /\
   trace (recoverPod after_restart "c1" pm0).2
     = [netlink_LinkDel None "ts-c1"; netlink_LinkDel None "veth00010203";
        os_RemoveAll "/var/lib/tailscale-cni/pods/c1"]) /\
  (RecoverPods after_restart
     (DirEntries [{| Name := "c1"; IsDir := true |}; {| Name := "c2"; IsDir := true |}])
     pm0).1
  = (1, ["pod c2: loading metadata: reading metadata: no such file or directory"]).
Proof.
  split.
  - destruct (proj1 recovery_pass after_restart "c1" pm0 gone_meta eq_refl eq_refl)
      as (Hr & _ & _ & Ht).
    split; [exact Hr | exact Ht].
  - vm_compute. reflexivity.
Defined.

(* ================================================================= *)
(** * Further properties of the text functions *)

Module SanitizeShape.
Import HostnameSpec.

Lemma double_dash_cons (c : ascii) (t : list ascii) :
  double_dash (c :: t) = (is_dash c && head_dash t) || double_dash t.
Proof. reflexivity. Qed.

Lemma replace_invalid_chars (l : list ascii) :
  Forall (fun c => hostname_char c = true) (replace_invalid l).
Proof.
  unfold replace_invalid. induction l as [|c l IH]; simpl; constructor; auto.
  unfold hostname_char. destruct (is_lower c || is_digit c || is_dash c) eqn:E; auto.
Qed.

Lemma collapse_chars (P : ascii -> Prop) (b : bool) (l : list ascii) :
  Forall P l -> Forall P (collapse_from b l).
Proof.
  revert b. induction l as [|c l IH]; intros b H; simpl; [constructor|].
  inversion H; subst. destruct (is_dash c); [destruct b|]; auto.
Qed.

Lemma collapse_length (b : bool) (l : list ascii) :
  length (collapse_from b l) <= length l.
Proof.
  revert b. induction l as [|c l IH]; intros b; simpl; [lia|].
  pose proof (IH true). pose proof (IH false).
  destruct (is_dash c); [destruct b|]; simpl; lia.
Qed.

Lemma collapse_no_double (l : list ascii) (b : bool) :
  double_dash (collapse_from b l) = false /\
  (b = true -> head_dash (collapse_from b l) = false).
Proof.
  revert b. induction l as [|c l IH]; intros b; simpl; [auto|].
  destruct (is_dash c) eqn:Hc.
  - destruct b.
    + apply IH.
    + destruct (IH true) as [Hd Hh]. split; [|discriminate].
      rewrite double_dash_cons, Hc, Hd, Hh; auto.
  - destruct (IH false) as [Hd _]. split.
    + rewrite double_dash_cons, Hc, Hd. reflexivity.
    + intros _. simpl. exact Hc.
Qed.

(** [drop_dashes] cuts a run of dashes off the front. *)
Lemma drop_dashes_suffix (l : list ascii) :
  exists pre, l = pre ++ drop_dashes l /\ head_dash (drop_dashes l) = false.
Proof.
  induction l as [|c l (pre & E & H)]; simpl.
  - exists []. auto.
  - destruct (is_dash c) eqn:Hc.
    + exists (c :: pre). simpl. split; [now rewrite <- E | assumption].
    + exists []. simpl. auto.
Qed.

Lemma head_dash_app (l1 l2 : list ascii) :
  l1 <> [] -> head_dash (l1 ++ l2) = head_dash l1.
Proof. destruct l1; [congruence | reflexivity]. Qed.

Lemma double_dash_app (l1 l2 : list ascii) :
  double_dash (l1 ++ l2) = false -> double_dash l1 = false /\ double_dash l2 = false.
Proof.
  induction l1 as [|c l1 IH]; simpl; [auto|].
  intros H. apply orb_false_iff in H as [H1 H2].
  destruct (IH H2) as [Ha Hb]. split; [|assumption].
  rewrite Ha, orb_false_r.
  destruct l1 as [|d l1]; simpl in *; [now rewrite andb_false_r | assumption].
Qed.

Lemma double_dash_snoc (l : list ascii) (c : ascii) :
  double_dash (l ++ [c]) = double_dash l || (head_dash (rev l) && is_dash c).
Proof.
  induction l as [|d l IH]; [simpl; now rewrite andb_false_r|].
  change ((d :: l) ++ [c]) with (d :: (l ++ [c])).
  rewrite !double_dash_cons, IH. simpl rev.
  destruct l as [|e l].
  - simpl. destruct (is_dash d), (is_dash c); reflexivity.
  - rewrite (head_dash_app (rev (e :: l)))
      by (simpl; destruct (rev l); discriminate).
    now rewrite orb_assoc.
Qed.

Lemma double_dash_rev (l : list ascii) : double_dash (rev l) = double_dash l.
Proof.
  induction l as [|c l IH]; [reflexivity|].
  simpl rev. rewrite double_dash_snoc, double_dash_cons, IH, rev_involutive.
  rewrite orb_comm. f_equal. apply andb_comm.
Qed.

Lemma trim_dashes_shape (l : list ascii) :
  (exists pre post, l = pre ++ trim_dashes l ++ post) /\
  head_dash (trim_dashes l) = false /\
  head_dash (rev (trim_dashes l)) = false.
Proof.
  unfold trim_dashes.
  destruct (drop_dashes_suffix l) as (pre & E1 & H1).
  destruct (drop_dashes_suffix (rev (drop_dashes l))) as (post & E2 & H2).
  set (m := drop_dashes (rev (drop_dashes l))) in *.
  assert (E3 : drop_dashes l = rev m ++ rev post).
  { rewrite <- rev_app_distr, <- E2. symmetry. apply rev_involutive. }
  split; [|split].
  - exists pre, (rev post). now rewrite <- E3.
  - revert H1. rewrite E3. destruct (rev m) as [|x r]; [reflexivity|].
    intros H1. exact H1.
  - now rewrite rev_involutive.
Qed.

Lemma lowercase_length (l : list ascii) : length (lowercase l) <= length l.
Proof.
  remember (length l) as n eqn:Hn. revert l Hn.
  induction n as [n IH] using lt_wf_ind. intros l Hn.
  destruct l as [|c l]; [simpl; lia|].
  rewrite SanitizeFacts.lowercase_step.
  pose proof (IH (length l) ltac:(subst n; simpl; lia) l eq_refl) as Hl.
  destruct l as [|c2 l2]; [subst n; simpl; lia|].
  pose proof (IH (length l2) ltac:(subst n; simpl; lia) l2 eq_refl) as Hl2.
  destruct (Ascii.eqb c "196" && Ascii.eqb c2 "176");
    [subst n; cbn [length] in *; lia|].
  destruct l2 as [|c3 l3]; [subst n; cbn [length] in *; lia|].
  pose proof (IH (length l3) ltac:(subst n; simpl; lia) l3 eq_refl) as Hl3.
  destruct (Ascii.eqb c "226" && Ascii.eqb c2 "132" && Ascii.eqb c3 "170");
    subst n; cbn [length] in *; lia.
Qed.

Lemma sanitize_bytes_length (l : list ascii) :
  length (trim_dashes (collapse_dashes (replace_invalid (lowercase l)))) <= length l.
Proof.
  set (t := collapse_dashes (replace_invalid (lowercase l))).
  destruct (trim_dashes_shape t) as ((pre & post & E) & _).
  assert (Ht : length t <= length l).
  { unfold t, collapse_dashes. etransitivity; [apply collapse_length|].
    unfold replace_invalid. rewrite length_map. apply lowercase_length. }
  apply (f_equal (@length ascii)) in E. rewrite !length_app in E. lia.
Qed.

Lemma sanitize_length (s : string) : String.length (sanitizeHostname s) <= 63.
Proof.
  rewrite SanitizeFacts.sanitize_eq. unfold sanitize, truncate63.
  rewrite <- bytes_length, of_bytes, length_take. lia.
Qed.

End SanitizeShape.

(** X1: The result of [sanitizeHostname] has at most 63 bytes, all of [a-z0-9-],
    never starts with a dash and never holds two dashes in a row; when the
    input has at most 63 bytes it does not end with a dash either (a longer
    input can be cut right after a dash). *)
Theorem sanitizeHostname_shape (s : string) :
  String.length (sanitizeHostname s) <= 63 /\
  all_chars hostname_char (sanitizeHostname s) /\
  starts_with_dash (sanitizeHostname s) = false /\
  has_double_dash (sanitizeHostname s) = false /\
  (String.length s <= 63 -> ends_with_dash (sanitizeHostname s) = false).
Proof.
  rewrite SanitizeFacts.sanitize_eq. unfold HostnameSpec.sanitize, HostnameSpec.truncate63.
  unfold all_chars, RegexpSpec.all_in, starts_with_dash, has_double_dash, ends_with_dash.
  rewrite <- bytes_length, of_bytes.
  set (t := HostnameSpec.collapse_dashes
              (HostnameSpec.replace_invalid
                 (HostnameSpec.lowercase (list_ascii_of_string s)))).
  destruct (SanitizeShape.trim_dashes_shape t) as ((pre & post & E) & Hh & Hl).
  assert (Hchars : Forall (fun c => hostname_char c = true) (HostnameSpec.trim_dashes t)).
  { assert (Ht : Forall (fun c => hostname_char c = true) t).
    { apply SanitizeShape.collapse_chars, SanitizeShape.replace_invalid_chars. }
    rewrite E in Ht. apply Forall_app in Ht as [_ Ht]. now apply Forall_app in Ht as [Ht _]. }
  assert (Hdd : double_dash (HostnameSpec.trim_dashes t) = false).
  { pose proof (proj1 (SanitizeShape.collapse_no_double
                         (HostnameSpec.replace_invalid
                            (HostnameSpec.lowercase (list_ascii_of_string s))) false)) as Hd.
    fold (HostnameSpec.collapse_dashes
            (HostnameSpec.replace_invalid
               (HostnameSpec.lowercase (list_ascii_of_string s)))) in Hd.
    fold t in Hd. rewrite E in Hd.
    apply SanitizeShape.double_dash_app in Hd as [_ Hd].
    now apply SanitizeShape.double_dash_app in Hd as [Hd _]. }
  set (u := HostnameSpec.trim_dashes t) in *.
  split; [|split; [|split; [|split]]].
  - rewrite length_take. lia.
  - rewrite <- (take_drop 63 u) in Hchars. now apply Forall_app in Hchars as [Hc _].
  - destruct u as [|c u']; [reflexivity|]. exact Hh.
  - rewrite <- (take_drop 63 u) in Hdd.
    now apply SanitizeShape.double_dash_app in Hdd as [Hd _].
  - intros Hlen.
    pose proof (SanitizeShape.sanitize_bytes_length (list_ascii_of_string s)) as Hb.
    fold t in Hb. fold u in Hb. rewrite bytes_length in Hb.
    rewrite firstn_all2 by lia. exact Hl.
Qed.

(** The hostname of a short name. *)
Lemma sanitizeHostname_shape_witness :
  ends_with_dash (sanitizeHostname "My_Pod.") = false.
Proof.
  apply (proj2 (proj2 (proj2 (proj2 (sanitizeHostname_shape "My_Pod."))))).
  simpl. lia.
Defined.

(** ** What [stripKubernetesSuffixes] can cut off *)
Module CutFacts.
Import Regexp RegexpSpec NameShapes.

Lemma strip_cases (name : string) :
  stripKubernetesSuffixes name = name \/
  exists p, stripKubernetesSuffixes name = string_of_list_ascii p /\ prefix_l p /\
            (replicaset_l (list_ascii_of_string name) p \/
             hash_l (list_ascii_of_string name) p).
Proof.
  unfold stripKubernetesSuffixes.
  destruct (MatchString statefulSetOrdinalPattern name); [now left|].
  unfold FindStringSubmatch.
  destruct (find replicaSetPattern (list_ascii_of_string name)) as [ms|] eqn:Er.
  { apply StripFacts.replicaset_match_sound in Er as (p & -> & Hp & Hn).
    right. exists p. simpl. auto. }
  simpl.
  destruct (find deploymentPattern (list_ascii_of_string name)) as [ms|] eqn:Eh.
  { apply StripFacts.hash_match_sound in Eh as (p & -> & Hp & Hn).
    right. exists p. simpl. auto. }
  now left.
Qed.

End CutFacts.

(** X2: [stripKubernetesSuffixes] returns the name as it is or a non-empty prefix
    of it without line feed, cut in front of a replica-set suffix or of a hash
    suffix: it never returns the empty string for a name that is not empty,
    and it never drops more than 17 bytes. *)
Theorem stripKubernetesSuffixes_cut (name : string) :
  (stripKubernetesSuffixes name = name \/
   (line_prefix (stripKubernetesSuffixes name) /\
    (has_replicaset_suffix name (stripKubernetesSuffixes name) \/
     has_hash_suffix name (stripKubernetesSuffixes name)))) /\
  (exists rest, name = stripKubernetesSuffixes name +:+ rest /\ String.length rest <= 17) /\
  (name <> "" -> stripKubernetesSuffixes name <> "").
Proof.
  destruct (CutFacts.strip_cases name) as [E | (p & E & Hp & Hs)].
  { rewrite E. split; [now left|]. split; [|auto].
    exists "". split; [|simpl; lia].
    apply bytes_inj. rewrite bytes_app. simpl. now rewrite app_nil_r. }
  rewrite E.
  assert (Hlp : line_prefix (string_of_list_ascii p)).
  { apply ShapeBridge.prefix_bridge. now rewrite of_bytes. }
  split; [|split].
  - right. split; [assumption|].
    destruct Hs as [Hs|Hs]; [left|right].
    + apply ShapeBridge.replicaset_bridge. now rewrite of_bytes.
    + apply ShapeBridge.hash_bridge. now rewrite of_bytes.
  - destruct Hs as [(h & r & En & Hh & _ & Hr & _) | (h & En & Hh & _)].
    + exists (string_of_list_ascii ("-"%char :: h ++ "-"%char :: r)). split.
      * apply bytes_inj. now rewrite bytes_app, !of_bytes.
      * rewrite <- bytes_length, of_bytes. simpl. rewrite length_app. simpl. lia.
    + exists (string_of_list_ascii ("-"%char :: h)). split.
      * apply bytes_inj. now rewrite bytes_app, !of_bytes.
      * rewrite <- bytes_length, of_bytes. simpl. lia.
  - intros _. apply Hlp.
Qed.

(** A stateful-set name keeps its ordinal, hence is not empty. *)
Lemma stripKubernetesSuffixes_cut_witness : stripKubernetesSuffixes "web-0" <> "".
Proof.
  apply (proj2 (proj2 (stripKubernetesSuffixes_cut "web-0"))). discriminate.
Defined.

(** ** Interface names *)
Module NameFacts.

Lemma slice_to_length (n : nat) (s : string) : String.length (slice_to n s) <= n.
Proof.
  unfold slice_to. rewrite <- bytes_length, of_bytes, length_take. lia.
Qed.

Lemma append_inj (p a b : string) : p +:+ a = p +:+ b -> a = b.
Proof. induction p as [|c p IH]; simpl; [auto|]. intros H. inversion H. auto. Qed.

Lemma hex_digit_lower (b : ascii) :
  lower_hex (hex_digit (N_of_ascii b / 16)) = true /\
  lower_hex (hex_digit (N_of_ascii b mod 16)) = true.
Proof.
  destruct b as [[] [] [] [] [] [] [] []]; vm_compute; auto.
Qed.

Lemma hex_shape (bytes : list ascii) :
  String.length (hex_EncodeToString bytes) = 2 * length bytes /\
  all_chars lower_hex (hex_EncodeToString bytes).
Proof.
  unfold hex_EncodeToString, all_chars, RegexpSpec.all_in.
  rewrite <- bytes_length, of_bytes.
  induction bytes as [|b bytes [IHl IHc]]; simpl; [split; [reflexivity | constructor]|].
  destruct (hex_digit_lower b) as [H1 H2].
  split; [lia|]. constructor; [assumption|]. constructor; assumption.
Qed.

End NameFacts.

(** X3: The name [tunNameForContainer] gives has at most 11 bytes, starts with
    [ts-], and two container ids get the same name exactly when their first
    eight bytes agree. *)
Theorem tunNameForContainer_collision (c : string) :
  String.length (tunNameForContainer c) <= 11 /\
  gostrings.HasPrefix (tunNameForContainer c) "ts-" = true /\
  (forall c', tunNameForContainer c = tunNameForContainer c' <->
              slice_to 8 c = slice_to 8 c').
Proof.
  rewrite RecoverFacts.tunName_spec. split; [|split].
  - pose proof (NameFacts.slice_to_length 8 c).
    change (S (S (S (String.length (slice_to 8 c)))) <= 11). lia.
  - unfold gostrings.HasPrefix. destruct (slice_to 8 c); reflexivity.
  - intros c'. rewrite RecoverFacts.tunName_spec. split.
    + apply NameFacts.append_inj.
    + now intros ->.
Qed.

(* ================================================================= *)
(** * Further properties of the credential manager *)

Module TokenFacts.
Import Run OAuthFacts.

(** What [getAccessToken] does, by cases. *)
Lemma getAccessToken_cases (env : KeyEnv) (w : World) :
  (token_fresh (k_tokenNow env) (oauthMgr w) = true /\
   getAccessToken env w = (Ok (accessToken (oauthMgr w)), w)) \/
  (token_fresh (k_tokenNow env) (oauthMgr w) = false /\
   ((exists e, (getAccessToken env w).1 = Err e /\
               oauthMgr (getAccessToken env w).2 = oauthMgr w /\
               servers (getAccessToken env w).2 = servers w /\
               (trace (getAccessToken env w).2 = trace w \/
                trace (getAccessToken env w).2 = trace w ++ [token_call (oauthMgr w)])) \/
    (exists resp tr,
        k_tokenDo env = Ok resp /\ StatusCode resp = StatusOK /\ Decoded resp = Ok tr /\
        getAccessToken env w =
          (Ok (AccessToken tr),
           set_oauthMgr (with_token (AccessToken tr)
                           (k_tokenStamp env + int64 (ExpiresIn tr * Second))%Z (oauthMgr w))
             (set_trace (trace w ++ [token_call (oauthMgr w)]) w))))).
Proof.
  unfold getAccessToken, token_fresh, token_call. run.
  destruct (negb (String.eqb (accessToken (oauthMgr w)) "") &&
            (k_tokenNow env + 5 * Minute <? tokenExpiry (oauthMgr w))%Z); run.
  { left. auto. }
  right. split; [reflexivity|].
  destruct (k_tokenNewRequest env); run.
  { left. eexists. repeat split. now left. }
  destruct (k_tokenDo env) as [resp|e]; run.
  2: { left. eexists. repeat split. now right. }
  destruct (StatusCode resp =? StatusOK)%Z eqn:Hs; run.
  2: { left. eexists. repeat split. now right. }
  destruct (Decoded resp) as [tr|e] eqn:Hd; run.
  2: { left. eexists. repeat split. now right. }
  right. exists resp, tr. apply Z.eqb_eq in Hs. auto.
Qed.

(** No wrap-around for a life time of up to 9223372036 seconds. *)
Lemma int64_seconds (n : Z) :
  (-9223372036 <= n <= 9223372036)%Z -> int64 (n * Second) = (n * Second)%Z.
Proof.
  intros H. unfold int64.
  change Second with 1000000000%Z.
  change (2 ^ 63)%Z with 9223372036854775808%Z.
  change (2 ^ 64)%Z with 18446744073709551616%Z.
  rewrite Z.mod_small; lia.
Qed.

End TokenFacts.

(** X4: [getAccessToken] reuses the cached token, without any request, as long
    as it is not empty and expires more than five minutes from now.
    Otherwise it sends at most one token request; a token it returns is the
    one in the answer, and a failure leaves the cache as it was.  Whatever it
    returns on success is the cached token afterwards.  The new token is
    cached with the expiry [expires_in] seconds after the time of the answer
    when [expires_in] is at most 9223372036 in absolute value; the number of
    nanoseconds is computed in 64 bits, so that beyond that it wraps around:
    with [expires_in] 9223372037 the token is cached as expired more than
    292 years ago. *)
Theorem getAccessToken_cache (env : KeyEnv) (w : World) :
  (token_fresh (k_tokenNow env) (oauthMgr w) = true ->
   getAccessToken env w = (Ok (accessToken (oauthMgr w)), w)) /\
  (forall tok, (getAccessToken env w).1 = Ok tok ->
               accessToken (oauthMgr (getAccessToken env w).2) = tok) /\
  (forall e, (getAccessToken env w).1 = Err e ->
             oauthMgr (getAccessToken env w).2 = oauthMgr w) /\
  (token_fresh (k_tokenNow env) (oauthMgr w) = false ->
   forall tok, (getAccessToken env w).1 = Ok tok ->
   exists resp tr,
     k_tokenDo env = Ok resp /\ StatusCode resp = StatusOK /\ Decoded resp = Ok tr /\
     tok = AccessToken tr /\
     tokenExpiry (oauthMgr (getAccessToken env w).2)
       = (k_tokenStamp env + int64 (ExpiresIn tr * Second))%Z /\
     ((-9223372036 <= ExpiresIn tr <= 9223372036)%Z ->
      tokenExpiry (oauthMgr (getAccessToken env w).2)
        = (k_tokenStamp env + ExpiresIn tr * Second)%Z) /\
     trace (getAccessToken env w).2 = trace w ++ [token_call (oauthMgr w)]) /\
  int64 (9223372037 * Second) = (-9223372036709551616)%Z.
Proof.
  split; [|split; [|split; [|split; [|reflexivity]]]];
  destruct (TokenFacts.getAccessToken_cases env w)
    as [[Hf E] | [Hf [(e & He & Hm & _) | (resp & tr & Hdo & Hs & Hd & E)]]];
  try (rewrite E; cbn [fst snd]); try rewrite He.
  - reflexivity.
  - congruence.
  - congruence.
  - intros tok [= <-]. reflexivity.
  - intros tok [=].
  - intros tok [= <-]. reflexivity.
  - intros e [=].
  - intros e' _. exact Hm.
  - intros e [=].
  - congruence.
  - intros _ tok [=].
  - intros _ tok [= <-]. exists resp, tr.
    split; [exact Hdo|]. split; [exact Hs|]. split; [exact Hd|].
    split; [reflexivity|]. split; [reflexivity|]. split; [|reflexivity].
    intros Hb. cbn. now rewrite (TokenFacts.int64_seconds _ Hb).
Qed.

(** A token cached for an hour is returned without a request. *)
Lemma getAccessToken_cache_witness :
  getAccessToken (key_ok "k")
    (set_oauthMgr (with_token "tok" (3600 * Second)%Z (oauthMgr pm0)) pm0)
  = (Ok "tok", set_oauthMgr (with_token "tok" (3600 * Second)%Z (oauthMgr pm0)) pm0).
Proof.
  apply (proj1 (getAccessToken_cache (key_ok "k")
                  (set_oauthMgr (with_token "tok" (3600 * Second)%Z (oauthMgr pm0)) pm0))).
  vm_compute. reflexivity.
Defined.

(** X5: A token obtained by one call is reused by the next: when the first call
    returns a token that is not empty and the second call comes more than
    five minutes before that token expires, the second returns the same
    token and sends nothing. *)
Theorem getAccessToken_reuse (env1 env2 : KeyEnv) (w : World) (tok : string) :
  (getAccessToken env1 w).1 = Ok tok ->
  tok <> "" ->
  (k_tokenNow env2 + 5 * Minute < tokenExpiry (oauthMgr (getAccessToken env1 w).2))%Z ->
  getAccessToken env2 (getAccessToken env1 w).2 = (Ok tok, (getAccessToken env1 w).2).
Proof.
  intros Hok Hne Hlt.
  assert (Hc : accessToken (oauthMgr (getAccessToken env1 w).2) = tok).
  { destruct (TokenFacts.getAccessToken_cases env1 w)
      as [[_ E] | [_ [(e & He & _) | (resp & tr & _ & _ & _ & E)]]].
    - rewrite E in *. simpl in *. congruence.
    - congruence.
    - rewrite E in *. simpl in *. congruence. }
  destruct (TokenFacts.getAccessToken_cases env2 (getAccessToken env1 w).2)
    as [[_ E] | [Hf _]].
  - rewrite E. now rewrite Hc.
  - exfalso. unfold token_fresh in Hf. rewrite Hc in Hf.
    apply andb_false_iff in Hf as [Hf|Hf].
    + apply negb_false_iff, String.eqb_eq in Hf. contradiction.
    + apply Z.ltb_ge in Hf. lia.
Qed.

(** The token of [key_ok], valid for an hour, is reused by the next call. *)
Lemma getAccessToken_reuse_witness :
  getAccessToken (key_ok "k2") (getAccessToken (key_ok "k1") pm0).2
  = (Ok "token", (getAccessToken (key_ok "k1") pm0).2).
Proof.
  apply (getAccessToken_reuse (key_ok "k1") (key_ok "k2") pm0 "token").
  - vm_compute. reflexivity.
  - discriminate.
  - vm_compute. reflexivity.
Defined.

Module KeyFacts.
Import Run OAuthFacts.

(** What [getAccessToken] changes. *)
Lemma getAccessToken_frame (env : KeyEnv) (w : World) :
  exists cs,
    trace (getAccessToken env w).2 = trace w ++ cs /\
    length cs <= 1 /\ count_key_requests cs = 0 /\
    lastAuthKey (oauthMgr (getAccessToken env w).2) = lastAuthKey (oauthMgr w) /\
    baseURL (oauthMgr (getAccessToken env w).2) = baseURL (oauthMgr w) /\
    tags (oauthMgr (getAccessToken env w).2) = tags (oauthMgr w) /\
    match (getAccessToken env w).1 with
    | Ok tok => accessToken (oauthMgr (getAccessToken env w).2) = tok
    | Err _ => True
    end.
Proof.
  destruct (TokenFacts.getAccessToken_cases env w)
    as [[_ E] | [_ [(e & He & Hm & _ & Ht) | (resp & tr & _ & _ & _ & E)]]].
  - rewrite E. exists []. simpl. rewrite app_nil_r. repeat split; lia.
  - rewrite He, Hm. destruct Ht as [Ht|Ht]; rewrite Ht.
    + exists []. simpl. rewrite app_nil_r. repeat split; lia.
    + eexists. split; [reflexivity|]. simpl. repeat split; lia.
  - rewrite E. eexists. split; [reflexivity|]. simpl. repeat split; lia.
Qed.

(** The outcome of [CreateAuthKey] once it is past the two waits: [w] is
    the world with the time stamp set. *)
Definition after_waits (env : KeyEnv) (w : World) : World :=
  set_oauthMgr (with_lastAuthKey (k_stamp env) (oauthMgr w)) w.

Definition waits_pass (env : KeyEnv) (w : World) : bool :=
  match k_sem env with
  | Some _ => false
  | None =>
      if (k_now env - lastAuthKey (oauthMgr w) <? authKeyMinInterval)%Z
      then match k_sleep env with Some _ => false | None => true end
      else true
  end.

Lemma cancelled_wait (env : KeyEnv) (pod ns : string) (w : World) :
  waits_pass env w = false ->
  exists e, CreateAuthKey env pod ns w = (Err e, w) /\
            (k_sem env = Some e \/ k_sleep env = Some e).
Proof.
  unfold waits_pass, CreateAuthKey. run.
  destruct (k_sem env) as [e|]; run; [eauto|].
  destruct (k_now env - lastAuthKey (oauthMgr w) <? authKeyMinInterval)%Z; run;
    [|discriminate].
  destruct (k_sleep env) as [e|]; run; [eauto|discriminate].
Qed.

Lemma CreateAuthKey_sent (env : KeyEnv) (pod ns : string) (w : World) :
  waits_pass env w = true ->
  exists cs,
    trace (CreateAuthKey env pod ns w).2 = trace w ++ cs /\
    length cs <= 2 /\ count_key_requests cs <= 1 /\
    lastAuthKey (oauthMgr (CreateAuthKey env pod ns w).2) = k_stamp env /\
    match (CreateAuthKey env pod ns w).1 with
    | Ok key =>
        exists resp kr t,
          k_keyDo env = Ok resp /\ StatusCode resp = StatusOK /\
          Decoded resp = Ok kr /\ key = Key kr /\
          cs = t ++ [keys_call (oauthMgr w)
                       (accessToken (oauthMgr (CreateAuthKey env pod ns w).2)) pod ns]
    | Err _ => True
    end.
Proof.
  intros Hp.
  assert (E : CreateAuthKey env pod ns w =
              try (getAccessToken env) (ret tt) "getting access token" (fun token =>
              letM m := get_oauthMgr in
              let keyReq := keyRequest m pod ns in
              try (check (k_marshal env)) (ret tt) "marshaling auth key request" (fun _ =>
              try (check (k_keyNewRequest env)) (ret tt) "creating auth key request" (fun _ =>
              try (call (http_keys (baseURL m +:+ "/api/v2/tailnet/-/keys") token keyReq)
                     ;;; query (k_keyDo env))
                  (ret tt) "requesting auth key" (fun resp =>
              if negb (StatusCode resp =? StatusOK)%Z then
                ret (Err ("auth key request failed with status "
                          +:+ Z_to_string (StatusCode resp) +:+ ": " +:+ Body resp))
              else
                try (query (Decoded resp)) (ret tt) "decoding auth key response"
                  (fun keyResp => ret (Ok (Key keyResp)))))))
                (after_waits env w)).
  { unfold waits_pass in Hp. unfold CreateAuthKey, after_waits.
    rewrite try_raw_run. unfold check at 1, ret at 1.
    destruct (k_sem env); [discriminate|].
    rewrite bind_run. unfold get_oauthMgr at 1. cbn [fst snd].
    rewrite try_raw_run.
    destruct (k_now env - lastAuthKey (oauthMgr w) <? authKeyMinInterval)%Z.
    - unfold check at 1, ret at 1. destruct (k_sleep env); [discriminate|].
      rewrite seq_run. reflexivity.
    - unfold ret at 1. rewrite seq_run. reflexivity. }
  rewrite E. clear E. rewrite try_run.
  destruct (getAccessToken_frame env (after_waits env w))
    as (cs & Ht & Hl & Hk & Hla & Hb & Htg & Hr).
  destruct (getAccessToken env (after_waits env w)) as [[tok|e] w1];
    cbn [fst snd] in *; run.
  2: { exists cs. simpl in *. repeat split; auto; lia. }
  assert (Hreq : keyRequest (oauthMgr w1) pod ns = keyRequest (oauthMgr w) pod ns).
  { unfold keyRequest. simpl in Htg. now rewrite Htg. }
  simpl in Ht, Hla, Hb.
  destruct (k_marshal env); run.
  { exists cs. repeat split; auto; lia. }
  destruct (k_keyNewRequest env); run.
  { exists cs. repeat split; auto; lia. }
  assert (Hc : forall c, count_key_requests (cs ++ [c]) <= 1).
  { intros c. unfold count_key_requests in *. rewrite List.filter_app, length_app, Hk.
    simpl. destruct c; simpl; lia. }
  destruct (k_keyDo env) as [resp|e]; run.
  2: { eexists. rewrite Ht, <- app_assoc. split; [reflexivity|].
       rewrite length_app. simpl. repeat split; auto; lia. }
  destruct (StatusCode resp =? StatusOK)%Z eqn:Hs; run.
  2: { eexists. rewrite Ht, <- app_assoc. split; [reflexivity|].
       rewrite length_app. simpl. repeat split; auto; lia. }
  apply Z.eqb_eq in Hs.
  destruct (Decoded resp) as [kr|e] eqn:Hd; run.
  2: { eexists. rewrite Ht, <- app_assoc. split; [reflexivity|].
       rewrite length_app. simpl. repeat split; auto; lia. }
  eexists. rewrite Ht, <- app_assoc. split; [reflexivity|].
  rewrite length_app. simpl. split; [lia|]. split; [apply Hc|]. split; [assumption|].
  exists resp, kr, cs. repeat split; auto.
  unfold keys_call. now rewrite Hr, Hreq, Hb.
Qed.

End KeyFacts.

(** X6: A wait of [CreateAuthKey] that the context ends is the only thing that
    happens: when no slot of the semaphore gets free, or when the pause that
    keeps requests 100 ms apart is cut short, the context's error is
    returned as it is and nothing is sent, minted or recorded.  Once past
    both waits the time of the request is recorded, whether or not a key
    comes back. *)
Theorem CreateAuthKey_waits (env : KeyEnv) (pod ns : string) (w : World) :
  (forall e, k_sem env = Some e -> CreateAuthKey env pod ns w = (Err e, w)) /\
  (forall e, k_sem env = None ->
             (k_now env - lastAuthKey (oauthMgr w) < authKeyMinInterval)%Z ->
             k_sleep env = Some e ->
             CreateAuthKey env pod ns w = (Err e, w)) /\
  (k_sem env = None ->
   (authKeyMinInterval <= k_now env - lastAuthKey (oauthMgr w))%Z \/ k_sleep env = None ->
   lastAuthKey (oauthMgr (CreateAuthKey env pod ns w).2) = k_stamp env).
Proof.
  split; [|split].
  - intros e He.
    destruct (KeyFacts.cancelled_wait env pod ns w) as (e' & E & Hc).
    { unfold KeyFacts.waits_pass. now rewrite He. }
    rewrite E. destruct Hc as [Hc|Hc]; [congruence|].
    unfold CreateAuthKey in E. revert E. OAuthFacts.run. rewrite He. congruence.
  - intros e Hs Hlt Hsl.
    destruct (KeyFacts.cancelled_wait env pod ns w) as (e' & E & Hc).
    { unfold KeyFacts.waits_pass. rewrite Hs, Hsl.
      apply Z.ltb_lt in Hlt. now rewrite Hlt. }
    rewrite E. destruct Hc as [Hc|Hc]; congruence.
  - intros Hs Hc.
    destruct (KeyFacts.CreateAuthKey_sent env pod ns w) as (cs & _ & _ & _ & H & _);
      [|exact H].
    unfold KeyFacts.waits_pass. rewrite Hs.
    destruct Hc as [Hc|Hc].
    + apply Z.ltb_ge in Hc. now rewrite Hc.
    + rewrite Hc. now destruct (_ <? _)%Z.
Qed.

(** No slot of the semaphore before the context ends. *)
Lemma CreateAuthKey_waits_witness :
  CreateAuthKey
    {| k_sem := Some "context deadline exceeded"; k_now := 0%Z; k_sleep := None;
       k_stamp := 0%Z; k_tokenNow := 0%Z; k_tokenNewRequest := None;
       k_tokenDo := Err "unreachable"; k_tokenStamp := 0%Z; k_marshal := None;
       k_keyNewRequest := None; k_keyDo := Err "unreachable" |}
    "web-0" "default" pm0
  = (Err "context deadline exceeded", pm0).
Proof.
  apply (proj1 (CreateAuthKey_waits _ "web-0" "default" pm0)). reflexivity.
Defined.

(** X7: One [CreateAuthKey] sends at most two requests, of which at most one
    asks for a key.  The key it returns is the one in a 200 answer to that
    request, which is the last call made and carries, as bearer, the token
    that is cached afterwards. *)
Theorem CreateAuthKey_requests (env : KeyEnv) (pod ns : string) (w : World) :
  exists cs,
    trace (CreateAuthKey env pod ns w).2 = trace w ++ cs /\
    length cs <= 2 /\ count_key_requests cs <= 1 /\
    forall key, (CreateAuthKey env pod ns w).1 = Ok key ->
      exists resp kr t,
        k_keyDo env = Ok resp /\ StatusCode resp = StatusOK /\
        Decoded resp = Ok kr /\ key = Key kr /\
        cs = t ++ [keys_call (oauthMgr w)
                     (accessToken (oauthMgr (CreateAuthKey env pod ns w).2)) pod ns].
Proof.
  destruct (KeyFacts.waits_pass env w) eqn:Hp.
  - destruct (KeyFacts.CreateAuthKey_sent env pod ns w Hp) as (cs & Ht & Hl & Hk & _ & Hr).
    exists cs. repeat split; auto.
    intros key Hok. rewrite Hok in Hr. exact Hr.
  - destruct (KeyFacts.cancelled_wait env pod ns w Hp) as (e & E & _).
    rewrite E. exists []. simpl. rewrite app_nil_r. repeat split; auto.
    intros key [=].
Qed.

(* ================================================================= *)
(** * Further properties of the daemon *)

(** ** The calls of the bridge *)
Module BridgeTrace.
Import Run OAuthFacts.

Ltac leaf :=
  simpl; rewrite <- ?app_assoc; simpl;
  eexists; split; [reflexivity|]; split; [eexists; reflexivity|];
  try discriminate; try (intros ? [=]); auto.

(** What [setupVethBridge] adds to the trace is a prefix of [bridge_calls];
    it is all of it exactly when the bridge succeeds. *)
Lemma setupVethBridge_trace (env : BridgeEnv) (netns ifn tun : string)
    (ip : netip_Addr) (mtu : Z) (w : World) :
  exists cs,
    trace (setupVethBridge env netns ifn tun ip mtu w).2 = trace w ++ cs /\
    cs `prefix_of` bridge_calls netns ifn (host_veth_of env) tun ip mtu /\
    match (setupVethBridge env netns ifn tun ip mtu w).1 with
    | Ok name =>
        name = host_veth_of env /\ is_ok (b_rand env) = true /\
        cs = bridge_calls netns ifn (host_veth_of env) tun ip mtu
    | Err _ => length cs < 10
    end.
Proof.
  unfold setupVethBridge, host_veth_of. run.
  destruct (b_GetNS env); run.
  { exists []. rewrite app_nil_r. repeat split; [apply prefix_nil | simpl; lia]. }
  destruct (b_rand env) as [bytes|e]; run.
  2: { exists []. rewrite app_nil_r. repeat split; [apply prefix_nil | simpl; lia]. }
  destruct (b_nsDo env); run.
  { exists []. rewrite app_nil_r. repeat split; [apply prefix_nil | simpl; lia]. }
  destruct (b_LinkAdd env); run; [leaf; simpl; lia|].
  destruct (b_podLinkByName env); run; [leaf; simpl; lia|].
  destruct (b_peerLinkByName env); run; [leaf; simpl; lia|].
  destruct (b_LinkSetNsFd env); run; [leaf; simpl; lia|].
  destruct (b_AddrAdd env); run; [leaf; simpl; lia|].
  destruct (b_podLinkSetUp env); run; [leaf; simpl; lia|].
  destruct (b_nsRouteAdd env); run; [leaf; simpl; lia|].
  destruct (b_hostLinkByName env); run; [leaf; simpl; lia|].
  destruct (b_hostLinkSetUp env); run; [leaf; simpl; lia|].
  destruct (b_tunLinkByName env); run; [leaf; simpl; lia|].
  simpl; rewrite <- ?app_assoc; simpl.
  eexists. split; [reflexivity|]. split; [exists []; reflexivity|]. auto.
Qed.

End BridgeTrace.

(** X8: [setupVethBridge] makes its calls in one fixed order: the veth pair is
    created in the pod's namespace, its peer moved to the host, the overlay
    address and the route to the overlay range set on the pod's end, then the
    host's end brought up and given the route to the pod, proxy ARP and
    forwarding switched on, and the overlay range routed to the TUN device.
    A successful set-up makes all ten calls and returns the name of the
    host's end, [veth] followed by the hexadecimal form of the random bytes;
    a failed one stops at a proper prefix of them, so it never deletes the
    pair it created. *)
Theorem setupVethBridge_order (env : BridgeEnv) (netns ifn tun : string)
    (ip : netip_Addr) (mtu : Z) (w : World) :
  exists cs,
    trace (setupVethBridge env netns ifn tun ip mtu w).2 = trace w ++ cs /\
    cs `prefix_of` bridge_calls netns ifn (host_veth_of env) tun ip mtu /\
    (forall name, (setupVethBridge env netns ifn tun ip mtu w).1 = Ok name ->
                  name = host_veth_of env /\
                  cs = bridge_calls netns ifn name tun ip mtu) /\
    (forall e, (setupVethBridge env netns ifn tun ip mtu w).1 = Err e -> length cs < 10).
Proof.
  destruct (BridgeTrace.setupVethBridge_trace env netns ifn tun ip mtu w)
    as (cs & Ht & Hp & Hr).
  exists cs. split; [assumption|]. split; [assumption|].
  destruct (setupVethBridge env netns ifn tun ip mtu w).1 as [name|e]; split.
  - intros name' [= <-]. destruct Hr as (-> & _ & ->). auto.
  - intros e [=].
  - intros name [=].
  - intros e' _. assumption.
Qed.

(** X9: The name of the host's end has 12 bytes, [veth] and eight lower-case
    hexadecimal digits, when four random bytes are drawn. *)
Theorem host_veth_name (env : BridgeEnv) (netns ifn tun : string)
    (ip : netip_Addr) (mtu : Z) (w : World) (name : string) :
  (setupVethBridge env netns ifn tun ip mtu w).1 = Ok name ->
  exists bytes,
    b_rand env = Ok bytes /\
    name = "veth" +:+ hex_EncodeToString bytes /\
    all_chars lower_hex (hex_EncodeToString bytes) /\
    String.length name = 4 + 2 * length bytes.
Proof.
  intros H.
  destruct (BridgeTrace.setupVethBridge_trace env netns ifn tun ip mtu w)
    as (cs & _ & _ & Hr).
  rewrite H in Hr. destruct Hr as (-> & Hok & _).
  unfold host_veth_of in *. destruct (b_rand env) as [bytes|e]; [|discriminate].
  exists bytes. destruct (NameFacts.hex_shape bytes) as [Hl Hc].
  split; [reflexivity|]. split; [reflexivity|]. split; [assumption|].
  change (S (S (S (S (String.length (hex_EncodeToString bytes))))) = 4 + 2 * length bytes).
  lia.
Qed.

(** With the random bytes 00 01 02 03 the host's end is [veth00010203]. *)
Lemma host_veth_name_witness :
  exists bytes,
    b_rand bridge_ok = Ok bytes /\
    "veth00010203" = "veth" +:+ hex_EncodeToString bytes /\
    all_chars lower_hex (hex_EncodeToString bytes) /\
    String.length "veth00010203" = 4 + 2 * length bytes.
Proof.
  apply (host_veth_name bridge_ok "/proc/1234/ns/net" "ts0" "ts-c1" (Addr4 "100.64.0.1")
           defaultVethMTU pm0 "veth00010203").
  vm_compute. reflexivity.
Defined.

(** ** [AddPod]: the instance, the calls, the clean-up *)
Module AddOutcome.
Import Run OAuthFacts BridgeFacts AddFacts.

Lemma saveMetadata_trace (marshal write : option error) (c : string) (m : ManagedServer)
    (netns : string) (w : World) :
  trace (saveMetadata marshal write c m netns w).2
  = trace w ++ match marshal with
               | None => [write_metadata (metadata_path w c) (metadata_of m netns)]
               | Some _ => []
               end.
Proof.
  unfold saveMetadata. run. destruct marshal; run; simpl.
  - now rewrite app_nil_r.
  - reflexivity.
Qed.

Ltac bridge_both :=
  match goal with
  | |- context [setupVethBridge ?benv ?a ?b ?t ?i ?m ?W] =>
      let Hb := fresh "Hb" in
      let Hr := fresh "Hr" in
      let Hbt := fresh "Hbt" in
      let Hbp := fresh "Hbp" in
      let Hbr := fresh "Hbr" in
      let bcs := fresh "bcs" in
      let veth := fresh "veth" in
      let err := fresh "err" in
      let wb := fresh "wb" in
      destruct (setupVethBridge_effect benv a b t i m W) as [Hb _];
      destruct (BridgeTrace.setupVethBridge_trace benv a b t i m W)
        as (bcs & Hbt & Hbp & Hbr);
      destruct (setupVethBridge benv a b t i m W) as [[veth|err] wb];
      destruct Hb as (? & ? & ? & ? & ? & ? & _); proj
  end.

Ltac metadata_both :=
  match goal with
  | |- context [saveMetadata ?a ?b ?c ?m ?n ?W] =>
      let Hm := fresh "Hm" in
      let Hmt := fresh "Hmt" in
      let ws := fresh "ws" in
      pose proof (saveMetadata_effect a b c m n W) as Hm;
      pose proof (saveMetadata_trace a b c m n W) as Hmt;
      destruct (saveMetadata a b c m n W) as [? ws];
      destruct Hm as (? & ? & ? & ? & ? & ? & _); proj
  end.

Ltac skip f := destruct f; run; [exact I|].

Lemma AddPod_success (env : AddEnv) (c netns ifn pod ns ip : string) (w : World) :
  servers w !! c = None ->
  match AddPod env c netns ifn pod ns ip w with
  | (Ok m, w') => add_success env w c netns ifn pod ns ip m w'
  | (Err _, _) => True
  end.
Proof.
  intros Hnone. unfold add_success, AddPod. rewrite Hnone, try_run.
  pose proof (CreateAuthKey_effect (a_key env) pod ns w) as Hkey.
  destruct (CreateAuthKey (a_key env) pod ns w) as [[authKey|e] w1];
    destruct Hkey as (Hsd & Hcn & Hsv & Hlv & Hnx & Htg & _); proj;
    run; [|exact I].
  skip (a_MkdirAll env).
  destruct (a_tstunNew env) as [tun|e0]; run; [|exact I].
  skip (a_tunLinkByName env).
  skip (a_tunLinkSetUp env).
  skip (a_netmonNew env).
  skip (a_engineNew env).
  skip (a_netstackCreate env).
  skip (a_NewFileStore env).
  skip (a_NewPrivateID env).
  skip (a_NewLocalBackend env).
  skip (a_netstackStart env).
  skip (a_lbStart env).
  unfold add_calls, added_instance.
  destruct (a_needsLogin env); run; [skip (a_login env)|].
  all: destruct (wait_for_ip (a_status env) (a_later env) AddrZero AddrZero)
         as [[v4 v6]|state]; run; [|exact I].
  all: bridge_both; run; [|exact I].
  all: metadata_both; run.
  all: destruct Hbr as (-> & _ & ->).
  all: exists v4, v6, authKey, tun.
  all: split; [reflexivity|]; split; [now rewrite Hnx|]; split; [reflexivity|];
       split; [reflexivity|].
  all: proj; cbn [Hostname HostVethName TailscaleIPv4].
  all: split; [|split; congruence].
  all: rewrite Hmt; cbn [trace set_trace set_servers]; rewrite Hbt;
       cbn [trace set_trace set_live set_next]; unfold metadata_path;
       cbn [stateDir set_servers set_trace]; rewrite ?Hnx;
       repeat match goal with H : stateDir _ = _ |- _ => rewrite H end;
       cbn [stateDir set_trace set_live set_next];
       rewrite <- ?app_assoc; reflexivity.
Qed.

Ltac done_failure :=
  unfold add_failure; proj;
  split; [congruence|];
  split; [intros Hfresh;
          repeat match goal with H : live _ = _ |- _ => rewrite H end;
          repeat match goal with H : next _ = _ |- _ => rewrite H end;
          rewrite ?delete_insert_eq, ?delete_id by assumption; reflexivity|];
  first [ intros Hk; cbn in Hk; discriminate Hk
        | intros _ Hm; discriminate Hm
        | intros _ _; cbn [trace set_trace set_live]; eexists; reflexivity ].

Ltac fail_at f := destruct f; run; [solve [done_failure]|].

Lemma AddPod_failure (env : AddEnv) (c netns ifn pod ns ip : string) (w : World) :
  servers w !! c = None ->
  match AddPod env c netns ifn pod ns ip w with
  | (Err _, w') => add_failure env w c pod ns w'
  | (Ok _, _) => True
  end.
Proof.
  intros Hnone. unfold add_failure, AddPod. rewrite Hnone, try_run.
  pose proof (CreateAuthKey_effect (a_key env) pod ns w) as Hkey.
  destruct (CreateAuthKey (a_key env) pod ns w) as [[authKey|e] w1];
    destruct Hkey as (Hsd & Hcn & Hsv & Hlv & Hnx & Htg & _); proj;
    run; [|solve [done_failure]].
  fail_at (a_MkdirAll env).
  destruct (a_tstunNew env) as [tun|e0]; run; [|solve [done_failure]].
  fail_at (a_tunLinkByName env).
  fail_at (a_tunLinkSetUp env).
  fail_at (a_netmonNew env).
  fail_at (a_engineNew env).
  fail_at (a_netstackCreate env).
  fail_at (a_NewFileStore env).
  fail_at (a_NewPrivateID env).
  fail_at (a_NewLocalBackend env).
  fail_at (a_netstackStart env).
  fail_at (a_lbStart env).
  destruct (a_needsLogin env); run; [fail_at (a_login env)|].
  all: destruct (wait_for_ip (a_status env) (a_later env) AddrZero AddrZero)
         as [[v4 v6]|state]; run; [|solve [done_failure]].
  all: bridge_both; run; [|solve [done_failure]].
  all: metadata_both; run; exact I.
Qed.

End AddOutcome.

(** ** The wait for the overlay address *)
Module WaitFacts.

Lemma zero_or_more (fam : netip_Addr -> bool) (sts sts' : list Status) (ip : netip_Addr) :
  (forall st, In st sts -> In st sts') -> zero_or fam sts ip -> zero_or fam sts' ip.
Proof.
  intros Hs [->|[Hf (st & Hin & Hr & Hip)]]; [now left|].
  right. split; [assumption|]. exists st. auto.
Qed.

Lemma pick_ips_reported (sts : list Status) (st : Status) (ips : list netip_Addr)
    (v4 v6 : netip_Addr) :
  In st sts -> BackendState st = "Running" ->
  (forall ip, In ip ips -> In ip (TailscaleIPs st)) ->
  zero_or Is4 sts v4 -> zero_or Is6 sts v6 ->
  zero_or Is4 sts (pick_ips ips v4 v6).1 /\ zero_or Is6 sts (pick_ips ips v4 v6).2.
Proof.
  intros Hin Hrun. revert v4 v6.
  induction ips as [|ip ips IH]; intros v4 v6 Hsub H4 H6; simpl; [auto|].
  assert (Hrep : reported sts ip).
  { exists st. repeat split; auto. apply Hsub. now left. }
  assert (Hsub' : forall ip0, In ip0 ips -> In ip0 (TailscaleIPs st)).
  { intros ip0 H0. apply Hsub. now right. }
  destruct (Is4 ip && negb (IsValid v4)) eqn:E4.
  { apply andb_true_iff in E4 as [E4 _]. apply IH; auto. right. auto. }
  destruct (Is6 ip && negb (IsValid v6)) eqn:E6.
  { apply andb_true_iff in E6 as [E6 _]. apply IH; auto. right. auto. }
  apply IH; auto.
Qed.

Lemma running_state (st : Status) :
  running_with_ips st = true -> BackendState st = "Running".
Proof.
  unfold running_with_ips. intros H. apply andb_true_iff in H as [H _].
  now apply String.eqb_eq in H.
Qed.

Lemma wait_for_ip_reported (later : list Status) :
  forall (sts : list Status) (st : Status) (v4 v6 r4 r6 : netip_Addr),
    In st sts -> (forall s, In s later -> In s sts) ->
    zero_or Is4 sts v4 -> zero_or Is6 sts v6 ->
    wait_for_ip st later v4 v6 = Ok (r4, r6) ->
    (Is4 r4 = true /\ reported sts r4) /\ zero_or Is6 sts r6.
Proof.
  induction later as [|st' later IH]; intros sts st v4 v6 r4 r6 Hin Hsub H4 H6;
    cbn [wait_for_ip].
  - destruct (running_with_ips st) eqn:Hr.
    + destruct (pick_ips_reported sts st (TailscaleIPs st) v4 v6 Hin (running_state _ Hr))
        as [P4 P6]; auto.
      destruct (pick_ips (TailscaleIPs st) v4 v6) as [p4 p6]. cbn [fst snd] in *.
      simpl. destruct (IsValid p4) eqn:Hv; [|discriminate].
      intros [= <- <-]. split; [|assumption].
      destruct P4 as [->|P4]; [discriminate | assumption].
    + simpl. discriminate.
  - destruct (running_with_ips st) eqn:Hr.
    + destruct (pick_ips_reported sts st (TailscaleIPs st) v4 v6 Hin (running_state _ Hr))
        as [P4 P6]; auto.
      destruct (pick_ips (TailscaleIPs st) v4 v6) as [p4 p6]. cbn [fst snd] in *.
      simpl. destruct (IsValid p4) eqn:Hv.
      * intros [= <- <-]. split; [|assumption].
        destruct P4 as [->|P4]; [discriminate | assumption].
      * apply IH; auto.
        -- apply Hsub. now left.
        -- intros s Hs. apply Hsub. now right.
    + simpl. apply IH; auto.
      * apply Hsub. now left.
      * intros s Hs. apply Hsub. now right.
Qed.

Lemma wait_for_ip_sound (st : Status) (later : list Status) (r4 r6 : netip_Addr) :
  wait_for_ip st later AddrZero AddrZero = Ok (r4, r6) ->
  (Is4 r4 = true /\ reported (st :: later) r4) /\ zero_or Is6 (st :: later) r6.
Proof.
  apply wait_for_ip_reported.
  - now left.
  - intros s Hs. now right.
  - now left.
  - now left.
Qed.

End WaitFacts.

(** X10: The instance a successful Add returns for a container that was not
    registered carries the arguments of the request (container id, workload
    name and namespace, cluster address) and the time of the call; its
    hostname is the sanitized [cluster-namespace-name], the workload name
    first stripped of its generated suffix, so it has at most 63 bytes; its
    IPv4 overlay address is an IPv4 address that a Running status reported,
    its IPv6 one is zero or an IPv6 address so reported; the name of the
    host's end of the veth pair is the one drawn by the bridge; and its
    backend is a fresh handle.  The registry holds that instance for the
    container afterwards. *)
Theorem AddPod_instance (env : AddEnv) (c netns ifn pod ns ip : string) (w : World)
    (m : ManagedServer) :
  servers w !! c = None ->
  (AddPod env c netns ifn pod ns ip w).1 = Ok m ->
  m = added_instance env w c pod ns ip (TailscaleIPv4 m) (TailscaleIPv6 m) /\
  wait_for_ip (a_status env) (a_later env) AddrZero AddrZero
    = Ok (TailscaleIPv4 m, TailscaleIPv6 m) /\
  Is4 (TailscaleIPv4 m) = true /\
  reported (a_status env :: a_later env) (TailscaleIPv4 m) /\
  zero_or Is6 (a_status env :: a_later env) (TailscaleIPv6 m) /\
  String.length (Hostname m) <= 63 /\
  servers (AddPod env c netns ifn pod ns ip w).2 !! c = Some m.
Proof.
  intros Hnone Hok.
  pose proof (AddOutcome.AddPod_success env c netns ifn pod ns ip w Hnone) as H.
  destruct (AddPod env c netns ifn pod ns ip w) as [[m'|e] w']; [|discriminate].
  cbn [fst snd] in *. injection Hok as ->.
  destruct H as (v4 & v6 & key & tun & Hw & Hm & _ & _ & _ & Hs & _).
  assert (E4 : TailscaleIPv4 m = v4) by now rewrite Hm.
  assert (E6 : TailscaleIPv6 m = v6) by now rewrite Hm.
  rewrite E4, E6.
  destruct (WaitFacts.wait_for_ip_sound _ _ _ _ Hw) as [[H4 Hr4] H6].
  split; [assumption|]. split; [assumption|]. split; [assumption|].
  split; [assumption|]. split; [assumption|]. split.
  - rewrite Hm. cbn [Hostname added_instance]. apply SanitizeShape.sanitize_length.
  - rewrite Hs. apply lookup_insert_eq.
Qed.

(** The first Add for [c1] on a new manager. *)
Lemma AddPod_instance_witness :
  exists m,
    (add_c1 pm0).1 = Ok m /\
    Hostname m = "k8s-default-nginx-deployment" /\
    Is4 (TailscaleIPv4 m) = true /\
    servers pm1 !! "c1" = Some m.
Proof.
  eexists. split; [vm_compute; reflexivity|].
  edestruct (AddPod_instance
               (reaching_bridge "tskey-auth-1" "ts-c1" "100.64.0.1" bridge_ok)
               "c1" "/proc/1234/ns/net" "ts0" "nginx-deployment-7b5d9c6f8-xyz12" "default"
               "10.42.0.7" pm0)
    as (_ & _ & H4 & _ & _ & _ & Hs); [vm_compute; reflexivity | vm_compute; reflexivity |].
  split; [vm_compute; reflexivity|]. split; [exact H4 | exact Hs].
Defined.

(** X11: The calls of a successful Add come in one order: after those of
    [CreateAuthKey], the state directory is made, the TUN device named after
    the container created and brought up, the monitor, the engine, the
    netstack and the state store built, the backend created and started with
    the derived hostname and the key just minted, the bridge set up for the
    overlay address obtained (with MTU 1420), and, last, the metadata of the
    instance written to [metadata.json] in the container's state directory. *)
Theorem AddPod_call_order (env : AddEnv) (c netns ifn pod ns ip : string) (w : World)
    (m : ManagedServer) :
  servers w !! c = None ->
  (AddPod env c netns ifn pod ns ip w).1 = Ok m ->
  exists key tun,
    (CreateAuthKey (a_key env) pod ns w).1 = Ok key /\
    a_tstunNew env = Ok tun /\
    trace (AddPod env c netns ifn pod ns ip w).2
    = trace (CreateAuthKey (a_key env) pod ns w).2
      ++ add_calls env w c netns ifn m key tun.
Proof.
  intros Hnone Hok.
  pose proof (AddOutcome.AddPod_success env c netns ifn pod ns ip w Hnone) as H.
  destruct (AddPod env c netns ifn pod ns ip w) as [[m'|e] w']; [|discriminate].
  cbn [fst snd] in *. injection Hok as ->.
  destruct H as (v4 & v6 & key & tun & _ & _ & Hk & Ht & Htr & _).
  exists key, tun. auto.
Qed.

(** The calls of the first Add for [c1] on a new manager. *)
Lemma AddPod_call_order_witness :
  trace pm1 =
  [http_token "https://api.tailscale.com/api/v2/oauth/token" "id" "secret";
   http_keys "https://api.tailscale.com/api/v2/tailnet/-/keys" "token"
     (keyRequest (oauthMgr pm0) "nginx-deployment-7b5d9c6f8-xyz12" "default");
   os_MkdirAll "/var/lib/tailscale-cni/pods/c1";
   tstun_New "ts-c1";
   netlink_LinkSetUp None "ts-c1";
   netmon_New 0; wgengine_New 0; netstack_Create 0; tun_Start 0;
   store_NewFileStore "/var/lib/tailscale-cni/pods/c1/tailscale.state";
   ipnlocal_NewLocalBackend 0;
   lb_SetVarRoot 0 "/var/lib/tailscale-cni/pods/c1";
   netstack_Start 0;
   lb_Start 0 "k8s-default-nginx-deployment" (Some "tskey-auth-1")] ++
  bridge_calls "/proc/1234/ns/net" "ts0" "veth00010203" "ts-c1" (Addr4 "100.64.0.1") 1420 ++
  [write_metadata "/var/lib/tailscale-cni/pods/c1/metadata.json"
     {| m_ContainerID := "c1"; m_PodName := "nginx-deployment-7b5d9c6f8-xyz12";
        m_Namespace := "default"; m_Hostname := "k8s-default-nginx-deployment";
        m_TailscaleIPv4 := "100.64.0.1"; m_TailscaleIPv6 := ""; m_CreatedAt := 0%Z;
        m_NetnsPath := "/proc/1234/ns/net"; m_HostVethName := "veth00010203";
        m_ClusterIP := "10.42.0.7" |}].
Proof.
  edestruct (AddPod_call_order
               (reaching_bridge "tskey-auth-1" "ts-c1" "100.64.0.1" bridge_ok)
               "c1" "/proc/1234/ns/net" "ts0" "nginx-deployment-7b5d9c6f8-xyz12" "default"
               "10.42.0.7" pm0)
    as (key & tun & Hk & Ht & Htr); [vm_compute; reflexivity | vm_compute; reflexivity |].
  vm_compute in Hk. injection Hk as <-.
  vm_compute in Ht. injection Ht as <-.
  unfold pm1, add_c1. rewrite Htr. vm_compute. reflexivity.
Defined.

(** X12: A failed Add leaves no trace in the manager: the registry is as before,
    every backend it started is shut down again, so the live backends are
    as before and the registry and the live backends still agree; and when
    the state directory of the container was created, removing it is the
    last thing Add does. *)
Theorem AddPod_failure_clean (env : AddEnv) (c netns ifn pod ns ip : string) (w : World)
    (e : error) :
  consistent w ->
  (AddPod env c netns ifn pod ns ip w).1 = Err e ->
  servers (AddPod env c netns ifn pod ns ip w).2 = servers w /\
  live (AddPod env c netns ifn pod ns ip w).2 = live w /\
  consistent (AddPod env c netns ifn pod ns ip w).2 /\
  (is_ok (CreateAuthKey (a_key env) pod ns w).1 = true -> a_MkdirAll env = None ->
   exists t, trace (AddPod env c netns ifn pod ns ip w).2
             = t ++ [os_RemoveAll (podStateDir_of w c)]).
Proof.
  intros Hc Herr.
  pose proof (RegistryFacts.consistent_add env c netns ifn pod ns ip w Hc) as Hc'.
  destruct (servers w !! c) as [srv|] eqn:Hnone.
  { rewrite (RegistryFacts.AddPod_registered _ _ _ _ _ _ _ _ srv Hnone) in Herr.
    discriminate. }
  pose proof (AddOutcome.AddPod_failure env c netns ifn pod ns ip w Hnone) as H.
  destruct (AddPod env c netns ifn pod ns ip w) as [[m|e'] w']; [discriminate|].
  cbn [fst snd] in *. destruct H as (Hs & Hl & Ht).
  split; [assumption|]. split; [|split; assumption].
  apply Hl. destruct Hc as (_ & _ & I3).
  destruct (live w !! next w) as [c'|] eqn:E; [|reflexivity].
  apply I3 in E. lia.
Qed.

(** An Add for [c2] that fails at the bridge, after the Add for [c1]. *)
Lemma AddPod_failure_clean_witness :
  servers (add_c2_fails pm1).2 = servers pm1 /\
  live (add_c2_fails pm1).2 = live pm1 /\
  exists t, trace (add_c2_fails pm1).2
            = t ++ [os_RemoveAll "/var/lib/tailscale-cni/pods/c2"].
Proof.
  edestruct (AddPod_failure_clean
               (reaching_bridge "tskey-auth-2" "ts-c2" "100.64.0.2" bridge_no_netns)
               "c2" "/proc/4321/ns/net" "ts0" "web-0" "default" "10.42.0.8" pm1)
    as (Hs & Hl & _ & Ht).
  - apply RegistryFacts.consistent_add, RegistryFacts.consistent_new.
  - vm_compute. reflexivity.
  - split; [exact Hs|]. split; [exact Hl|].
    apply Ht; vm_compute; reflexivity.
Defined.

(** ** What an Add may call *)
Module Confined.
Import Run OAuthFacts BridgeFacts AddFacts AddOutcome.


Lemma key_call_own (env : AddEnv) (w : World) (c netns ifn pod ns : string) (call : Call) :
  key_call (keyRequest (oauthMgr w) pod ns) call ->
  add_call_own env w c netns ifn pod ns call.
Proof. destruct call; simpl; tauto. Qed.

Lemma prefix_ok (P : Call -> Prop) (cs all : list Call) :
  cs `prefix_of` all -> Forall P all -> Forall P cs.
Proof. intros [k ->] H. now apply Forall_app in H as [H _]. Qed.

(** The ten calls of the bridge, for the device, the pair and the address of
    this Add. *)
Lemma bridge_calls_own (env : AddEnv) (w : World) (c netns ifn pod ns tun veth : string)
    (ip : netip_Addr) :
  add_tun env = Some tun -> add_veth env = Some veth -> add_ip env = Some ip ->
  Forall (add_call_own env w c netns ifn pod ns)
    (bridge_calls netns ifn veth tun ip defaultVethMTU).
Proof.
  intros Ht Hv Hi. unfold bridge_calls.
  repeat (apply List.Forall_cons;
          [unfold add_call_own; cbv beta iota zeta; eauto 10|]).
  apply List.Forall_nil.
Qed.

(** Without the random bytes the bridge makes no call. *)
Lemma setupVethBridge_no_name (env : BridgeEnv) (netns ifn tun : string)
    (ip : netip_Addr) (mtu : Z) (w : World) (e : error) :
  b_rand env = Err e ->
  trace (setupVethBridge env netns ifn tun ip mtu w).2 = trace w.
Proof.
  intros Hr. unfold setupVethBridge. run.
  destruct (b_GetNS env); run; [reflexivity|].
  rewrite Hr. run. reflexivity.
Qed.

Lemma setupVethBridge_own (env : AddEnv) (w : World) (c netns ifn pod ns tun : string)
    (ip : netip_Addr) (W : World) (cs : list Call) :
  add_tun env = Some tun -> add_ip env = Some ip ->
  trace (setupVethBridge (a_bridge env) netns ifn tun ip defaultVethMTU W).2
    = trace W ++ cs ->
  Forall (add_call_own env w c netns ifn pod ns) cs.
Proof.
  intros Ht Hi Hcs.
  destruct (b_rand (a_bridge env)) as [bytes|e] eqn:Hr.
  - destruct (BridgeTrace.setupVethBridge_trace (a_bridge env) netns ifn tun ip
                defaultVethMTU W) as (cs' & Hcs' & Hp & _).
    rewrite Hcs in Hcs'. apply app_inv_head in Hcs'. subst cs'.
    apply (prefix_ok _ _ _ Hp).
    apply bridge_calls_own; auto.
    unfold add_veth, host_veth_of. now rewrite Hr.
  - rewrite (setupVethBridge_no_name _ _ _ _ _ _ _ e Hr) in Hcs.
    rewrite <- (app_nil_r (trace W)) in Hcs at 1.
    apply app_inv_head in Hcs. subst cs. constructor.
Qed.

Ltac own_call :=
  unfold add_call_own; cbv beta iota zeta;
  first [ exact I | reflexivity | assumption
        | split; [reflexivity|]; first [reflexivity | split; [reflexivity|]; eauto]
        | left; split; [reflexivity | assumption] ].

Ltac own_leaf :=
  proj;
  repeat match goal with H : trace _ = _ |- _ => rewrite H; clear H end;
  repeat match goal with H : next _ = next _ |- _ => rewrite H in * end;
  rewrite <- ?app_assoc; eexists; split; [reflexivity|];
  rewrite ?Forall_app; repeat split; try assumption;
  repeat (apply List.Forall_cons; [own_call|]);
  try apply List.Forall_nil.

Ltac own_at f := destruct f; run; [solve [own_leaf]|].

Ltac bridge_own env w c netns ifn pod ns Ht Hi :=
  match goal with
  | |- context [setupVethBridge ?benv ?a ?b ?t ?i ?m ?W] =>
      let Hb := fresh "Hb" in
      let Hbt := fresh "Hbt" in
      let Hbown := fresh "Hbown" in
      let bcs := fresh "bcs" in
      let veth := fresh "veth" in
      let err := fresh "err" in
      let wb := fresh "wb" in
      destruct (setupVethBridge_effect benv a b t i m W) as [Hb _];
      destruct (BridgeTrace.setupVethBridge_trace benv a b t i m W)
        as (bcs & Hbt & _ & _);
      pose proof (setupVethBridge_own env w c netns ifn pod ns t i W bcs Ht Hi Hbt)
        as Hbown;
      destruct (setupVethBridge benv a b t i m W) as [[veth|err] wb];
      destruct Hb as (? & ? & ? & ? & ? & ? & _); proj
  end.

(** Every call of an Add for a container that is not registered is one of
    [add_call_own]. *)
Lemma AddPod_own_new (env : AddEnv) (c netns ifn pod ns ip : string) (w : World) :
  servers w !! c = None ->
  exists cs, trace (AddPod env c netns ifn pod ns ip w).2 = trace w ++ cs /\
             Forall (add_call_own env w c netns ifn pod ns) cs.
Proof.
  intros Hnone. unfold AddPod. rewrite Hnone, try_run.
  pose proof (CreateAuthKey_effect (a_key env) pod ns w) as Hkey.
  apply (only_calls_impl _ (add_call_own env w c netns ifn pod ns)) in Hkey;
    [|apply key_call_own].
  destruct (CreateAuthKey (a_key env) pod ns w) as [[authKey|e] w1] eqn:Hck;
    destruct Hkey as (Hsd & Hcn & Hsv & Hlv & Hnx & Htg & cs1 & Htr & Hcs1); proj;
    run; [|solve [own_leaf]].
  assert (Hk : exists k, (CreateAuthKey (a_key env) pod ns w).1 = Ok k /\
                         Some authKey = Some k)
    by (exists authKey; now rewrite Hck).
  clear Hck.
  own_at (a_MkdirAll env).
  destruct (a_tstunNew env) as [tun|e0] eqn:Htun; run; [|solve [own_leaf]].
  assert (Ht : add_tun env = Some tun) by (unfold add_tun; now rewrite Htun).
  clear Htun.
  own_at (a_tunLinkByName env).
  own_at (a_tunLinkSetUp env).
  own_at (a_netmonNew env).
  own_at (a_engineNew env).
  own_at (a_netstackCreate env).
  own_at (a_NewFileStore env).
  own_at (a_NewPrivateID env).
  own_at (a_NewLocalBackend env).
  own_at (a_netstackStart env).
  own_at (a_lbStart env).
  destruct (a_needsLogin env); run; [own_at (a_login env)|].
  all: destruct (wait_for_ip (a_status env) (a_later env) AddrZero AddrZero)
         as [[v4 v6]|state] eqn:Hwait; run; [|solve [own_leaf]].
  all: assert (Hi : add_ip env = Some v4) by (unfold add_ip; now rewrite Hwait).
  all: clear Hwait.
  all: bridge_own env w c netns ifn pod ns Ht Hi; run; [|solve [own_leaf]].
  all: metadata_both; run.
  all: assert (Hmok : Forall (add_call_own env w c netns ifn pod ns)
                        match a_marshal env with
                        | None => [write_metadata (metadata_path w c)
                                     (metadata_of
                                        {| Backend := next w; Engine := next w;
                                           Sys := next w; NetMon := Some (next w);
                                           ContainerID := c; PodName := pod;
                                           Namespace := ns;
                                           Hostname :=
                                             sanitizeHostname
                                               (clusterName w +:+ "-" +:+ ns +:+ "-"
                                                +:+ stripKubernetesSuffixes pod);
                                           ClusterIP := ip; HostVethName := veth;
                                           TailscaleIPv4 := v4; TailscaleIPv6 := v6;
                                           CreatedAt := a_now env |} netns)]
                        | Some _ => []
                        end)
         by (destruct (a_marshal env); repeat constructor).
  all: cbn [trace set_servers set_trace] in Hmt; unfold metadata_path in Hmt;
       cbn [stateDir set_servers set_trace] in Hmt;
       repeat match goal with H : stateDir _ = _ |- _ => rewrite H in Hmt end;
       cbn [stateDir set_trace set_live set_next] in Hmt;
       repeat match goal with H : next _ = next _ |- _ => rewrite H in * end;
       fold (metadata_path w c) in Hmt.
  all: own_leaf.
Qed.


End Confined.

(** X13: Every call an Add makes has its target in what the Add was given or
    made itself.  Requests to the control API apart (the one for a key is
    the request for this workload), it touches only the state directory, the
    metadata file and the state store of its container; creates only the TUN
    device named after the container; works on one fresh handle, the backend
    started under the hostname of the workload with the key just obtained;
    creates the veth pair in the namespace it was given, the pod's end under
    the name it was given and with MTU 1420, the host's end under the name it
    drew; brings up only the TUN device it created and the two ends of that
    pair; adds only the routes of the overlay range through the pod's end and
    through that TUN device and of the address it obtained through the host's
    end; and never deletes or replaces a link, an address or a route.  It
    writes two files under [/proc]: [proxy_arp] of the host's end, and
    [ip_forward], which is a setting of the whole host and the one call that
    is not about the container alone.  An Add for a registered container
    makes no call at all. *)
Theorem AddPod_confined (env : AddEnv) (c netns ifn pod ns ip : string) (w : World) :
  exists cs,
    trace (AddPod env c netns ifn pod ns ip w).2 = trace w ++ cs /\
    Forall (add_call_own env w c netns ifn pod ns) cs /\
    (is_Some (servers w !! c) -> cs = []).
Proof.
  destruct (servers w !! c) as [srv|] eqn:Hc.
  - rewrite (RegistryFacts.AddPod_registered _ _ _ _ _ _ _ _ srv Hc).
    exists []. simpl. rewrite app_nil_r. auto.
  - destruct (Confined.AddPod_own_new env c netns ifn pod ns ip w Hc) as (cs & Ht & Hcs).
    exists cs. split; [assumption|]. split; [assumption|].
    intros [x Hx]. discriminate.
Qed.

(** ** The registry across requests *)
Module FrameFacts.
Import Run OAuthFacts AddFacts.

Lemma run_op_other (op : Op) (w : World) (c' : string) :
  op_target op <> c' -> servers (run_op op w) !! c' = servers w !! c'.
Proof.
  destruct op as [env c netns ifn pod ns ip | env c | status c]; simpl; intros Hne.
  - destruct (servers w !! c) as [srv|] eqn:Hc.
    + now rewrite (RegistryFacts.AddPod_registered _ _ _ _ _ _ _ _ srv Hc).
    + pose proof (AddPod_effect env c netns ifn pod ns ip w Hc) as Hp.
      unfold add_post in Hp.
      destruct (AddPod env c netns ifn pod ns ip w) as [[m|e] w']; simpl in *.
      * destruct Hp as (_ & _ & _ & _ & _ & _ & -> & _).
        now apply lookup_insert_ne.
      * destruct Hp as (_ & _ & _ & _ & -> & _). reflexivity.
  - destruct (servers w !! c) as [m|] eqn:Hc.
    + destruct (RegistryFacts.DeletePod_registered env c w m Hc) as (_ & -> & _).
      now apply lookup_delete_ne.
    + now rewrite RegistryFacts.DeletePod_absent.
  - now rewrite RegistryFacts.CheckPod_world.
Qed.

Lemma run_ops_other (ops : list Op) (w : World) (c' : string) :
  Forall (fun op => op_target op <> c') ops ->
  servers (run_ops ops w) !! c' = servers w !! c'.
Proof.
  revert w. induction ops as [|op ops IH]; intros w H; simpl; [reflexivity|].
  inversion H; subst. rewrite IH by assumption. now apply run_op_other.
Qed.

Lemma DeletePod_trace (net : NetEnv) (c : string) (w : World) (m : ManagedServer) :
  servers w !! c = Some m ->
  trace (DeletePod net c w).2 = trace w ++ delete_calls net w c m.
Proof.
  intros H. unfold DeletePod, delete_calls. rewrite H. run.
  destruct (NetMon m); run;
    destruct (String.eqb (HostVethName m) ""); run;
    try (destruct (n_LinkByName net (HostVethName m)); run);
    simpl; rewrite <- ?app_assoc; reflexivity.
Qed.

End FrameFacts.

(** X14: Requests about other containers never touch the entry of a container:
    after any sequence of Add, Delete and Check requests none of which is
    about [c], the registry holds for [c] what it held before; when the
    registry and the live backends agreed before, the backends live for [c]
    are the same as well. *)
Theorem other_containers_untouched (ops : list Op) (w : World) (c : string) :
  Forall (fun op => op_target op <> c) ops ->
  servers (run_ops ops w) !! c = servers w !! c /\
  (consistent w ->
   forall h, live (run_ops ops w) !! h = Some c <-> live w !! h = Some c).
Proof.
  intros H. pose proof (FrameFacts.run_ops_other ops w c H) as Hs.
  split; [assumption|].
  intros Hc h.
  pose proof (RegistryFacts.consistent_ops ops w Hc) as Hc'.
  destruct Hc as (I1 & I2 & _). destruct Hc' as (J1 & J2 & _).
  split; intros Hl.
  - apply J2 in Hl as (srv & Hsrv & <-). rewrite Hs in Hsrv. now apply I1 in Hsrv.
  - apply I2 in Hl as (srv & Hsrv & <-). rewrite <- Hs in Hsrv. now apply J1 in Hsrv.
Qed.

(** An Add that fails for [c2] and a Delete of [c2] leave [c1] registered. *)
Lemma other_containers_untouched_witness :
  servers (run_ops
             [OpAdd (reaching_bridge "tskey-auth-2" "ts-c2" "100.64.0.2" bridge_no_netns)
                "c2" "/proc/4321/ns/net" "ts0" "web-0" "default" "10.42.0.8";
              OpDelete net_ok "c2"] pm1) !! "c1"
  = servers pm1 !! "c1".
Proof.
  apply (other_containers_untouched _ pm1 "c1").
  repeat constructor; discriminate.
Defined.

(** X15: Delete of a registered container makes, in this order, the calls that
    shut its backend down, close the engine and the monitor, delete the
    host's end of the veth pair (only when it has a name and is found) and
    remove the state directory of the container; it deletes no other link,
    and the backend is no longer live. *)
Theorem DeletePod_calls (net : NetEnv) (c : string) (w : World) (m : ManagedServer) :
  servers w !! c = Some m ->
  trace (DeletePod net c w).2 = trace w ++ delete_calls net w c m /\
  live (DeletePod net c w).2 = delete (Backend m) (live w) /\
  (forall name, In (netlink_LinkDel None name) (delete_calls net w c m) ->
                name = HostVethName m /\ name <> "" /\ n_LinkByName net name = None).
Proof.
  intros H. split; [now apply FrameFacts.DeletePod_trace|]. split.
  - apply (RegistryFacts.DeletePod_registered net c w m H).
  - intros name Hin. unfold delete_calls in Hin.
    destruct (NetMon m); simpl in Hin;
      destruct (String.eqb (HostVethName m) "") eqn:Hv;
      try destruct (n_LinkByName net (HostVethName m)) eqn:Hl; simpl in Hin;
      repeat (destruct Hin as [Hin|Hin]; try discriminate Hin);
      try contradiction;
      injection Hin as <-; apply String.eqb_neq in Hv; auto.
Qed.

(** The Delete of [c1] after its Add. *)
Lemma DeletePod_calls_witness :
  trace (DeletePod net_ok "c1" pm1).2
  = trace pm1 ++ [lb_Shutdown 0; eng_Close 0; netmon_Close 0;
                  netlink_LinkDel None "veth00010203";
                  os_RemoveAll "/var/lib/tailscale-cni/pods/c1"].
Proof.
  edestruct (DeletePod_calls net_ok "c1" pm1) as (Ht & _ & _);
    [vm_compute; reflexivity|].
  rewrite Ht. vm_compute. reflexivity.
Defined.

(** X16: A Delete undoes an Add: after a successful Add of a container that was
    not registered, on a manager whose registry and live backends agree, the
    Delete of that container gives back the registry and the live backends
    of before the Add, and it shuts down the backend the Add started and
    deletes the veth end the Add created when that is still there. *)
Theorem add_then_delete (env : AddEnv) (net : NetEnv) (c netns ifn pod ns ip : string)
    (w : World) (m : ManagedServer) :
  consistent w ->
  servers w !! c = None ->
  (AddPod env c netns ifn pod ns ip w).1 = Ok m ->
  servers (DeletePod net c (AddPod env c netns ifn pod ns ip w).2).2 = servers w /\
  live (DeletePod net c (AddPod env c netns ifn pod ns ip w).2).2 = live w /\
  trace (DeletePod net c (AddPod env c netns ifn pod ns ip w).2).2
  = trace (AddPod env c netns ifn pod ns ip w).2
    ++ delete_calls net w c (added_instance env w c pod ns ip (TailscaleIPv4 m)
                               (TailscaleIPv6 m)).
Proof.
  intros Hc Hnone Hok.
  pose proof (AddOutcome.AddPod_success env c netns ifn pod ns ip w Hnone) as H.
  pose proof (AddFacts.AddPod_effect env c netns ifn pod ns ip w Hnone) as [Hsd _].
  destruct (AddPod env c netns ifn pod ns ip w) as [[m'|e] w']; [|discriminate].
  cbn [fst snd] in *. injection Hok as ->.
  destruct H as (v4 & v6 & key & tun & _ & Hm & _ & _ & _ & Hs & Hl).
  assert (Hreg : servers w' !! c = Some m) by (rewrite Hs; apply lookup_insert_eq).
  destruct (RegistryFacts.DeletePod_registered net c w' m Hreg) as (_ & Hs' & Hl' & _).
  assert (Hb : Backend m = next w) by now rewrite Hm.
  split; [|split].
  - rewrite Hs', Hs, delete_insert_eq. now apply delete_id.
  - rewrite Hl', Hl, Hb, delete_insert_eq. apply delete_id.
    destruct Hc as (_ & _ & I3).
    destruct (live w !! next w) as [c'|] eqn:E; [|reflexivity].
    apply I3 in E. lia.
  - rewrite (FrameFacts.DeletePod_trace net c w' m Hreg).
    f_equal.
    assert (E : added_instance env w c pod ns ip (TailscaleIPv4 m) (TailscaleIPv6 m) = m).
    { rewrite Hm at 3. now rewrite Hm. }
    rewrite E. unfold delete_calls, podStateDir_of. now rewrite Hsd.
Qed.

(** The Delete of [c1] after its Add on a new manager. *)
Lemma add_then_delete_witness :
  servers (DeletePod net_ok "c1" pm1).2 = servers pm0 /\
  live (DeletePod net_ok "c1" pm1).2 = live pm0.
Proof.
  edestruct (add_then_delete
               (reaching_bridge "tskey-auth-1" "ts-c1" "100.64.0.1" bridge_ok) net_ok
               "c1" "/proc/1234/ns/net" "ts0" "nginx-deployment-7b5d9c6f8-xyz12" "default"
               "10.42.0.7" pm0)
    as (Hs & Hl & _).
  - apply RegistryFacts.consistent_new.
  - vm_compute. reflexivity.
  - vm_compute. reflexivity.
  - split; [exact Hs | exact Hl].
Defined.

(** ** Look-up by name *)
Module LookupFacts.

Lemma registered_values (w : World) (srv : ManagedServer) :
  In srv (map snd (map_to_list (servers w))) <-> exists c, servers w !! c = Some srv.
Proof.
  rewrite in_map_iff. split.
  - intros ([c s] & <- & Hin). exists c.
    apply elem_of_map_to_list. now apply list_elem_of_In.
  - intros [c Hc]. exists (c, srv). split; [reflexivity|].
    apply list_elem_of_In. now apply elem_of_map_to_list.
Qed.

End LookupFacts.

(** X17: [GetPodByName] changes nothing; an instance it returns is registered and
    has the namespace and the name asked for; it returns none exactly when
    no registered instance has them. *)
Theorem GetPodByName_sound (namespace name : string) (w : World) :
  (GetPodByName namespace name w).2 = w /\
  (forall srv, (GetPodByName namespace name w).1 = Some srv ->
               Namespace srv = namespace /\ PodName srv = name /\
               exists c, servers w !! c = Some srv) /\
  ((GetPodByName namespace name w).1 = None <->
   forall c srv, servers w !! c = Some srv ->
                 ~ (Namespace srv = namespace /\ PodName srv = name)).
Proof.
  unfold GetPodByName. cbn [fst snd]. split; [reflexivity|]. split.
  - intros srv H. apply find_some in H as [Hin Hb].
    apply andb_true_iff in Hb as [H1 H2].
    apply String.eqb_eq in H1, H2. split; [assumption|]. split; [assumption|].
    now apply LookupFacts.registered_values.
  - split.
    + intros H c srv Hc [H1 H2].
      assert (Hin : In srv (map snd (map_to_list (servers w))))
        by (apply LookupFacts.registered_values; eauto).
      pose proof (find_none _ _ H srv Hin) as Hb. simpl in Hb.
      rewrite H1, H2, !String.eqb_refl in Hb. discriminate.
    + intros H.
      destruct (List.find _ _) as [srv|] eqn:E; [|reflexivity].
      exfalso. apply find_some in E as [Hin Hb].
      apply andb_true_iff in Hb as [H1 H2]. apply String.eqb_eq in H1, H2.
      apply LookupFacts.registered_values in Hin as [c Hc].
      apply (H c srv Hc). auto.
Qed.

(** ** The handlers of the gRPC service *)

(** X18: [Server.Del] and [Server.Check] never return an error.  After a Del the
    container is not registered; a Check changes nothing and answers healthy
    exactly when the container is registered and its backend reports the
    state Running. *)
Theorem Del_Check_never_fail :
  (forall net req w,
     (Server_Del net req w).1 = Ok tt /\
     servers (Server_Del net req w).2 !! pb.r_ContainerId req = None) /\
  (forall status req w,
     (Server_Check status req w).2 = w /\
     exists resp,
       (Server_Check status req w).1 = Ok resp /\
       (pb.Healthy resp = true <->
        exists m, servers w !! pb.r_ContainerId req = Some m /\
                  BackendState (status (Backend m)) = "Running")).
Proof.
  split.
  - intros net req w. unfold Server_Del. rewrite Run.bind_run.
    rewrite RegistryFacts.DeletePod_ok. cbn [ret fst snd].
    split; [reflexivity|]. apply RegistryFacts.DeletePod_removes.
  - intros status req w. unfold Server_Check, CheckPod, bind, ret.
    destruct (servers w !! pb.r_ContainerId req) as [m|] eqn:Hc.
    + destruct (String.eqb (BackendState (status (Backend m))) "Running") eqn:Hr;
        cbn [negb fst snd]; (split; [reflexivity|]); eexists; (split; [reflexivity|]);
        cbn [pb.Healthy].
      * apply String.eqb_eq in Hr. split; eauto.
      * apply String.eqb_neq in Hr. split; [discriminate|].
        intros (m' & [= <-] & H). contradiction.
    + cbn [fst snd]. split; [reflexivity|]. eexists. split; [reflexivity|].
      cbn [pb.Healthy]. split; [discriminate|]. intros (m & [=] & _).
Qed.


(** ** Recovery of one container *)
Module RecoverOutcome.
Import Run OAuthFacts BridgeFacts AddFacts.

Section Steps.
Variables (benv : BackendEnv) (old : option netip_Addr).
Variables (w : World) (c : string) (meta : PodMetadata).

Let P := recovery_call_ok benv old w c meta.

Ltac rec_call := unfold recovery_call_ok; cbv beta iota zeta; eauto 12.

Ltac okc := unfold only_calls; repeat (split; [reflexivity|]);
  simpl; rewrite <- ?app_assoc; simpl;
  first [ exists []; split; [now rewrite app_nil_r | constructor]
        | eexists; split; [reflexivity|];
          repeat (apply List.Forall_cons; [rec_call|]); apply List.Forall_nil ].

Lemma getOrCreateTUN_ok (net : NetEnv) (lb ls : option error) (W : World) :
  only_calls P W
    (getOrCreateTUN net (rb_tstunNew benv) lb ls (next w) (tunNameForContainer c) W).2 /\
  match (getOrCreateTUN net (rb_tstunNew benv) lb ls (next w) (tunNameForContainer c) W).1
  with
  | Ok name => rec_tun benv = Some name
  | Err _ => True
  end.
Proof.
  unfold getOrCreateTUN, P. run.
  destruct (n_LinkByName net (tunNameForContainer c)) as [e1|]; run.
  - destruct (rb_tstunNew benv) as [tun|e2] eqn:Htun; run; [|split; [okc | exact I]].
    assert (Ht : rec_tun benv = Some tun) by (unfold rec_tun; now rewrite Htun).
    destruct lb; run; [split; [okc | exact I]|].
    destruct ls; run; (split; [okc | exact I || exact Ht]).
  - destruct (n_LinkDel net (tunNameForContainer c)) as [e1|]; run;
      [split; [okc | exact I]|].
    destruct (rb_tstunNew benv) as [tun|e2] eqn:Htun; run; [|split; [okc | exact I]].
    assert (Ht : rec_tun benv = Some tun) by (unfold rec_tun; now rewrite Htun).
    destruct lb; run; [split; [okc | exact I]|].
    destruct ls; run; (split; [okc | exact I || exact Ht]).
Qed.

Lemma updatePodIP_ok (env : PodIPEnv) (oldIP new : netip_Addr) (W : World) :
  old = Some oldIP -> rec_ip benv = Some new ->
  only_calls P W (updatePodIP env (m_NetnsPath meta) oldIP new W).2.
Proof.
  intros Ho Hn.
  unfold updatePodIP, P. destruct (bool_decide (oldIP = new)); run; [okc|].
  destruct (u_GetNS env); run; [okc|]. destruct (u_nsDo env); run; [okc|].
  destruct (u_LinkByName env); run; [okc|]. destruct (u_AddrAdd env); run; okc.
Qed.

Lemma updateHostRoute_ok (env : RouteEnv) (oldIP new : netip_Addr) (W : World) :
  old = Some oldIP -> rec_ip benv = Some new ->
  only_calls P W (updateHostRoute env (m_HostVethName meta) oldIP new W).2.
Proof.
  intros Ho Hn.
  unfold updateHostRoute, P. destruct (bool_decide (oldIP = new)); run; [okc|].
  destruct (t_vethLinkByName env); run; [okc|]. destruct (t_RouteAdd env); run; okc.
Qed.

Lemma ensureRoutes_ok (env : RouteEnv) (tun : string) (ip : netip_Addr) (W : World) :
  rec_tun benv = Some tun -> rec_ip benv = Some ip ->
  only_calls P W (ensureRoutes env tun (m_HostVethName meta) ip W).2.
Proof.
  intros Ht Hi.
  unfold ensureRoutes, P. run.
  destruct (t_vethLinkByName env); run; [okc|].
  destruct (t_tunLinkByName env); run; okc.
Qed.

Lemma bridge_ok_calls (veth tun : string) (ip : netip_Addr) :
  rec_veth benv = Some veth -> rec_tun benv = Some tun -> rec_ip benv = Some ip ->
  Forall P (bridge_calls (m_NetnsPath meta) "ts0" veth tun ip defaultVethMTU).
Proof.
  intros Hv Ht Hi. unfold bridge_calls, P.
  repeat (apply List.Forall_cons; [rec_call|]). apply List.Forall_nil.
Qed.

Lemma setupVethBridge_ok (tun : string) (ip : netip_Addr) (W : World) :
  rec_tun benv = Some tun -> rec_ip benv = Some ip ->
  only_calls P W
    (setupVethBridge (rb_bridge benv) (m_NetnsPath meta) "ts0" tun ip defaultVethMTU W).2 /\
  match (setupVethBridge (rb_bridge benv) (m_NetnsPath meta) "ts0" tun ip
           defaultVethMTU W).1 with
  | Ok name => name = host_veth_of (rb_bridge benv)
  | Err _ => True
  end.
Proof.
  intros Htun Hip.
  destruct (setupVethBridge_effect (rb_bridge benv) (m_NetnsPath meta) "ts0" tun ip
              defaultVethMTU W) as [(H1 & H2 & H3 & H4 & H5 & H6 & _) _].
  destruct (BridgeTrace.setupVethBridge_trace (rb_bridge benv) (m_NetnsPath meta) "ts0"
              tun ip defaultVethMTU W) as (cs & Ht & Hp & Hr).
  split.
  - repeat (split; [assumption|]). exists cs. split; [assumption|].
    destruct (b_rand (rb_bridge benv)) as [bytes|e] eqn:Hrand.
    + apply (Confined.prefix_ok _ _ _ Hp). apply bridge_ok_calls; auto.
      unfold rec_veth, host_veth_of. now rewrite Hrand.
    + rewrite (Confined.setupVethBridge_no_name _ _ _ _ _ _ _ e Hrand) in Ht.
      rewrite <- (app_nil_r (trace W)) in Ht at 1.
      apply app_inv_head in Ht. subst cs. constructor.
  - destruct (setupVethBridge (rb_bridge benv) (m_NetnsPath meta) "ts0" tun ip
                defaultVethMTU W).1; [apply Hr | exact I].
Qed.

Lemma reconnectVethBridge_ok (net : NetEnv) (routes : RouteEnv)
    (tun : string) (ip : netip_Addr) (W : World) :
  rec_tun benv = Some tun -> rec_ip benv = Some ip ->
  only_calls P W
    (reconnectVethBridge net routes (rb_bridge benv) (m_NetnsPath meta) tun
       (m_HostVethName meta) ip W).2 /\
  match (reconnectVethBridge net routes (rb_bridge benv) (m_NetnsPath meta) tun
           (m_HostVethName meta) ip W).1 with
  | Ok veth =>
      (veth = m_HostVethName meta /\ veth <> "" /\ n_LinkByName net veth = None) \/
      (veth = host_veth_of (rb_bridge benv) /\
       (m_HostVethName meta = "" \/ n_LinkByName net (m_HostVethName meta) <> None))
  | Err _ => True
  end.
Proof.
  intros Htun Hip.
  unfold reconnectVethBridge.
  destruct (String.eqb (m_HostVethName meta) "") eqn:Hv; cbn [negb andb].
  - apply String.eqb_eq in Hv.
    destruct (setupVethBridge_ok tun ip W Htun Hip) as [H1 H2]. split; [assumption|].
    destruct (setupVethBridge _ _ _ _ _ _ W).1; [|exact I]. right. auto.
  - apply String.eqb_neq in Hv.
    destruct (bool_decide (n_LinkByName net (m_HostVethName meta) = None)) eqn:Hl.
    + apply bool_decide_eq_true in Hl. rewrite seq_run, warn_only_run. cbn [ret fst snd].
      split; [now apply ensureRoutes_ok | left; auto].
    + apply bool_decide_eq_false in Hl.
      destruct (setupVethBridge_ok tun ip W Htun Hip) as [H1 H2]. split; [assumption|].
      destruct (setupVethBridge _ _ _ _ _ _ W).1; [|exact I]. right. auto.
Qed.

End Steps.

Ltac effect_of H :=
  let cs := fresh "cs" in
  let Ht := fresh "Ht" in
  let Hcs := fresh "Hcs" in
  destruct H as (? & ? & ? & ? & ? & _ & cs & Ht & Hcs); proj.

Ltac tun_step benv old w c meta :=
  match goal with
  | |- context [getOrCreateTUN ?a ?b ?d ?e ?h ?n ?W] =>
      let H := fresh "Hstep" in
      let Ht := fresh "Htun" in
      destruct (getOrCreateTUN_ok benv old w c meta a d e W) as [H Ht];
      destruct (getOrCreateTUN a b d e h n W) as [[?tun|?err] ?wt]; effect_of H
  end.

Ltac ip_step benv old w c meta Hw :=
  match goal with
  | |- context [updatePodIP ?a ?n ?o ?i ?W] =>
      let H := fresh "Hstep" in
      pose proof (updatePodIP_ok benv old w c meta a o i W eq_refl Hw) as H;
      destruct (updatePodIP a n o i W) as [? ?wu]; effect_of H
  end.

Ltac route_step benv old w c meta Hw :=
  match goal with
  | |- context [updateHostRoute ?a ?v ?o ?i ?W] =>
      let H := fresh "Hstep" in
      pose proof (updateHostRoute_ok benv old w c meta a o i W eq_refl Hw) as H;
      destruct (updateHostRoute a v o i W) as [? ?wr]; effect_of H
  end.

Ltac reconnect_step benv old w c meta Htun Hw :=
  match goal with
  | |- context [reconnectVethBridge ?a ?b ?d ?n ?t ?v ?i ?W] =>
      let H := fresh "Hstep" in
      let Hv := fresh "Hveth" in
      destruct (reconnectVethBridge_ok benv old w c meta a b t i W Htun Hw) as [H Hv];
      destruct (reconnectVethBridge a b d n t v i W) as [[?veth|?err] ?wb];
      effect_of H
  end.

Ltac ok_trace :=
  repeat match goal with H : trace _ = _ |- _ => rewrite H; clear H end;
  rewrite <- ?app_assoc; eexists; split; [reflexivity|];
  rewrite ?Forall_app; repeat split; try assumption;
  repeat (apply List.Forall_cons; [simpl; auto|]);
  try apply List.Forall_nil.

Ltac ok_live :=
  intros Hfresh;
  repeat match goal with H : live _ = _ |- _ => rewrite H end;
  rewrite ?delete_insert_eq, ?delete_id by assumption; reflexivity.

Ltac ok_post :=
  unfold recover_post; proj;
  split; [congruence|]; split; [congruence|]; split; [congruence|];
  split; [congruence|]; split; [ok_trace|]; try ok_live.

Ltac halt f := destruct f; run; [solve [ok_post]|].

Lemma recoverPodBackend_effect (net : NetEnv) (env : BackendEnv) (c : string)
    (meta : PodMetadata) (expectedIP : netip_Addr) (w : World) :
  recover_post net env w c meta expectedIP (recoverPodBackend net env c meta expectedIP w).
Proof.
  unfold recoverPodBackend. run.
  tun_step env (Some expectedIP) w c meta; run; [|solve [ok_post]].
  halt (rb_netmonNew env).
  halt (rb_engineNew env).
  halt (rb_netstackCreate env).
  halt (rb_NewFileStore env).
  halt (rb_NewPrivateID env).
  halt (rb_NewLocalBackend env).
  halt (rb_netstackStart env).
  halt (rb_lbStart env).
  destruct (rb_needsLogin env); run; [halt (rb_login env)|].
  all: destruct (wait_for_connection (rb_status env) (rb_later env)) as [v4|] eqn:Hw;
       run; [|solve [ok_post]].
  all: destruct (bool_decide (v4 = expectedIP)); run;
       [|ip_step env (Some expectedIP) w c meta Hw; run;
         destruct (negb (String.eqb (m_HostVethName meta) "")); run;
         [route_step env (Some expectedIP) w c meta Hw; run|]].
  all: reconnect_step env (Some expectedIP) w c meta Htun Hw; run; [|solve [ok_post]].
  all: ok_post; split; [congruence|]; exists v4, veth; split; [exact Hw|];
       split; [reflexivity | assumption].
Qed.

Lemma cleanup_frame (net : NetEnv) (rm : option error) (c veth : string) (w : World) :
  stateDir (cleanupOrphanedPod net rm c veth w).2 = stateDir w /\
  clusterName (cleanupOrphanedPod net rm c veth w).2 = clusterName w /\
  next (cleanupOrphanedPod net rm c veth w).2 = next w.
Proof.
  unfold cleanupOrphanedPod.
  rewrite !seq_run, warn_only_run, attempt_run, RecoverFacts.delete_link_if_present_run.
  destruct (negb (String.eqb veth "")).
  - rewrite RecoverFacts.delete_link_if_present_run. auto.
  - auto.
Qed.

Lemma orphan_calls_ok (benv : BackendEnv) (old : option netip_Addr) (net : NetEnv)
    (w : World) (c : string) (meta : PodMetadata) :
  Forall (recovery_call_ok benv old w c meta) (orphan_calls net w c (m_HostVethName meta)).
Proof.
  unfold orphan_calls.
  destruct (n_LinkByName net (tunNameForContainer c));
    destruct (String.eqb (m_HostVethName meta) "");
    try destruct (n_LinkByName net (m_HostVethName meta));
    simpl; repeat (apply List.Forall_cons; [simpl; auto|]); apply List.Forall_nil.
Qed.

Lemma recoverPod_orphan (env : RecoverEnv) (w : World) (c : string) (meta : PodMetadata)
    (r : unit * World) :
  r = cleanupOrphanedPod (r_net env) (r_RemoveAll env c) c (m_HostVethName meta) w ->
  stateDir r.2 = stateDir w /\ clusterName r.2 = clusterName w /\
  (exists cs, trace r.2 = trace w ++ cs /\
              Forall (recovery_call_ok (r_backend env c) (stored_ip env meta) w c meta)
                cs) /\
  @None error = None /\ servers r.2 = servers w /\ live r.2 = live w /\ next r.2 = next w.
Proof.
  intros ->.
  destruct (cleanup_frame (r_net env) (r_RemoveAll env c) c (m_HostVethName meta) w)
    as (H1 & H2 & H3).
  destruct (RecoverFacts.cleanupOrphanedPod_effect (r_net env) (r_RemoveAll env c) c
              (m_HostVethName meta) w) as (H4 & H5 & H6).
  repeat (split; [assumption || reflexivity|]).
  split; [|auto].
  eexists. split; [eassumption | apply orphan_calls_ok].
Qed.

Lemma recoverPod_effect (env : RecoverEnv) (c : string) (w : World) :
  recoverPod_post env w c (recoverPod env c w).
Proof.
  unfold recoverPod_post, recoverPod.
  rewrite bind_run, RecoverFacts.loadMetadata_world.
  destruct (loadMetadata env c w).1 as [meta|e]; [|reflexivity].
  unfold is_orphan.
  destruct (netnsExists (r_Stat env) (m_NetnsPath meta)); cbn [negb orb].
  2: { rewrite seq_run. cbn [ret fst snd]. now apply (recoverPod_orphan env w c meta). }
  destruct (r_stateMissing env _).
  { rewrite seq_run. cbn [ret fst snd]. now apply (recoverPod_orphan env w c meta). }
  unfold stored_ip.
  destruct (r_ParseAddr env (m_TailscaleIPv4 meta)) as [ip|e].
  2: { cbn [ret fst snd]. repeat (split; [reflexivity|]). split.
       - exists []. rewrite app_nil_r. auto.
       - repeat split; auto; lia. }
  rewrite bind_run.
  pose proof (recoverPodBackend_effect (r_net env) (r_backend env c) c meta ip w) as Hp.
  unfold recover_post in Hp.
  destruct (recoverPodBackend (r_net env) (r_backend env c) c meta ip w) as [[m|e] wb];
    cbn [fst snd] in Hp; destruct Hp as (Hsd & Hcn & Hsv & Hnx & (cs & Ht & Hcs) & Hr).
  2: { cbn [ret fst snd]. repeat (split; [assumption|]). split; [eauto|].
       split; [assumption|]. split; [lia | assumption]. }
  destruct Hr as (Hl & v4 & veth & Hw & Hm & Hv).
  run.
  destruct (bool_decide (TailscaleIPv4 m = ip)); run.
  - split; [assumption|]. split; [assumption|]. split; [eauto|].
    split; [assumption|]. split; [assumption|].
    exists v4, veth. rewrite Hsv, <- Hm. auto.
  - match goal with
    | |- context [saveMetadata ?a ?b ?d ?m' ?n ?W] =>
        pose proof (saveMetadata_effect a b d m' n W) as Hs;
        pose proof (AddOutcome.saveMetadata_trace a b d m' n W) as Hst;
        destruct (saveMetadata a b d m' n W) as [? ws]
    end.
    destruct Hs as (S1 & S2 & S3 & S4 & S5 & _). proj.
    split; [congruence|]. split; [congruence|]. split.
    { rewrite Hst. cbn [trace set_servers]. rewrite Ht, <- app_assoc.
      eexists. split; [reflexivity|]. apply Forall_app. split; [assumption|].
      destruct (r_marshal env c); repeat constructor.
      unfold metadata_path. cbn [stateDir set_servers]. now rewrite Hsd. }
    split; [congruence|]. split; [congruence|].
    exists v4, veth. rewrite S3, Hsv, <- Hm. auto.
Qed.

End RecoverOutcome.

(** X20: A recovery that succeeds for a record that is not an orphan's registers
    the container with the identity of the record: workload name,
    namespace, hostname, cluster address and time of creation are the
    recorded ones; the IPv4 overlay address is the first IPv4 address the
    restarted backend reports when Running, not the recorded one; the veth
    end is the recorded one when it is still found on the host, and a newly
    drawn one otherwise.  The backend is a fresh handle, live for the
    container. *)
Theorem recoverPod_registers (env : RecoverEnv) (c : string) (w : World)
    (meta : PodMetadata) :
  (loadMetadata env c w).1 = Ok meta ->
  is_orphan env w c meta = false ->
  (recoverPod env c w).1 = None ->
  exists v4 veth,
    wait_for_connection (rb_status (r_backend env c)) (rb_later (r_backend env c))
    = Some v4 /\
    servers (recoverPod env c w).2
    = <[c := recovered_instance w c meta v4
               (first_v6 (TailscaleIPs (rb_finalStatus (r_backend env c)))) veth]>
        (servers w) /\
    live (recoverPod env c w).2 = <[next w := c]> (live w) /\
    ((veth = m_HostVethName meta /\ veth <> "" /\ n_LinkByName (r_net env) veth = None) \/
     (veth = host_veth_of (rb_bridge (r_backend env c)) /\
      (m_HostVethName meta = "" \/
       n_LinkByName (r_net env) (m_HostVethName meta) <> None))).
Proof.
  intros Hm Ho Hr.
  pose proof (RecoverOutcome.recoverPod_effect env c w) as H.
  unfold recoverPod_post in H. rewrite Hm, Ho, Hr in H.
  destruct H as (_ & _ & _ & _ & Hl & v4 & veth & Hs & Hw & Hv).
  exists v4, veth. auto.
Qed.

(** The recovery of [c1] when the engine comes back with another address. *)
Lemma recoverPod_registers_witness :
  exists m,
    servers (recoverPod (restart_ok "100.64.0.9") "c1" pm0).2 !! "c1" = Some m /\
    Hostname m = "k8s-default-web-0" /\
    TailscaleIPv4 m = Addr4 "100.64.0.9" /\
    HostVethName m = "veth00010203".
Proof.
  edestruct (recoverPod_registers (restart_ok "100.64.0.9") "c1" pm0 gone_meta)
    as (v4 & veth & Hw & Hs & _ & Hv);
    [vm_compute; reflexivity | vm_compute; reflexivity | vm_compute; reflexivity |].
  vm_compute in Hw. injection Hw as <-.
  destruct Hv as [(-> & _) | (_ & [Hv|Hv])].
  - eexists. rewrite Hs. split; [apply lookup_insert_eq|]. repeat split.
  - discriminate Hv.
  - exfalso. apply Hv. reflexivity.
Defined.

(** X21: The recovery of a container never talks to the control API and never
    creates a directory; the backend is started again on a fresh handle,
    under the recorded hostname and without a key, and the only directory
    removed and the only files of the daemon touched are those of the
    container.  Every other call has its target in the record or in what the
    recovery made itself.  It creates the TUN device named after the
    container, brings up the device created, and deletes only a link of that
    name and the recorded host's end.  On [ts0] in the recorded namespace it
    removes the recorded address and adds the reported one.  On the host it
    removes the route of the recorded address through the recorded host's
    end, and routes the reported address through that end, or through the
    end of a new veth pair, and the overlay range through the device created.
    A new veth pair is made in the recorded namespace with [ts0] as the pod's
    end, both ends brought up and the overlay range routed through [ts0]
    there.  It writes two files under [/proc]: [proxy_arp] of the new host's
    end, and [ip_forward], which is a setting of the whole host and the one
    call that is not about the container alone.  When the record cannot be
    loaded nothing is called. *)
Theorem recovery_confined (env : RecoverEnv) (c : string) (w : World) :
  match (loadMetadata env c w).1 with
  | Ok meta =>
      exists cs, trace (recoverPod env c w).2 = trace w ++ cs /\
                 Forall (recovery_call_ok (r_backend env c) (stored_ip env meta) w c meta)
                   cs
  | Err e => recoverPod env c w = (Some (wrap "loading metadata" e), w)
  end.
Proof.
  pose proof (RecoverOutcome.recoverPod_effect env c w) as H.
  unfold recoverPod_post in H.
  destruct (loadMetadata env c w).1 as [meta|e]; [|assumption].
  now destruct H as (_ & _ & H & _).
Qed.

(** ** The recovery pass and the registry invariant *)
Module PassFacts.

Lemma consistent_same (w w' : World) :
  servers w' = servers w -> live w' = live w -> next w <= next w' ->
  consistent w -> consistent w'.
Proof.
  intros Hs Hl Hn (I1 & I2 & I3). unfold consistent. rewrite Hs, Hl.
  split; [assumption|]. split; [assumption|].
  intros h c H. apply I3 in H. lia.
Qed.

Lemma consistent_insert (w w' : World) (c : string) (m : ManagedServer) :
  consistent w -> servers w !! c = None ->
  ContainerID m = c -> Backend m = next w ->
  servers w' = <[c := m]> (servers w) -> live w' = <[next w := c]> (live w) ->
  next w' = S (next w) ->
  consistent w'.
Proof.
  intros (I1 & I2 & I3) Hnone Hid Hb Hs Hl Hn.
  assert (Hfresh : live w !! next w = None).
  { destruct (live w !! next w) as [c'|] eqn:E; [|reflexivity]. apply I3 in E. lia. }
  unfold consistent. rewrite Hs, Hl, Hn. split; [|split].
  - intros c0 srv H. destruct (decide (c = c0)) as [<-|Hne].
    + rewrite lookup_insert_eq in H. injection H as <-.
      split; [assumption|]. rewrite Hb. apply lookup_insert_eq.
    + rewrite lookup_insert_ne in H by assumption.
      destruct (I1 _ _ H) as [Hk Hlv]. split; [assumption|].
      rewrite lookup_insert_ne; [assumption|].
      intros E. rewrite <- E in Hlv. congruence.
  - intros h c' H. destruct (decide (next w = h)) as [<-|Hne].
    + rewrite lookup_insert_eq in H. injection H as <-.
      exists m. rewrite lookup_insert_eq. auto.
    + rewrite lookup_insert_ne in H by assumption.
      destruct (I2 _ _ H) as (srv & Hsrv & Hbs).
      exists srv. split; [|assumption].
      rewrite lookup_insert_ne; [assumption|]. congruence.
  - intros h c' H. destruct (decide (next w = h)) as [<-|Hne]; [lia|].
    rewrite lookup_insert_ne in H by assumption. apply I3 in H. lia.
Qed.

Lemma recoverPod_consistent (env : RecoverEnv) (c : string) (w : World) :
  consistent w -> servers w !! c = None ->
  consistent (recoverPod env c w).2 /\
  forall c', c' <> c -> servers (recoverPod env c w).2 !! c' = servers w !! c'.
Proof.
  intros Hc Hnone.
  pose proof (RecoverOutcome.recoverPod_effect env c w) as H.
  unfold recoverPod_post in H.
  destruct (loadMetadata env c w).1 as [meta|e].
  2: { rewrite H. auto. }
  destruct H as (_ & _ & _ & H).
  destruct (is_orphan env w c meta).
  { destruct H as (_ & Hs & Hl & Hn). split.
    - apply (consistent_same w); auto. lia.
    - intros. now rewrite Hs. }
  destruct (recoverPod env c w).1.
  - destruct H as (Hs & Hn & Hl). split.
    + apply (consistent_same w); auto; [|lia].
      apply Hl. destruct Hc as (_ & _ & I3).
      destruct (live w !! next w) as [c'|] eqn:E; [|reflexivity]. apply I3 in E. lia.
    + intros. now rewrite Hs.
  - destruct H as (Hn & Hl & v4 & veth & Hs & _). split.
    + eapply (consistent_insert w); eauto; reflexivity.
    + intros c' Hne. rewrite Hs. now apply lookup_insert_ne.
Qed.

Lemma recoverPod_registered_only (env : RecoverEnv) (c : string) (w : World) (c' : string) :
  consistent w -> servers w !! c = None ->
  is_Some (servers (recoverPod env c w).2 !! c') ->
  is_Some (servers w !! c') \/ c' = c.
Proof.
  intros Hc Hnone H. destruct (decide (c' = c)) as [->|Hne]; [now right|].
  left. now rewrite <- (proj2 (recoverPod_consistent env c w Hc Hnone) c' Hne).
Qed.

Lemma cleanup_consistent (net : NetEnv) (rm : option error) (c veth : string) (w : World) :
  consistent w -> consistent (cleanupOrphanedPod net rm c veth w).2.
Proof.
  destruct (RecoverFacts.cleanupOrphanedPod_effect net rm c veth w) as (Hs & Hl & _).
  destruct (RecoverOutcome.cleanup_frame net rm c veth w) as (_ & _ & Hn).
  apply consistent_same; auto. lia.
Qed.

Lemma recover_entries_consistent (env : RecoverEnv) (entries : list DirEntry) :
  forall (n : nat) (errs : list error) (w : World),
    consistent w ->
    NoDup (dir_names entries) ->
    (forall c, In c (dir_names entries) -> servers w !! c = None) ->
    consistent (recover_entries env entries n errs w).2 /\
    forall c, is_Some (servers (recover_entries env entries n errs w).2 !! c) ->
              is_Some (servers w !! c) \/ In c (dir_names entries).
Proof.
  induction entries as [|entry rest IH]; intros n errs w Hc Hnd Hun.
  - simpl. auto.
  - destruct (IsDir entry) eqn:Hd.
    2: { cbn [recover_entries]. rewrite Hd. cbn [negb].
         unfold dir_names in *. simpl in *. rewrite Hd in *. now apply IH. }
    unfold dir_names in Hnd, Hun. simpl in Hnd, Hun. rewrite Hd in Hnd, Hun.
    simpl in Hnd, Hun. fold (dir_names rest) in Hnd, Hun.
    apply NoDup_cons in Hnd as [Hnotin Hnd].
    assert (Hnone : servers w !! Name entry = None) by (apply Hun; now left).
    destruct (recoverPod_consistent env (Name entry) w Hc Hnone) as [Hc1 Hfr].
    assert (Hun1 : forall c, In c (dir_names rest) ->
                             servers (recoverPod env (Name entry) w).2 !! c = None).
    { intros c Hin. rewrite Hfr; [apply Hun; now right|].
      intros ->. apply Hnotin. now apply list_elem_of_In. }
    rewrite RecoverFacts.recover_entries_dir by assumption.
    assert (Hdn : dir_names (entry :: rest) = Name entry :: dir_names rest).
    { unfold dir_names. simpl. now rewrite Hd. }
    rewrite Hdn.
    destruct (recoverPod env (Name entry) w).1 as [e|].
    + match goal with
      | |- context [recover_entries env rest n ?E (cleanupOrphanedPod ?a ?b ?d ?v ?W).2] =>
          pose proof (cleanup_consistent a b d v W Hc1) as Hc2;
          destruct (RecoverFacts.cleanupOrphanedPod_effect a b d v W) as (Hs2 & _);
          destruct (IH n E (cleanupOrphanedPod a b d v W).2 Hc2 Hnd) as [R1 R2]
      end.
      { intros c Hin. rewrite Hs2. now apply Hun1. }
      split; [assumption|].
      intros c H. apply R2 in H as [H|H]; [|right; now right].
      rewrite Hs2 in H.
      apply (recoverPod_registered_only env (Name entry) w c Hc Hnone) in H as [H| ->];
        [now left | right; now left].
    + destruct (IH (S n) errs (recoverPod env (Name entry) w).2 Hc1 Hnd Hun1) as [R1 R2].
      split; [assumption|].
      intros c H. apply R2 in H as [H|H]; [|right; now right].
      apply (recoverPod_registered_only env (Name entry) w c Hc Hnone) in H as [H| ->];
        [now left | right; now left].
Qed.

End PassFacts.

(** X22: The recovery pass keeps the registry and the live backends in
    agreement: on a manager where they agree, for directories with distinct
    names none of which is registered, after [RecoverPods] every registered
    instance carries its key and has its own live backend, every live
    backend belongs to a registered instance, and nothing is registered but
    what was before or has a directory.  So after the pass at start-up every
    container has at most one live backend. *)
Theorem RecoverPods_consistent (env : RecoverEnv) (entries : list DirEntry) (w : World) :
  consistent w ->
  NoDup (dir_names entries) ->
  (forall c, In c (dir_names entries) -> servers w !! c = None) ->
  consistent (RecoverPods env (DirEntries entries) w).2 /\
  (forall c, is_Some (servers (RecoverPods env (DirEntries entries) w).2 !! c) ->
             is_Some (servers w !! c) \/ In c (dir_names entries)) /\
  (forall c, length (live_for (RecoverPods env (DirEntries entries) w).2 c) <= 1).
Proof.
  intros Hc Hnd Hun. unfold RecoverPods.
  destruct (PassFacts.recover_entries_consistent env entries 0 [] w Hc Hnd Hun) as [H1 H2].
  split; [assumption|]. split; [assumption|].
  intros c. now apply RegistryFacts.live_for_at_most_one.
Qed.

(** The pass at start-up over the directories [c1] and [c2] and a file. *)
Lemma RecoverPods_consistent_witness :
  consistent
    (RecoverPods (restart_ok "100.64.0.1")
       (DirEntries [{| Name := "c1"; IsDir := true |}; {| Name := "lock"; IsDir := false |};
                    {| Name := "c2"; IsDir := true |}]) pm0).2.
Proof.
  apply (RecoverPods_consistent (restart_ok "100.64.0.1")).
  - apply RegistryFacts.consistent_new.
  - apply NoDup_cons. split; [|apply NoDup_singleton].
    intros H. apply list_elem_of_In in H. destruct H as [H|[]]. discriminate H.
  - intros c _. reflexivity.
Defined.

(** X23: What Add records, the recovery restores: when the record loaded for a
    container is the one a successful Add wrote for its instance, a
    successful recovery registers an instance with the same container id,
    workload name, namespace, cluster address, hostname and time of
    creation, whatever the cluster name of the restarted daemon is; its
    backend is a fresh handle, and its veth end is the one of the Add when
    that is still found on the host. *)
Theorem recover_after_add (aenv : AddEnv) (env : RecoverEnv)
    (c netns ifn pod ns ip : string) (w0 w : World) (m : ManagedServer) :
  servers w0 !! c = None ->
  (AddPod aenv c netns ifn pod ns ip w0).1 = Ok m ->
  (loadMetadata env c w).1 = Ok (metadata_of m netns) ->
  is_orphan env w c (metadata_of m netns) = false ->
  (recoverPod env c w).1 = None ->
  exists m',
    servers (recoverPod env c w).2 !! c = Some m' /\
    ContainerID m' = c /\ PodName m' = pod /\ Namespace m' = ns /\ ClusterIP m' = ip /\
    Hostname m' = Hostname m /\ CreatedAt m' = CreatedAt m /\
    Backend m' = next w /\
    (n_LinkByName (r_net env) (HostVethName m) = None -> HostVethName m <> "" ->
     HostVethName m' = HostVethName m).
Proof.
  intros Hnone Hok Hload Ho Hr.
  pose proof (AddOutcome.AddPod_success aenv c netns ifn pod ns ip w0 Hnone) as Ha.
  destruct (AddPod aenv c netns ifn pod ns ip w0) as [[m0|e] w1]; [|discriminate].
  cbn [fst snd] in *. injection Hok as ->.
  destruct Ha as (v4 & v6 & _ & _ & _ & Hm & _).
  pose proof (RecoverOutcome.recoverPod_effect env c w) as H.
  unfold recoverPod_post in H. rewrite Hload, Ho, Hr in H.
  destruct H as (_ & _ & _ & _ & _ & r4 & veth & Hs & _ & Hv).
  eexists. split; [rewrite Hs; apply lookup_insert_eq|].
  cbn [recovered_instance ContainerID PodName Namespace ClusterIP Hostname CreatedAt
       Backend HostVethName metadata_of m_PodName m_Namespace m_ClusterIP m_Hostname
       m_CreatedAt].
  rewrite Hm at 1 2 3. cbn [added_instance PodName Namespace ClusterIP].
  repeat (split; [reflexivity|]).
  intros Hfound Hne. cbn [metadata_of m_HostVethName] in Hv.
  destruct Hv as [(-> & _) | (_ & [Hv|Hv])]; [reflexivity | contradiction | contradiction].
Qed.

(** The recovery of [c1] from the metadata its Add wrote. *)
Lemma recover_after_add_witness :
  exists m',
    servers (recoverPod restart_c1 "c1" pm0).2 !! "c1" = Some m' /\
    PodName m' = "nginx-deployment-7b5d9c6f8-xyz12" /\
    Hostname m' = "k8s-default-nginx-deployment" /\
    HostVethName m' = "veth00010203".
Proof.
  edestruct (recover_after_add
               (reaching_bridge "tskey-auth-1" "ts-c1" "100.64.0.1" bridge_ok) restart_c1
               "c1" "/proc/1234/ns/net" "ts0" "nginx-deployment-7b5d9c6f8-xyz12" "default"
               "10.42.0.7" pm0 pm0 c1_instance)
    as (m' & Hs & _ & Hp & _ & _ & Hh & _ & _ & Hv);
    [vm_compute; reflexivity | vm_compute; reflexivity | vm_compute; reflexivity
    | vm_compute; reflexivity | vm_compute; reflexivity |].
  exists m'. split; [exact Hs|]. split; [exact Hp|]. split.
  - rewrite Hh. vm_compute. reflexivity.
  - rewrite Hv; [vm_compute; reflexivity | reflexivity | discriminate].
Defined.

(** X24: [reconnectVethBridge] keeps a recorded veth end that is still found on
    the host: it then never fails, returns that name, creates no veth pair
    and at most replaces the route to the pod and the route to the TUN
    device, in that order.  When no name is recorded, or the link is not
    found, it is [setupVethBridge] for the interface [ts0] with the default
    MTU. *)
Theorem reconnect_reuses_veth (net : NetEnv) (routes : RouteEnv) (bridge : BridgeEnv)
    (netns tun veth : string) (ip : netip_Addr) (w : World) :
  (veth <> "" -> n_LinkByName net veth = None ->
   (reconnectVethBridge net routes bridge netns tun veth ip w).1 = Ok veth /\
   servers (reconnectVethBridge net routes bridge netns tun veth ip w).2 = servers w /\
   exists cs,
     trace (reconnectVethBridge net routes bridge netns tun veth ip w).2 = trace w ++ cs /\
     cs `prefix_of` route_calls tun veth ip /\
     (t_vethLinkByName routes = None -> t_tunLinkByName routes = None ->
      cs = route_calls tun veth ip)) /\
  (veth = "" \/ n_LinkByName net veth <> None ->
   reconnectVethBridge net routes bridge netns tun veth ip w
   = setupVethBridge bridge netns "ts0" tun ip defaultVethMTU w).
Proof.
  unfold reconnectVethBridge. split.
  - intros Hne Hfound.
    apply String.eqb_neq in Hne. rewrite Hne, Hfound. cbn [negb andb].
    rewrite bool_decide_eq_true_2 by reflexivity.
    rewrite Run.seq_run, Run.warn_only_run. cbn [ret fst snd].
    split; [reflexivity|].
    unfold ensureRoutes, route_calls. OAuthFacts.run.
    destruct (t_vethLinkByName routes); OAuthFacts.run.
    { split; [reflexivity|]. exists []. rewrite app_nil_r.
      split; [reflexivity|]. split; [apply prefix_nil | discriminate]. }
    destruct (t_tunLinkByName routes); OAuthFacts.run.
    { split; [reflexivity|]. eexists. split; [reflexivity|].
      split; [eexists; reflexivity | discriminate]. }
    split; [reflexivity|]. rewrite <- app_assoc. eexists. split; [reflexivity|].
    split; [exists []; now rewrite app_nil_r | reflexivity].
  - intros [-> | Hnf]; [reflexivity|].
    rewrite bool_decide_eq_false_2 by assumption.
    now rewrite andb_false_r.
Qed.

(** The recorded veth end [veth00010203] is found: both routes are replaced. *)
Lemma reconnect_reuses_veth_witness :
  (reconnectVethBridge net_ok (rb_routes (backend_ok "100.64.0.1")) bridge_ok
     "/proc/1234/ns/net" "ts-c1" "veth00010203" (Addr4 "100.64.0.1") pm0).1
  = Ok "veth00010203".
Proof.
  apply (proj1 (reconnect_reuses_veth net_ok (rb_routes (backend_ok "100.64.0.1")) bridge_ok
                  "/proc/1234/ns/net" "ts-c1" "veth00010203" (Addr4 "100.64.0.1") pm0)).
  - discriminate.
  - reflexivity.
Defined.

(** X25: After a successful recovery of the backend the metadata on disk is
    written again exactly when the overlay address differs from the recorded
    one: it then describes the recovered instance (so it holds the new
    address), goes to the metadata file of the container, and a failure to
    write it is only logged; the recovery returns nil either way.  A
    recorded address that cannot be parsed makes the recovery fail before
    anything is called. *)
Theorem recoverPod_metadata_update (env : RecoverEnv) (c : string) (w : World)
    (meta : PodMetadata) :
  (loadMetadata env c w).1 = Ok meta ->
  is_orphan env w c meta = false ->
  (forall e, r_ParseAddr env (m_TailscaleIPv4 meta) = Err e ->
             recoverPod env c w = (Some (wrap "parsing stored Tailscale IP" e), w)) /\
  (forall ip0 m wb,
     r_ParseAddr env (m_TailscaleIPv4 meta) = Ok ip0 ->
     recoverPodBackend (r_net env) (r_backend env c) c meta ip0 w = (Ok m, wb) ->
     (recoverPod env c w).1 = None /\
     servers (recoverPod env c w).2 = <[c := m]> (servers wb) /\
     trace (recoverPod env c w).2
     = trace wb ++
       if bool_decide (TailscaleIPv4 m = ip0) then []
       else match r_marshal env c with
            | None => [write_metadata (metadata_path w c) (metadata_of m (m_NetnsPath meta))]
            | Some _ => []
            end).
Proof.
  intros Hload Ho. unfold is_orphan in Ho. apply orb_false_iff in Ho as [Hns Hst].
  apply negb_false_iff in Hns.
  assert (E : recoverPod env c w =
              match r_ParseAddr env (m_TailscaleIPv4 meta) with
              | Err e => (Some (wrap "parsing stored Tailscale IP" e), w)
              | Ok ip0 =>
                  (letM rb := recoverPodBackend (r_net env) (r_backend env c) c meta ip0 in
                   match rb with
                   | Err e => ret (Some (wrap "recovering backend" e))
                   | Ok managed =>
                       register c managed ;;;
                       (if bool_decide (TailscaleIPv4 managed = ip0) then ret tt
                        else warn_only (saveMetadata (r_marshal env c)
                                          (r_writeMetadata env c) c managed
                                          (m_NetnsPath meta))) ;;;
                       ret None
                   end) w
              end).
  { unfold recoverPod. rewrite Run.bind_run, RecoverFacts.loadMetadata_world, Hload, Hns.
    cbn [negb]. rewrite Hst. destruct (r_ParseAddr env (m_TailscaleIPv4 meta)); reflexivity. }
  split.
  - intros e He. now rewrite E, He.
  - intros ip0 m wb Hp Hb. rewrite E, Hp, Run.bind_run, Hb. cbn [fst snd].
    pose proof (RecoverOutcome.recoverPodBackend_effect (r_net env) (r_backend env c) c meta
                  ip0 w) as Hpost.
    rewrite Hb in Hpost. destruct Hpost as (Hsd & _).
    rewrite !Run.seq_run. cbn [ret fst snd register].
    destruct (bool_decide (TailscaleIPv4 m = ip0)).
    + cbn [ret fst snd servers trace set_servers]. rewrite app_nil_r. auto.
    + rewrite Run.warn_only_run. cbn [fst snd].
      split; [reflexivity|].
      pose proof (AddFacts.saveMetadata_effect (r_marshal env c) (r_writeMetadata env c) c m
                    (m_NetnsPath meta) (set_servers (<[c:=m]> (servers wb)) wb))
        as (_ & _ & Hs & _).
      rewrite Hs. split; [reflexivity|].
      rewrite AddOutcome.saveMetadata_trace. unfold metadata_path.
      cbn [fst snd stateDir trace set_servers] in *. now rewrite Hsd.
Qed.

(** The engine of [c1] comes back with another address: the metadata is
    written again. *)
Lemma recoverPod_metadata_update_witness :
  last (trace (recoverPod (restart_ok "100.64.0.9") "c1" pm0).2)
  = Some (write_metadata "/var/lib/tailscale-cni/pods/c1/metadata.json"
            {| m_ContainerID := "c1"; m_PodName := "web-0"; m_Namespace := "default";
               m_Hostname := "k8s-default-web-0"; m_TailscaleIPv4 := "100.64.0.9";
               m_TailscaleIPv6 := ""; m_CreatedAt := 0%Z;
               m_NetnsPath := "/proc/1234/ns/net"; m_HostVethName := "veth00010203";
               m_ClusterIP := "10.42.0.7" |}).
Proof.
  edestruct (proj2 (recoverPod_metadata_update (restart_ok "100.64.0.9") "c1" pm0 gone_meta
                      eq_refl eq_refl)) as (_ & _ & Ht).
  - reflexivity.
  - vm_compute. reflexivity.
  - rewrite Ht. vm_compute. reflexivity.
Defined.

(** ** Shutdown *)
Module CloseFacts.

Lemma foldr_delete_Some (ms : list ManagedServer) (l : gmap nat string) (h : nat)
    (c : string) :
  foldr (fun (m : ManagedServer) l => delete (Backend m) l) l ms !! h = Some c ->
  l !! h = Some c /\ forall m, In m ms -> Backend m <> h.
Proof.
  induction ms as [|m ms IH]; simpl; intros H.
  - split; [assumption | intros m []].
  - apply lookup_delete_Some in H as [Hne H]. destruct (IH H) as [Hl Hall].
    split; [assumption|]. intros m' [<-|Hin]; auto.
Qed.

End CloseFacts.

(** X26: [Close] returns nil and empties the registry; the calls it makes are
    exactly the shutdown of the backend and the closing of the engine and of
    the monitor of every registered instance; when the registry and the
    live backends agreed, no backend is live afterwards. *)
Theorem Close_all (w : World) :
  (Close w).1 = None /\
  servers (Close w).2 = ∅ /\
  (exists cs,
     trace (Close w).2 = trace w ++ cs /\
     forall call, In call cs <->
                  exists c m, servers w !! c = Some m /\ In call (close_calls m)) /\
  (consistent w -> live (Close w).2 = ∅ /\ consistent (Close w).2).
Proof.
  unfold Close. cbn [fst snd servers live trace set_servers set_live set_trace].
  split; [reflexivity|]. split; [reflexivity|]. split.
  - eexists. split; [reflexivity|]. intros call. rewrite in_flat_map. split.
    + intros (m & Hin & Hc). apply LookupFacts.registered_values in Hin as [c Hm]. eauto.
    + intros (c & m & Hm & Hc). exists m. split; [|assumption].
      apply LookupFacts.registered_values. eauto.
  - intros (I1 & I2 & I3).
    assert (Hl : foldr (fun (m : ManagedServer) l => delete (Backend m) l) (live w)
                   (map snd (map_to_list (servers w))) = ∅).
    { apply map_empty. intros h.
      destruct (foldr _ _ _ !! h) as [c|] eqn:E; [|reflexivity]. exfalso.
      apply CloseFacts.foldr_delete_Some in E as [Hlive Hall].
      apply I2 in Hlive as (srv & Hsrv & Hb).
      apply (Hall srv); [|assumption]. apply LookupFacts.registered_values. eauto. }
    split; [assumption|].
    unfold consistent. cbn [servers live next set_servers set_live set_trace].
    rewrite Hl. split; [|split]; intros ? ? H; rewrite lookup_empty in H; discriminate.
Qed.

(** ** Start-up *)
Module DeviceFacts.
Import Run OAuthFacts BridgeFacts AddFacts RecoverOutcome.

Ltac in_left := first [assumption | apply in_or_app; left; in_left].

Ltac pass f := destruct f; run; [exact I|].

Lemma getOrCreateTUN_device (net : NetEnv) (tn : result string) (lb ls : option error)
    (h : nat) (name : string) (W : World) :
  match getOrCreateTUN net tn lb ls h name W with
  | (Ok actual, W') =>
      tn = Ok actual /\ In (tstun_New name) (trace W') /\
      In (netlink_LinkSetUp None actual) (trace W')
  | (Err _, _) => True
  end.
Proof.
  unfold getOrCreateTUN. run.
  destruct (n_LinkByName net name) as [e1|]; run;
    [|destruct (n_LinkDel net name) as [e1|]; run; [exact I|]].
  all: destruct tn as [tun|e2]; run; [|exact I].
  all: destruct lb as [e3|]; run; [exact I|].
  all: destruct ls as [e4|]; run; [exact I|].
  all: split; [reflexivity|]; rewrite !in_app_iff; simpl; auto 10.
Qed.

(** A backend that comes back was built on a TUN device the recovery created
    under the name of the container and brought up. *)
Lemma recoverPodBackend_device (net : NetEnv) (env : BackendEnv) (c : string)
    (meta : PodMetadata) (ip : netip_Addr) (w : World) :
  match recoverPodBackend net env c meta ip w with
  | (Ok m, w') =>
      exists tun, rb_tstunNew env = Ok tun /\
                  In (tstun_New (tunNameForContainer c)) (trace w') /\
                  In (netlink_LinkSetUp None tun) (trace w')
  | (Err _, _) => True
  end.
Proof.
  unfold recoverPodBackend. run.
  match goal with
  | |- context [getOrCreateTUN ?a ?b ?d ?e ?h ?n ?W] =>
      pose proof (getOrCreateTUN_device a b d e h n W) as Hdev;
      destruct (getOrCreateTUN a b d e h n W) as [[tun|err] wt]
  end; run; [|exact I].
  destruct Hdev as (Htn & Hin1 & Hin2).
  assert (Htun : rec_tun env = Some tun) by (unfold rec_tun; now rewrite Htn).
  pass (rb_netmonNew env).
  pass (rb_engineNew env).
  pass (rb_netstackCreate env).
  pass (rb_NewFileStore env).
  pass (rb_NewPrivateID env).
  pass (rb_NewLocalBackend env).
  pass (rb_netstackStart env).
  pass (rb_lbStart env).
  destruct (rb_needsLogin env); run; [pass (rb_login env)|].
  all: destruct (wait_for_connection (rb_status env) (rb_later env)) as [v4|] eqn:Hw;
       run; [|exact I].
  all: destruct (bool_decide (v4 = ip)); run;
       [|ip_step env (Some ip) w c meta Hw; run;
         destruct (negb (String.eqb (m_HostVethName meta) "")); run;
         [route_step env (Some ip) w c meta Hw; run|]].
  all: reconnect_step env (Some ip) w c meta Htun Hw; run; [|exact I].
  all: exists tun; split; [exact Htn|]; proj;
       repeat match goal with H : trace _ = _ |- _ => rewrite H; clear H end;
       split; in_left.
Qed.

(** [recoverPod] for a record that is loaded and is not an orphan's. *)
Lemma recoverPod_unfold (env : RecoverEnv) (c : string) (w : World) (meta : PodMetadata) :
  (loadMetadata env c w).1 = Ok meta ->
  is_orphan env w c meta = false ->
  recoverPod env c w =
  match r_ParseAddr env (m_TailscaleIPv4 meta) with
  | Err e => (Some (wrap "parsing stored Tailscale IP" e), w)
  | Ok ip0 =>
      (letM rb := recoverPodBackend (r_net env) (r_backend env c) c meta ip0 in
       match rb with
       | Err e => ret (Some (wrap "recovering backend" e))
       | Ok managed =>
           register c managed ;;;
           (if bool_decide (TailscaleIPv4 managed = ip0) then ret tt
            else warn_only (saveMetadata (r_marshal env c)
                              (r_writeMetadata env c) c managed
                              (m_NetnsPath meta))) ;;;
           ret None
       end) w
  end.
Proof.
  intros Hload Ho. unfold is_orphan in Ho. apply orb_false_iff in Ho as [Hns Hst].
  apply negb_false_iff in Hns.
  unfold recoverPod. rewrite Run.bind_run, RecoverFacts.loadMetadata_world, Hload, Hns.
  cbn [negb]. rewrite Hst. destruct (r_ParseAddr env (m_TailscaleIPv4 meta)); reflexivity.
Qed.

Lemma recoverPod_device (env : RecoverEnv) (c : string) (w : World) (meta : PodMetadata) :
  (loadMetadata env c w).1 = Ok meta ->
  is_orphan env w c meta = false ->
  (recoverPod env c w).1 = None ->
  exists tun, recovered_device env (recoverPod env c w).2 c tun.
Proof.
  intros Hload Ho. rewrite (recoverPod_unfold env c w meta Hload Ho).
  destruct (r_ParseAddr env (m_TailscaleIPv4 meta)) as [ip0|e]; [|discriminate].
  rewrite Run.bind_run.
  pose proof (recoverPodBackend_device (r_net env) (r_backend env c) c meta ip0 w) as Hd.
  destruct (recoverPodBackend (r_net env) (r_backend env c) c meta ip0 w) as [[m|e] wb];
    cbn [fst snd ret]; [|discriminate].
  intros _. destruct Hd as (tun & Ht & H1 & H2). exists tun.
  rewrite !Run.seq_run. cbn [ret fst snd register].
  destruct (bool_decide (TailscaleIPv4 m = ip0)).
  - cbn [ret fst snd]. repeat split; assumption.
  - rewrite Run.warn_only_run. cbn [fst snd].
    unfold recovered_device. rewrite AddOutcome.saveMetadata_trace.
    cbn [trace set_servers]. rewrite !in_app_iff. auto.
Qed.

Lemma device_kept (env : RecoverEnv) (w w' : World) (c tun : string) (cs : list Call) :
  trace w' = trace w ++ cs ->
  recovered_device env w c tun -> recovered_device env w' c tun.
Proof.
  intros Ht (H1 & H2 & H3). unfold recovered_device. rewrite Ht, !in_app_iff. auto.
Qed.

Lemma recoverPod_devices (env : RecoverEnv) (c : string) (w : World) :
  all_devices env w -> all_devices env (recoverPod env c w).2.
Proof.
  intros Hinv.
  pose proof (recoverPod_effect env c w) as H. unfold recoverPod_post in H.
  destruct (loadMetadata env c w).1 as [meta|e] eqn:Hload; [|now rewrite H].
  destruct H as (_ & _ & (cs & Ht & _) & H).
  assert (Hsame : servers (recoverPod env c w).2 = servers w ->
                  all_devices env (recoverPod env c w).2).
  { intros Hs c' Hc'. rewrite Hs in Hc'. destruct (Hinv c' Hc') as [tun Hd].
    exists tun. exact (device_kept env w _ c' tun cs Ht Hd). }
  destruct (is_orphan env w c meta) eqn:Ho.
  { apply Hsame. tauto. }
  destruct (recoverPod env c w).1 as [err|] eqn:Hr.
  { apply Hsame. tauto. }
  destruct H as (_ & _ & v4 & veth & Hs & _).
  intros c' Hc'. destruct (decide (c' = c)) as [->|Hne].
  - exact (recoverPod_device env c w meta Hload Ho Hr).
  - rewrite Hs, lookup_insert_ne in Hc' by congruence.
    destruct (Hinv c' Hc') as [tun Hd].
    exists tun. exact (device_kept env w _ c' tun cs Ht Hd).
Qed.

Lemma recover_entries_devices (env : RecoverEnv) (entries : list DirEntry) :
  forall (n : nat) (errs : list error) (w : World),
    all_devices env w -> all_devices env (recover_entries env entries n errs w).2.
Proof.
  induction entries as [|entry rest IH]; intros n errs w Hinv; [exact Hinv|].
  destruct (IsDir entry) eqn:Hd.
  2: { cbn [recover_entries]. rewrite Hd. cbn [negb]. now apply IH. }
  rewrite RecoverFacts.recover_entries_dir by assumption.
  pose proof (recoverPod_devices env (Name entry) w Hinv) as H1.
  destruct (recoverPod env (Name entry) w).1.
  - apply IH.
    match goal with
    | |- all_devices env (cleanupOrphanedPod ?a ?b ?d ?v ?W).2 =>
        destruct (RecoverFacts.cleanupOrphanedPod_effect a b d v W) as (Hs & _ & Ht)
    end.
    intros c' Hc'. rewrite Hs in Hc'. destruct (H1 c' Hc') as [tun Hdev].
    exists tun. exact (device_kept env _ _ c' tun _ Ht Hdev).
  - now apply IH.
Qed.

Lemma sweep_effect (net : NetEnv) (w : World) :
  servers (CleanupOrphanedResources net w).2 = servers w /\
  live (CleanupOrphanedResources net w).2 = live w /\
  trace (CleanupOrphanedResources net w).2
    = trace w ++ map (netlink_LinkDel None) (sweep_deletes net w).
Proof.
  unfold CleanupOrphanedResources, sweep_deletes.
  destruct (n_LinkList net) as [links|e].
  - apply RecoverFacts.sweep_links_effect.
  - cbn [snd map]. now rewrite app_nil_r.
Qed.

Lemma sweep_deletes_spec (net : NetEnv) (w : World) (name : string) :
  In name (sweep_deletes net w) <->
  (exists links, n_LinkList net = Ok links /\ In name links) /\
  gostrings.HasPrefix name "ts-" = true /\ name ∉ knownTUNs w.
Proof.
  unfold sweep_deletes, swept. destruct (n_LinkList net) as [links|e].
  - rewrite filter_In, andb_true_iff, negb_true_iff, bool_decide_eq_false. split.
    + intros (H1 & H2 & H3). split; [eauto | auto].
    + intros ((l & [= <-] & H1) & H2 & H3). auto.
  - split; [intros [] | intros ((l & [=] & _) & _)].
Qed.

Lemma sweep_keeps_registered (net : NetEnv) (w : World) (c : string) :
  is_Some (servers w !! c) -> ~ In (tunNameForContainer c) (sweep_deletes net w).
Proof.
  intros Hc Hin. apply sweep_deletes_spec in Hin as (_ & _ & Hk).
  apply Hk. now apply RecoverFacts.known_registered.
Qed.

End DeviceFacts.

Module StartFacts.

Lemma recover_entries_frame (env : RecoverEnv) (entries : list DirEntry) :
  forall (n : nat) (errs : list error) (w : World),
    stateDir (recover_entries env entries n errs w).2 = stateDir w /\
    clusterName (recover_entries env entries n errs w).2 = clusterName w.
Proof.
  induction entries as [|entry rest IH]; intros n errs w; [simpl; auto|].
  destruct (IsDir entry) eqn:Hd.
  2: { cbn [recover_entries]. rewrite Hd. cbn [negb]. apply IH. }
  rewrite RecoverFacts.recover_entries_dir by assumption.
  assert (Hf : stateDir (recoverPod env (Name entry) w).2 = stateDir w /\
               clusterName (recoverPod env (Name entry) w).2 = clusterName w).
  { pose proof (RecoverOutcome.recoverPod_effect env (Name entry) w) as H.
    unfold recoverPod_post in H.
    destruct (loadMetadata env (Name entry) w).1; [|rewrite H; auto].
    destruct H as (H1 & H2 & _). auto. }
  destruct Hf as [Hf1 Hf2].
  destruct (recoverPod env (Name entry) w).1.
  - match goal with
    | |- context [recover_entries env rest n ?E (cleanupOrphanedPod ?a ?b ?d ?v ?W).2] =>
        destruct (IH n E (cleanupOrphanedPod a b d v W).2) as [R1 R2];
        destruct (RecoverOutcome.cleanup_frame a b d v W) as (C1 & C2 & _)
    end.
    rewrite R1, R2, C1, C2. auto.
  - destruct (IH (S n) errs (recoverPod env (Name entry) w).2) as [R1 R2].
    rewrite R1, R2. auto.
Qed.

Lemma main_tags_shape (f : Flags) (e : Environ) :
  main_tags f e <> [] /\ Forall (fun t => t <> "") (main_tags f e).
Proof.
  unfold main_tags.
  set (tagsStr := if String.eqb (f_tags f) "" then TS_TAGS e else f_tags f).
  assert (H : forall l, Forall (fun t => t <> "")
                          (filter (fun t => negb (String.eqb t "")) l)).
  { intros l. apply Forall_forall. intros t Ht.
    apply list_elem_of_filter in Ht as [Ht _].
    apply Is_true_true in Ht. apply negb_true_iff, String.eqb_neq in Ht. assumption. }
  destruct (String.eqb tagsStr "").
  - split; [discriminate|]. repeat constructor. discriminate.
  - specialize (H (map TrimSpace (Split_comma tagsStr))).
    destruct (filter _ _) as [|t ts]; [|split; [discriminate | assumption]].
    split; [discriminate|]. repeat constructor. discriminate.
Qed.

Lemma main_cluster_not_empty (f : Flags) (e : Environ) : main_cluster f e <> "".
Proof.
  unfold main_cluster.
  destruct (String.eqb (f_cluster_name f) "") eqn:E1.
  - destruct (String.eqb (CLUSTER_NAME e) "") eqn:E2; [discriminate|].
    now apply String.eqb_neq.
  - rewrite E1. now apply String.eqb_neq.
Qed.

Lemma recoverPod_grows (env : RecoverEnv) (c : string) (w : World) :
  exists cs, trace (recoverPod env c w).2 = trace w ++ cs.
Proof.
  pose proof (RecoverOutcome.recoverPod_effect env c w) as H.
  unfold recoverPod_post in H.
  destruct (loadMetadata env c w).1.
  - destruct H as (_ & _ & (cs & Ht & _) & _). eauto.
  - rewrite H. exists []. simpl. now rewrite app_nil_r.
Qed.

Lemma recover_entries_grows (env : RecoverEnv) (entries : list DirEntry) :
  forall (n : nat) (errs : list error) (w : World),
    exists cs, trace (recover_entries env entries n errs w).2 = trace w ++ cs.
Proof.
  induction entries as [|entry rest IH]; intros n errs w.
  { exists []. simpl. now rewrite app_nil_r. }
  destruct (IsDir entry) eqn:Hd.
  2: { cbn [recover_entries]. rewrite Hd. cbn [negb]. apply IH. }
  rewrite RecoverFacts.recover_entries_dir by assumption.
  destruct (recoverPod_grows env (Name entry) w) as [cs1 H1].
  destruct (recoverPod env (Name entry) w).1.
  - match goal with
    | |- context [recover_entries env rest n ?E (cleanupOrphanedPod ?a ?b ?d ?v ?W).2] =>
        destruct (IH n E (cleanupOrphanedPod a b d v W).2) as [cs3 H3];
        destruct (RecoverFacts.cleanupOrphanedPod_effect a b d v W) as (_ & _ & H2)
    end.
    rewrite H3, H2, H1, <- !app_assoc. eauto.
  - destruct (IH (S n) errs (recoverPod env (Name entry) w).2) as [cs3 H3].
    rewrite H3, H1, <- app_assoc. eauto.
Qed.

Lemma sweep_links_frame (net : NetEnv) (known : gset string) (links : list string) :
  forall w : World,
    next (sweep_links net known links w).2 = next w /\
    stateDir (sweep_links net known links w).2 = stateDir w /\
    clusterName (sweep_links net known links w).2 = clusterName w.
Proof.
  induction links as [|name links IH]; intros w; [simpl; auto|].
  cbn [sweep_links]. rewrite Run.seq_run.
  destruct (gostrings.HasPrefix name "ts-" && negb (bool_decide (name ∈ known))).
  - rewrite Run.warn_only_run, Run.attempt_run. cbn [snd].
    destruct (IH (set_trace (trace w ++ [netlink_LinkDel None name]) w))
      as (I1 & I2 & I3).
    rewrite I1, I2, I3. auto.
  - apply IH.
Qed.

End StartFacts.

(** X27: The daemon comes up only with both credentials and a state directory;
    it then has a cluster name and a list of tags that are not empty (the
    defaults [k8s] and [tag:k8s-pod] when nothing is given), and after the
    recovery pass and the orphan sweep, for pod directories with distinct
    names: the registry and the live backends agree, every container has at
    most one live backend, only containers that have a directory are
    registered, and every directory was either recovered or reported.
    Making the state directory is the first call; the sweep comes last, after
    the recovery, leaves the registry as the recovery left it, and deletes
    exactly the links named [ts-...] that are not the TUN name of a container
    the recovery registered.  For every registered container the recovery
    created a TUN device under the name of the container and brought it up;
    when the kernel gives these devices the names asked for, the sweep
    deletes the device of no registered container. *)
Theorem daemon_startup (f : Flags) (e : Environ) (mkdir : option error)
    (renv : RecoverEnv) (entries : list DirEntry) (net : NetEnv)
    (n : nat) (errs : list error) (w : World) :
  main_startup f e mkdir renv (DirEntries entries) net = Ok (n, errs, w) ->
  NoDup (dir_names entries) ->
  (TS_OAUTH_CLIENT_ID e <> "" /\ TS_OAUTH_CLIENT_SECRET e <> "" /\ mkdir = None) /\
  (stateDir w = f_state_dir f /\ clusterName w = main_cluster f e /\ clusterName w <> "" /\
   main_tags f e <> [] /\ Forall (fun t => t <> "") (main_tags f e)) /\
  (consistent w /\
   (forall c, is_Some (servers w !! c) -> In c (dir_names entries)) /\
   (forall c, length (live_for w c) <= 1)) /\
  n + length errs = count_dirs entries /\
  (let w2 := startup_recovered f e renv (DirEntries entries) in
   (exists t, trace w2 = os_MkdirAll (f_state_dir f) :: t) /\
   servers w = servers w2 /\
   trace w = trace w2 ++ map (netlink_LinkDel None) (sweep_deletes net w2) /\
   (forall name, In name (sweep_deletes net w2) <->
      (exists links, n_LinkList net = Ok links /\ In name links) /\
      gostrings.HasPrefix name "ts-" = true /\
      forall c, is_Some (servers w !! c) -> name <> tunNameForContainer c) /\
   (forall c, is_Some (servers w !! c) ->
      exists tun, recovered_device renv w2 c tun /\
                  (tun = tunNameForContainer c -> ~ In tun (sweep_deletes net w2))) /\
   ((forall c tun, In c (dir_names entries) ->
                   rb_tstunNew (r_backend renv c) = Ok tun -> tun = tunNameForContainer c) ->
    forall c, is_Some (servers w !! c) ->
      recovered_device renv w2 c (tunNameForContainer c) /\
      ~ In (tunNameForContainer c) (sweep_deletes net w2))).
Proof.
  unfold main_startup, main_podMgr. intros H Hnd.
  destruct (String.eqb (TS_OAUTH_CLIENT_ID e) "") eqn:Hid; [discriminate|].
  destruct (String.eqb (TS_OAUTH_CLIENT_SECRET e) "") eqn:Hsec; [discriminate|].
  cbn [orb] in H. destruct mkdir as [err|]; [discriminate|].
  apply String.eqb_neq in Hid, Hsec.
  split; [auto|].
  rewrite Run.seq_run, Run.bind_run, Run.seq_run in H. cbn [fst snd] in H.
  set (w0 := NewPodManager (f_state_dir f) (main_cluster f e)
               (NewOAuthManager (TS_OAUTH_CLIENT_ID e) (TS_OAUTH_CLIENT_SECRET e)
                  (main_tags f e))) in *.
  set (w1 := (call (os_MkdirAll (f_state_dir f)) w0).2) in *.
  unfold startup_recovered. fold w0. fold w1.
  unfold RecoverPods in *.
  set (w2 := (recover_entries renv entries 0 [] w1).2) in *.
  injection H as Hr Hw.
  assert (Hc1 : consistent w1).
  { apply (PassFacts.consistent_same w0); auto. apply RegistryFacts.consistent_new. }
  destruct (PassFacts.recover_entries_consistent renv entries 0 [] w1 Hc1 Hnd)
    as [Hc2 Hreg]; [intros c _; reflexivity|].
  fold w2 in Hc2, Hreg.
  destruct (StartFacts.recover_entries_frame renv entries 0 [] w1) as [Hsd Hcn].
  fold w2 in Hsd, Hcn.
  destruct (StartFacts.recover_entries_grows renv entries 0 [] w1) as [t Ht].
  fold w2 in Ht.
  destruct (RecoverFacts.recover_entries_count renv entries 0 [] w1) as [Hcount _].
  assert (Hdev : all_devices renv w2).
  { apply DeviceFacts.recover_entries_devices. intros c Hc. cbn in Hc.
    rewrite lookup_empty in Hc. now destruct Hc. }
  assert (Hin : forall c, is_Some (servers w2 !! c) -> In c (dir_names entries)).
  { intros c Hc. apply Hreg in Hc as [Hc|Hc]; [|assumption].
    cbn in Hc. rewrite lookup_empty in Hc. now destruct Hc. }
  destruct (DeviceFacts.sweep_effect net w2) as (Hs & Hl & Htr).
  rewrite Hw in Hs, Hl, Htr.
  assert (Hframe : next w = next w2 /\ stateDir w = stateDir w2 /\
                   clusterName w = clusterName w2).
  { subst w. unfold CleanupOrphanedResources.
    destruct (n_LinkList net) as [links|err]; [|auto].
    apply StartFacts.sweep_links_frame. }
  destruct Hframe as (Hn & Hsd' & Hcn').
  assert (Hc : consistent w).
  { apply (PassFacts.consistent_same w2); auto. lia. }
  split.
  { rewrite Hsd', Hsd, Hcn', Hcn. cbn.
    split; [reflexivity|]. split; [reflexivity|].
    split; [apply StartFacts.main_cluster_not_empty|]. apply StartFacts.main_tags_shape. }
  split.
  { split; [assumption|]. split.
    - intros c Hc'. rewrite Hs in Hc'. now apply Hin.
    - intros c. now apply RegistryFacts.live_for_at_most_one. }
  split.
  { rewrite Hr in Hcount. cbn [fst snd] in Hcount. simpl in Hcount. lia. }
  cbv zeta. split; [|split; [|split; [|split; [|split]]]].
  - exists t. rewrite Ht. reflexivity.
  - exact Hs.
  - exact Htr.
  - intros name. rewrite DeviceFacts.sweep_deletes_spec, Hs. unfold knownTUNs.
    rewrite elem_of_map. setoid_rewrite elem_of_dom.
    split; intros (H1 & H2 & H3); (split; [exact H1|]; split; [exact H2|]).
    + intros c Hc' ->. apply H3. eauto.
    + intros (c & -> & Hc'). now apply (H3 c).
  - intros c Hc'. rewrite Hs in Hc'. destruct (Hdev c Hc') as [tun Hd].
    exists tun. split; [exact Hd|]. intros ->.
    now apply DeviceFacts.sweep_keeps_registered.
  - intros Hname c Hc'. rewrite Hs in Hc'. destruct (Hdev c Hc') as [tun Hd].
    assert (tun = tunNameForContainer c) as ->
      by (apply (Hname c); [now apply Hin | apply Hd]).
    split; [exact Hd|]. now apply DeviceFacts.sweep_keeps_registered.
Qed.

(** The daemon started with the default flags and credentials in the
    environment, the directory of [c1] on disk with everything of [c1] still
    in place, and the links [ts-c1] and [ts-deadbeef] on the host when the
    sweep starts: [c1] is recovered on the device [ts-c1], which the sweep
    keeps. *)
Lemma daemon_startup_witness :
  exists w,
    main_startup default_flags with_credentials None restart_c1
      (DirEntries [{| Name := "c1"; IsDir := true |}]) two_tuns = Ok (1, [], w) /\
    consistent w /\ clusterName w = "k8s" /\
    recovered_device restart_c1
      (startup_recovered default_flags with_credentials restart_c1
         (DirEntries [{| Name := "c1"; IsDir := true |}])) "c1" "ts-c1" /\
    ~ In "ts-c1"
        (sweep_deletes two_tuns
           (startup_recovered default_flags with_credentials restart_c1
              (DirEntries [{| Name := "c1"; IsDir := true |}]))).
Proof.
  eexists. split; [vm_compute; reflexivity|].
  edestruct (daemon_startup default_flags with_credentials None restart_c1
               [{| Name := "c1"; IsDir := true |}] two_tuns)
    as (_ & (_ & Hcn & _) & (Hc & _) & _ & Hsweep).
  - vm_compute. reflexivity.
  - apply NoDup_singleton.
  - split; [exact Hc|]. split; [exact Hcn|].
    cbv zeta in Hsweep. destruct Hsweep as (_ & _ & _ & _ & _ & Hkept).
    apply (Hkept ltac:(intros c tun [<-|[]] [= <-]; reflexivity) "c1").
    vm_compute. eauto.
Defined.

(* ================================================================= *)
(** * The TUN device of an instance and the orphan sweep *)

Module TunFacts.
Import Run OAuthFacts BridgeFacts AddFacts.





End TunFacts.



(* ================================================================= *)
(** * The plug-in: properties *)

Module ConnectFacts.
Import cni.

Lemma backoff_bounds (attempt : nat) (missing : bool) :
  (500 * Millisecond <= backoff attempt missing <= backoff attempt true)%Z /\
  (backoff attempt true <= 10 * Second)%Z.
Proof.
  unfold backoff, baseDelay.
  assert (H : (1 <= 2 ^ Z.of_nat attempt)%Z).
  { apply (Z.pow_le_mono_r 2 0); lia. }
  unfold Second, Millisecond in *.
  destruct missing;
    repeat match goal with
           | |- context [(?a <? ?b)%Z] => destruct (Z.ltb_spec a b)
           end; lia.
Qed.

Lemma connect_loop_spec (env : Env) (path : string) (left : nat) :
  forall (attempt : nat) (err : error),
    let r := connect_loop env path left attempt err in
    dials r.2 <= left /\
    Forall (fun d => (500 * Millisecond <= d <= 10 * Second)%Z) (sleeps r.2) /\
    (total_sleep r.2 <= longest left attempt)%Z /\
    match r.1 with
    | Ok k =>
        attempt <= k < attempt + left /\ dial env k = None /\
        (forall j, attempt <= j < k -> dial env j <> None) /\
        length (sleeps r.2) = k - attempt /\ dials r.2 = S (k - attempt)
    | Err e =>
        (forall j, attempt <= j < attempt + left -> dial env j <> None) /\
        length (sleeps r.2) = left /\ dials r.2 = left /\
        exists last,
          e = wrap ("connecting to daemon at " +:+ path +:+ " after 10 attempts") last /\
          (left = 0 -> last = err) /\
          (0 < left -> dial env (attempt + left - 1) = Some last)
    end.
Proof.
  induction left as [|left IH]; intros attempt err; cbn [connect_loop].
  - cbn. repeat split; try lia; try constructor.
    exists err. repeat split; auto. lia.
  - destruct (dial env attempt) as [err'|] eqn:Hd.
    + specialize (IH (S attempt) err').
      destruct (connect_loop env path left (S attempt) err') as [r evs].
      cbn [fst snd] in *. destruct IH as (Hn & Hf & Ht & Hr).
      destruct (backoff_bounds attempt (socket_missing env attempt)) as [[B1 B2] B3].
      split; [unfold dials in *; simpl; lia|].
      split; [unfold sleeps in *; simpl; constructor; [lia | assumption]|].
      split.
      { unfold total_sleep, sleeps in *. simpl. cbn [longest]. lia. }
      destruct r as [k|e].
      * destruct Hr as (Hk & Hk0 & Hj & Hl & Hdl).
        split; [lia|]. split; [assumption|]. split.
        { intros j Hjr. destruct (decide (j = attempt)) as [->|Hne].
          - rewrite Hd. discriminate.
          - apply Hj. lia. }
        unfold sleeps, dials in *. simpl. split; lia.
      * destruct Hr as (Hj & Hl & Hdl & last & -> & H0 & H1).
        split.
        { intros j Hjr. destruct (decide (j = attempt)) as [->|Hne].
          - rewrite Hd. discriminate.
          - apply Hj. lia. }
        unfold sleeps, dials in *. simpl. split; [lia|]. split; [lia|].
        exists last. split; [reflexivity|]. split; [lia|]. intros _.
        destruct left as [|left'].
        -- rewrite H0 by reflexivity. replace (attempt + 1 - 1) with attempt by lia.
           assumption.
        -- replace (attempt + S (S left') - 1) with (S attempt + S left' - 1) by lia.
           apply H1. lia.
    + cbn. split; [unfold dials; simpl; lia|]. split; [constructor|].
      split.
      { destruct (backoff_bounds attempt true) as [[B1 _] _].
        assert (0 <= longest left (S attempt))%Z.
        { clear. generalize (S attempt). induction left as [|l IHl]; intros a; simpl; [lia|].
          destruct (backoff_bounds a true) as [[B1 _] _]. specialize (IHl (S a)).
          unfold Millisecond in *. lia. }
        unfold total_sleep, sleeps. simpl. unfold Millisecond in *. lia. }
      split; [lia|]. split; [assumption|]. split; [intros j Hj; lia|].
      unfold sleeps, dials. simpl. split; lia.
Qed.

End ConnectFacts.

(** X28: [connectToDaemon] dials at most ten times and pauses after every failed
    attempt, each pause between 500 ms and 10 s and all of them together at
    most 65.5 s.  It succeeds at the first attempt that connects, after as
    many pauses as failed attempts; it fails only after ten failed attempts
    and ten pauses (it pauses after the last one too), with the error of the
    tenth attempt. *)
Theorem connectToDaemon_backoff (env : cni.Env) (path : string) :
  cni.dials (cni.connectToDaemon env path).2 <= 10 /\
  Forall (fun d => (500 * Millisecond <= d <= 10 * Second)%Z)
    (cni.sleeps (cni.connectToDaemon env path).2) /\
  (cni.total_sleep (cni.connectToDaemon env path).2 <= 65500 * Millisecond)%Z /\
  (forall k, (cni.connectToDaemon env path).1 = Ok k ->
     k < 10 /\ cni.dial env k = None /\ (forall j, j < k -> cni.dial env j <> None) /\
     length (cni.sleeps (cni.connectToDaemon env path).2) = k /\
     cni.dials (cni.connectToDaemon env path).2 = S k) /\
  (forall e, (cni.connectToDaemon env path).1 = Err e ->
     (forall j, j < 10 -> cni.dial env j <> None) /\
     length (cni.sleeps (cni.connectToDaemon env path).2) = 10 /\
     exists last,
       cni.dial env 9 = Some last /\
       e = wrap ("connecting to daemon at " +:+ path +:+ " after 10 attempts") last).
Proof.
  unfold cni.connectToDaemon, cni.maxRetries.
  pose proof (ConnectFacts.connect_loop_spec env path 10 0 "") as H.
  cbv zeta in H. destruct H as (Hn & Hf & Ht & Hr).
  split; [assumption|]. split; [assumption|]. split.
  { assert (E : cni.longest 10 0 = (65500 * Millisecond)%Z) by (vm_compute; reflexivity).
    now rewrite <- E. }
  destruct (cni.connect_loop env path 10 0 "").1 as [k|e]; split.
  - intros k' [= <-]. destruct Hr as (Hk & Hd & Hj & Hl & Hdl).
    split; [lia|]. split; [assumption|]. split; [intros j Hjk; apply Hj; lia|].
    split; lia.
  - intros e [=].
  - intros k [=].
  - intros e' [= <-]. destruct Hr as (Hj & Hl & _ & last & -> & _ & H1).
    split; [intros j Hjk; apply Hj; lia|]. split; [assumption|].
    exists last. split; [apply H1; lia | reflexivity].
Qed.

Module PluginFacts.
Import cni.

Lemma connect_loop_events (env : Env) (path : string) (left : nat) :
  forall (attempt : nat) (err : error),
    Forall (connect_event path) (connect_loop env path left attempt err).2.
Proof.
  induction left as [|left IH]; intros attempt err; cbn [connect_loop].
  - constructor.
  - destruct (dial env attempt) as [err'|].
    + specialize (IH (S attempt) err').
      destruct (connect_loop env path left (S attempt) err') as [r evs].
      cbn [snd] in *. repeat constructor. assumption.
    + repeat constructor.
Qed.

Lemma loadConf_socket (env : Env) (conf : NetConf) :
  loadConf env = Ok conf ->
  DaemonSocket conf <> "" /\
  exists raw, Unmarshal env = Ok raw /\ CNIVersion conf = CNIVersion raw /\
              DaemonSocket conf
              = (if String.eqb (DaemonSocket raw) "" then defaultSocket
                 else DaemonSocket raw).
Proof.
  unfold loadConf. destruct (Unmarshal env) as [raw|e]; [|discriminate].
  destruct (ParsePrevResult env); [discriminate|].
  intros [= <-].
  destruct (String.eqb (DaemonSocket raw) "") eqn:E.
  - split; [discriminate|]. exists raw. cbn. rewrite ?E. auto.
  - split; [now apply String.eqb_neq|]. exists raw. rewrite ?E. auto.
Qed.


End PluginFacts.

(** X29: The DEL of the plug-in is best effort: it fails only when the
    configuration cannot be loaded, and then dials nothing; otherwise it
    returns nil whatever the dialing and the daemon do.  It dials the socket
    of the configuration, the default one when none is given, at most ten
    times, and sends at most one Del request, for the container, namespace
    and interface of its arguments, after which it closes the connection. *)
Theorem plugin_Del_best_effort (env : cni.Env) (args : cni.CmdArgs) :
  (forall e, cni.loadConf env = Err e -> cni.cmdDel env args = (Some e, [])) /\
  (forall conf, cni.loadConf env = Ok conf ->
     (cni.cmdDel env args).1 = None /\
     cni.DaemonSocket conf <> "" /\
     cni.dials (cni.cmdDel env args).2 <= 10 /\
     exists evs,
       Forall (connect_event (cni.DaemonSocket conf)) evs /\
       ((cni.cmdDel env args).2 = evs \/
        (cni.cmdDel env args).2 = evs ++ [cni.DelRPC (cni.request_of args); cni.ConnClose])).
Proof.
  unfold cni.cmdDel. split.
  - intros e He. now rewrite He.
  - intros conf Hc. rewrite Hc.
    destruct (PluginFacts.loadConf_socket env conf Hc) as [Hs _].
    pose proof (PluginFacts.connect_loop_events env (cni.DaemonSocket conf) 10 0 "") as Hev.
    destruct (ConnectFacts.connect_loop_spec env (cni.DaemonSocket conf) 10 0 "")
      as (Hn & _).
    unfold cni.connectToDaemon, cni.maxRetries.
    destruct (cni.connect_loop env (cni.DaemonSocket conf) 10 0 "") as [[k|e] evs];
      cbn [fst snd] in *.
    + split; [reflexivity|]. split; [assumption|]. split.
      * unfold cni.dials in *. rewrite List.filter_app, length_app. simpl. lia.
      * exists evs. auto.
    + split; [reflexivity|]. split; [assumption|]. split; [assumption|].
      exists evs. auto.
Qed.

(** The daemon is reached at the second attempt. *)
Lemma plugin_Del_best_effort_witness :
  cni.cmdDel (plugin_env {| pb.TailscaleIpv4 := "100.64.0.1"; pb.TailscaleIpv6 := "";
                            pb.TailscaleHostname := "k8s-default-web-0" |}) eth0_args
  = (None,
     [cni.Dial "unix:///var/run/tailscale-cni/daemon.sock"; cni.Sleep (500 * Millisecond)%Z;
      cni.Dial "unix:///var/run/tailscale-cni/daemon.sock";
      cni.DelRPC (cni.request_of eth0_args); cni.ConnClose]).
Proof.
  edestruct (proj2 (plugin_Del_best_effort
                      (plugin_env {| pb.TailscaleIpv4 := "100.64.0.1";
                                     pb.TailscaleIpv6 := "";
                                     pb.TailscaleHostname := "k8s-default-web-0" |})
                      eth0_args))
    as (Hr & _); [reflexivity|].
  vm_compute. reflexivity.
Defined.


